(** * Lecture auto-transcriber: a shallow embedding of [main.py]

    The script lists the videos of every configured subject on a remote
    drive, downloads the ones that have no completion record, extracts and
    transcribes their audio, writes one transcript file per video and
    records the completion in a document store.

    The embedding follows the source function by function.  Everything the
    script does to the outside (file system, store, remote drive, speech
    model, sleeping) is either part of an explicit [World] that is threaded
    through the code, or an answer given by an [Env] of oracles.  Python
    exceptions are the [Raise] results of a state-and-error monad, and
    [try: ... except Exception] is [try_except]. *)

From Stdlib Require Import Ascii ZArith Lia.
From Stdlib Require String.
From stdpp Require Import gmap strings list fin_maps.

Local Open Scope Z_scope.

(** ** Strings: the pieces of [str] and [os.path] the script relies on *)

Module Str.

(** [str.isspace] on the code points below 256. *)
Definition isspace (c : ascii) : bool :=
  let n := N_of_ascii c in
  ((9 <=? n) && (n <=? 13) || (28 <=? n) && (n <=? 32)
   || (n =? 133) || (n =? 160))%N.

Definition is_empty (s : string) : bool :=
  match s with EmptyString => true | String _ _ => false end.

Fixpoint lstrip (s : string) : string :=
  match s with
  | EmptyString => EmptyString
  | String c r => if isspace c then lstrip r else s
  end.

Fixpoint rstrip (s : string) : string :=
  match s with
  | EmptyString => EmptyString
  | String c r =>
      let r' := rstrip r in
      if isspace c && is_empty r' then EmptyString else String c r'
  end.

(** [s.strip()] *)
Definition strip (s : string) : string := rstrip (lstrip s).

(** [needle in hay] *)
Fixpoint contains (needle hay : string) : bool :=
  String.prefix needle hay ||
  match hay with
  | EmptyString => false
  | String _ r => contains needle r
  end.

(** [s.rfind(c)], with Python's [-1] for a character that does not occur. *)
Fixpoint rfind_from (c : ascii) (s : string) (i last : Z) : Z :=
  match s with
  | EmptyString => last
  | String a r => rfind_from c r (i + 1) (if Ascii.eqb a c then i else last)
  end.

Definition rfind (c : ascii) (s : string) : Z := rfind_from c s 0 (-1).

(** [p[i:]] and [p[:i]] for [0 <= i]. *)
Definition drop_to (i : Z) (p : string) : string :=
  String.substring (Z.to_nat i) (String.length p - Z.to_nat i) p.

Definition take_to (i : Z) (p : string) : string :=
  String.substring 0 (Z.to_nat i) p.

Definition sep : ascii := "/"%char.
Definition extsep : ascii := "."%char.

(** [posixpath.basename] *)
Definition basename (p : string) : string := drop_to (rfind sep p + 1) p.

(** The first component of [posixpath.splitext]: the extension is cut at
    the last dot, unless that dot only follows leading dots of the file
    name. *)
Definition splitext_root (p : string) : string :=
  let sepIndex := rfind sep p in
  let dotIndex := rfind extsep p in
  if sepIndex <? dotIndex then
    let idxs := seq (Z.to_nat (sepIndex + 1)) (Z.to_nat (dotIndex - (sepIndex + 1))) in
    if existsb (fun i => match String.get i p with
                         | Some a => negb (Ascii.eqb a extsep)
                         | None => false
                         end) idxs
    then take_to dotIndex p
    else p
  else p.

End Str.

(** ** The world the script acts on *)

(** What the script does to the outside, in the order it does it. *)
Inductive LogMsg :=
| NoVideosFound (subject : string)
| NoUnprocessedVideos (subject : string)
| NoVideosDownloaded (subject : string)
| NoSuccessfulTranscriptions (subject : string)
| CompletedSubject (subject : string)
| ErrorProcessingSubject (subject : string) (e : string)
| ScriptCompleted.

Inductive Event :=
| EvListing (folder_id : string)
| EvSkipping (video_name : string)
| EvDownloadAttempt (file_id temp_video : string)
| EvSleep (seconds : Z)
| EvExtract (video_path audio_path : string)
| EvPrimary (audio_path : string)
| EvFallbackLoad
| EvFallback (audio_path : string)
| EvArtifactWritten (txt_name : string)
| EvInsertIssued (subject video_name : string)
| EvRemove (path : string)
| EvLog (msg : LogMsg).

(** [fs] maps the paths that exist to their contents, [store] is the
    [processed_videos] collection (documents in insertion order, duplicates
    kept, as [insert_one] keeps them).  [trace] is not state of the script: it
    records, in order, the calls the script makes to the outside, so that
    properties such as "no download is started" or "the write comes before
    the insert" can be stated. *)
Record World := mkWorld {
  fs : gmap string string;
  store : list (string * string);
  trace : list Event
}.

Definition set_fs (f : gmap string string -> gmap string string) (w : World) : World :=
  mkWorld (f (fs w)) (store w) (trace w).

Definition set_store (f : list (string * string) -> list (string * string)) (w : World) : World :=
  mkWorld (fs w) (f (store w)) (trace w).

Definition set_trace (f : list Event -> list Event) (w : World) : World :=
  mkWorld (fs w) (store w) (f (trace w)).

(** ** Exceptions and state *)

(** An exception is identified with its message, [str(e)]. *)
Definition Exn := string.

Inductive Res (A : Type) :=
| Ok (a : A)
| Raise (e : Exn).
Arguments Ok {A} a.
Arguments Raise {A} e.

Definition M (A : Type) : Type := World -> Res A * World.

#[global] Instance M_ret : MRet M := fun A a w => (Ok a, w).

#[global] Instance M_bind : MBind M := fun A B k m w =>
  match m w with
  | (Ok a, w') => k a w'
  | (Raise e, w') => (Raise e, w')
  end.

Definition raise {A} (e : Exn) : M A := fun w => (Raise e, w).

(** [try: m  except Exception as e: h e] *)
Definition try_except {A} (m : M A) (h : Exn -> M A) : M A := fun w =>
  match m w with
  | (Ok a, w') => (Ok a, w')
  | (Raise e, w') => h e w'
  end.

(** A task run to completion keeps its outcome until it is awaited. *)
Definition run_task {A} (m : M A) : M (Res A) := fun w =>
  let (r, w') := m w in (Ok r, w').

Definition await {A} (r : Res A) : M A :=
  match r with
  | Ok a => mret a
  | Raise e => raise e
  end.

Fixpoint foldM {A S} (body : S -> A -> M S) (l : list A) (s : S) : M S :=
  match l with
  | [] => mret s
  | x :: r => s' ← body s x; foldM body r s'
  end.

Definition for_each {A} (l : list A) (body : A -> M unit) : M unit :=
  foldM (fun _ x => body x) l tt.

Definition emit (e : Event) : M unit := fun w =>
  (Ok tt, set_trace (fun t => t ++ [e]) w).

(** ** File system primitives *)

Definition path_exists (p : string) : M bool := fun w =>
  (Ok (match fs w !! p with Some _ => true | None => false end), w).

Definition getsize (p : string) : M Z := fun w =>
  match fs w !! p with
  | Some c => (Ok (Z.of_nat (String.length c)), w)
  | None => (Raise "FileNotFoundError", w)
  end.

(** [os.path.exists(p) and os.path.getsize(p) > 0] *)
Definition exists_nonempty (p : string) : M bool :=
  ex ← path_exists p;
  if ex : bool then sz ← getsize p; mret (0 <? sz) else mret false.

Definition write_file (p content : string) : M unit := fun w =>
  (Ok tt, set_fs (fun f => <[p := content]> f) w).

Definition os_remove (p : string) : M unit := fun w =>
  match fs w !! p with
  | Some _ => (Ok tt, set_trace (fun t => t ++ [EvRemove p]) (set_fs (fun f => delete p f) w))
  | None => (Raise "FileNotFoundError", w)
  end.

(** ** What the outside answers *)

Record DriveFile := mkFile { file_id : string; file_name : string }.

(** One pass through [with open(temp_video, 'wb')]: the file cannot be
    opened, or a chunk fails after the file was opened (and truncated), or
    all chunks arrive. *)
Inductive FetchOutcome :=
| FetchOpenError (e : Exn)
| FetchChunkError (partial : string) (e : Exn)
| FetchOk (content : string).

(** [subprocess.run(cmd, check=True)]: what is left at [audio_path] (nothing,
    or a file with this content) and whether the call raised. *)
Inductive ExtractOutcome :=
| ExtractOk (out : option string)
| ExtractError (out : option string) (e : Exn).

(** [aiofiles.open(txt_name, 'w')] followed by [f.write]. *)
Inductive WriteOutcome :=
| WriteDone
| WriteOpenError (e : Exn)
| WriteCutShort (written : string) (e : Exn).

Record Env := mkEnv {
  (** [config['subjects']], in order, and each subject's
      [recording_folder_id] ([None]: the key is missing) *)
  subjects : list string;
  recording_folder : string -> option string;
  (** [service.files().list(...).execute().get('files', [])] *)
  drive_list : string -> Res (list DriveFile);
  (** the [n]-th download attempt of a file *)
  drive_fetch : string -> Z -> FetchOutcome;
  (** [processed_collection.find_one] failing before it answers *)
  find_error : string -> string -> option Exn;
  insert_error : string -> string -> option Exn;
  artifact_write : string -> WriteOutcome;
  ffmpeg : string -> ExtractOutcome;
  (** [model.transcribe(audio_path)["segments"]], texts only *)
  primary_model : string -> Res (list string);
  load_base_model : option Exn;
  base_model : string -> Res (list string);
  (** [os.cpu_count()] *)
  cpu_count : option Z
}.

Definition nl : string := String (ascii_of_nat 10) EmptyString.

(** Python's insertion-ordered [dict]: [d[k] = v] replaces the value of a key
    that is present, in place, and appends a new key at the end. *)
Fixpoint dict_set {V} (k : string) (v : V) (d : list (string * V)) : list (string * V) :=
  match d with
  | [] => [(k, v)]
  | (k', v') :: r => if String.eqb k' k then (k', v) :: r else (k', v') :: dict_set k v r
  end.

Definition is_nil {A} (l : list A) : bool :=
  match l with [] => true | _ :: _ => false end.

(** [find_one({'subject': subject, 'video_name': video_name})] finds a
    document. *)
Definition has_record (records : list (string * string)) (subject video_name : string) : bool :=
  existsb (fun d => String.eqb (fst d) subject && String.eqb (snd d) video_name) records.

Section Pipeline.

Context (env : Env).

(** ** [transcribe_with_ffmpeg_preprocessing] (lines 32-103) *)

Definition leave_output (audio_path : string) (out : option string) : M unit :=
  match out with
  | Some c => write_file audio_path c
  | None => mret tt
  end.

Definition run_ffmpeg (video_path audio_path : string) : M unit :=
  emit (EvExtract video_path audio_path);;
  match ffmpeg env video_path with
  | ExtractOk out => leave_output audio_path out
  | ExtractError out e => leave_output audio_path out;; raise e
  end.

Definition model_transcribe (audio_path : string) : M (list string) :=
  emit (EvPrimary audio_path);; await (primary_model env audio_path).

Definition whisper_load_base : M unit :=
  emit EvFallbackLoad;;
  match load_base_model env with
  | Some e => raise e
  | None => mret tt
  end.

Definition base_model_transcribe (audio_path : string) : M (list string) :=
  emit (EvFallback audio_path);; await (base_model env audio_path).

(** [formatted_text = ""], then [formatted_text += f"{text.strip()}<end>"]
    for every segment. *)
Definition format_segments (ending : string) (segments : list string) : string :=
  fold_left (fun formatted_text text => formatted_text +:+ (Str.strip text +:+ ending))
            segments EmptyString.

Definition audio_path_of (video_path : string) : string :=
  let base_name := Str.splitext_root (Str.basename video_path) in
  "temp_audio_" +:+ base_name +:+ ".wav".

(** ["reshape tensor" in str(e) or "Linear" in str(e)] *)
Definition is_shape_error (e : Exn) : bool :=
  Str.contains "reshape tensor" e || Str.contains "Linear" e.

(** The [try] block of lines 75-90, entered for a shape error. *)
Definition transcribe_fallback (audio_path : string) : M (option string) :=
  try_except
    (whisper_load_base;;
     segments ← base_model_transcribe audio_path;
     let formatted_text := format_segments (nl +:+ nl) segments in
     os_remove audio_path;;
     mret (Some formatted_text))
    (fun e2 => os_remove audio_path;; mret None).

(** The [try] block of lines 58-94, entered when the audio file is there
    and not empty. *)
Definition transcribe_primary (audio_path : string) : M (option string) :=
  try_except
    (segments ← model_transcribe audio_path;
     let formatted_text := format_segments nl segments in
     os_remove audio_path;;
     mret (Some formatted_text))
    (fun e =>
       if is_shape_error e then transcribe_fallback audio_path
       else os_remove audio_path;; mret None).

Definition transcribe_with_ffmpeg_preprocessing (video_path : string) : M (option string) :=
  let audio_path := audio_path_of video_path in
  try_except
    (run_ffmpeg video_path audio_path;;
     created ← exists_nonempty audio_path;
     if created : bool then transcribe_primary audio_path
     else mret None)
    (fun e =>
       ex ← path_exists audio_path;
       if ex : bool then os_remove audio_path;; mret None
       else mret None).

(** ** [download_video] (lines 105-129) *)

Definition max_retries : Z := 3.

Definition temp_video_of (file_name : string) : string := "temp_" +:+ file_name.

Definition fetch_to (file_id temp_video : string) (attempt : Z) : M unit :=
  emit (EvDownloadAttempt file_id temp_video);;
  match drive_fetch env file_id attempt with
  | FetchOpenError e => raise e
  | FetchChunkError partial e => write_file temp_video partial;; raise e
  | FetchOk content => write_file temp_video content
  end.

Definition sleep (seconds : Z) : M unit := emit (EvSleep seconds).

(** The [while retry_count < max_retries] loop, by recursion on
    [max_retries - retry_count].  Leaving the loop through its condition
    makes the function return [None]. *)
Fixpoint download_loop (remaining : nat) (file_id temp_video : string) : M (option string) :=
  match remaining with
  | O => mret None
  | S remaining' =>
      let retry_count := max_retries - Z.of_nat remaining in
      try_except
        (fetch_to file_id temp_video retry_count;; mret (Some temp_video))
        (fun e =>
           let retry_count := retry_count + 1 in
           if retry_count <? max_retries then
             let wait_time := 2 ^ retry_count in
             sleep wait_time;;
             download_loop remaining' file_id temp_video
           else raise e)
  end.

Definition download_video (file_id file_name : string) : M (option string) :=
  let temp_video := temp_video_of file_name in
  download_loop (Z.to_nat max_retries) file_id temp_video.

(** ** [transcribe_multiple_videos] (lines 131-185) *)

(** [min(os.cpu_count() - 1 or 1, 3)]; subtracting from [None] raises, and
    [ThreadPoolExecutor] refuses a number of workers that is not positive. *)
Definition max_workers : M Z :=
  match cpu_count env with
  | None => raise "TypeError"
  | Some n => mret (Z.min (if n - 1 =? 0 then 1 else n - 1) 3)
  end.

(** [if text:] on a value that is [None] or a string. *)
Definition truthy (text : option string) : bool :=
  match text with
  | Some t => negb (Str.is_empty t)
  | None => false
  end.

Definition transcribe_with_progress (video_path : string) : M (string * option string) :=
  try_except
    (ok ← exists_nonempty video_path;
     if ok : bool then
       text ← transcribe_with_ffmpeg_preprocessing video_path;
       if truthy text then mret (video_path, text)
       else mret (video_path, None)
     else mret (video_path, None))
    (fun e => mret (video_path, None)).

(** The pool is run on the schedule that takes the submitted paths one
    after the other; the result is a mapping, so the order of completion
    only shows in the trace. *)
Definition collect_result (results : gmap string string) (video_path : string)
  : M (gmap string string) :=
  '(path, text) ← transcribe_with_progress video_path;
  match text with
  | Some t => mret (<[path := t]> results)
  | None => mret results
  end.

Definition transcribe_multiple_videos (video_paths : list string) : M (gmap string string) :=
  workers ← max_workers;
  if workers <=? 0 then raise "ValueError"
  else foldM collect_result video_paths ∅.

(** ** [process_transcribed_video] (lines 283-300) *)

Definition txt_name_of (video_name : string) : string := video_name +:+ "_transcript.txt".

Definition write_transcript (txt_name transcription : string) : M unit :=
  match artifact_write env txt_name with
  | WriteDone => write_file txt_name transcription;; emit (EvArtifactWritten txt_name)
  | WriteOpenError e => raise e
  | WriteCutShort written e => write_file txt_name written;; raise e
  end.

Definition find_one (subject video_name : string) : M bool := fun w =>
  match find_error env subject video_name with
  | Some e => (Raise e, w)
  | None => (Ok (has_record (store w) subject video_name), w)
  end.

Definition insert_one (subject video_name : string) : M unit :=
  emit (EvInsertIssued subject video_name);;
  match insert_error env subject video_name with
  | Some e => raise e
  | None => fun w => (Ok tt, set_store (fun s => s ++ [(subject, video_name)]) w)
  end.

(** The two effects of the [try] block, in program order. *)
Definition persist_steps (subject : string) (file : DriveFile) (transcription : string)
  : list (M unit) :=
  let video_name := file_name file in
  let txt_name := txt_name_of video_name in
  [ write_transcript txt_name transcription; insert_one subject video_name ].

Definition run_steps (steps : list (M unit)) : M unit :=
  for_each steps (fun step => step).

Definition process_transcribed_video (subject : string) (file : DriveFile)
    (temp_video transcription : string) : M unit :=
  try_except (run_steps (persist_steps subject file transcription))
             (fun e => mret tt).

(** ** [process_subject] (lines 187-281) *)

(** The value stored under a video name in [downloaded_videos]:
    [{'file': file, 'temp_path': temp_path}]. *)
Definition Info : Type := DriveFile * string.

Definition info_file (info : Info) : DriveFile := fst info.
Definition temp_path (info : Info) : string := snd info.

Definition config_folder (subject : string) : M string :=
  match recording_folder env subject with
  | Some folder => mret folder
  | None => raise "KeyError"
  end.

Definition list_files (recording_folder_id : string) : M (list DriveFile) :=
  emit (EvListing recording_folder_id);; await (drive_list env recording_folder_id).

Definition filter_step (subject : string) (unprocessed_files : list DriveFile)
    (file : DriveFile) : M (list DriveFile) :=
  found ← find_one subject (file_name file);
  if found : bool then emit (EvSkipping (file_name file));; mret unprocessed_files
  else mret (unprocessed_files ++ [file]).

Fixpoint mapM {A B} (f : A -> M B) (l : list A) : M (list B) :=
  match l with
  | [] => mret []
  | x :: r => y ← f x; ys ← mapM f r; mret (y :: ys)
  end.

(** [asyncio.create_task(download_video(...))]: the downloads of a subject
    are run one after the other, each to completion, before the first of
    them is awaited. *)
Definition start_download (file : DriveFile) : M (DriveFile * Res (option string)) :=
  task ← run_task (download_video (file_id file) (file_name file));
  mret (file, task).

Definition collect_download (downloaded_videos : list (string * Info))
    (entry : DriveFile * Res (option string)) : M (list (string * Info)) :=
  let file := fst entry in
  try_except
    (result ← await (snd entry);
     match result with
     | None => raise "TypeError"
     | Some temp_path =>
         ok ← exists_nonempty temp_path;
         if ok : bool
         then mret (dict_set (file_name file) (file, temp_path) downloaded_videos)
         else mret downloaded_videos
     end)
    (fun e => mret downloaded_videos).

Definition remove_if_exists (path : string) : M unit :=
  ex ← path_exists path;
  if ex : bool then os_remove path else mret tt.

Definition cleanup (downloaded_videos : list (string * Info)) : M unit :=
  for_each downloaded_videos (fun item => remove_if_exists (temp_path (snd item))).

(** One round of the loop that creates [process_tasks];
    [gather(..., return_exceptions=True)] keeps whatever a task raises. *)
Definition persist_task (subject : string) (transcriptions : gmap string string)
    (item : string * Info) : M unit :=
  let info := snd item in
  match transcriptions !! temp_path info with
  | Some transcription =>
      run_task (process_transcribed_video subject (info_file info)
                                          (temp_path info) transcription);;
      mret tt
  | None => mret tt
  end.

Definition process_subject_body (subject : string) : M unit :=
  recording_folder_id ← config_folder subject;
  files ← list_files recording_folder_id;
  if is_nil files then emit (EvLog (NoVideosFound subject))
  else
    unprocessed_files ← foldM (filter_step subject) files [];
    if is_nil unprocessed_files then emit (EvLog (NoUnprocessedVideos subject))
    else
      download_tasks ← mapM start_download unprocessed_files;
      downloaded_videos ← foldM collect_download download_tasks [];
      if is_nil downloaded_videos then emit (EvLog (NoVideosDownloaded subject))
      else
        let video_paths := map (fun item => temp_path (snd item)) downloaded_videos in
        transcriptions ← transcribe_multiple_videos video_paths;
        if bool_decide (transcriptions = ∅) then
          emit (EvLog (NoSuccessfulTranscriptions subject));;
          cleanup downloaded_videos
        else
          for_each downloaded_videos (persist_task subject transcriptions);;
          cleanup downloaded_videos;;
          emit (EvLog (CompletedSubject subject)).

Definition process_subject (subject : string) : M unit :=
  try_except (process_subject_body subject)
             (fun e => emit (EvLog (ErrorProcessingSubject subject e))).

(** ** [main] (lines 302-306) *)

(** [asyncio.gather] over the subjects' tasks: every task is run; the first exception among
    the outcomes, if any, is raised to the caller.  The subjects are run one
    after the other, in the order of the configuration. *)
Definition gather {A} (tasks : list (M A)) : M (list A) :=
  outcomes ← mapM run_task tasks;
  mapM await outcomes.

Definition main : M unit :=
  gather (map process_subject (subjects env));;
  emit (EvLog ScriptCompleted).

End Pipeline.

(** ** A sample environment *)

Definition lec1 : DriveFile := mkFile "id1" "lec1.mp4".
Definition lec2 : DriveFile := mkFile "id2" "lec2.mp4".

Definition sample_env : Env := {|
  subjects := ["math"; "physics"];
  recording_folder := fun s => Some ("folder_" +:+ s);
  drive_list := fun f =>
    if String.eqb f "folder_math" then Ok [lec1; lec2]
    else if String.eqb f "folder_physics" then Ok [lec1] else Raise "HttpError 404";
  drive_fetch := fun id n => FetchOk "video-bytes";
  find_error := fun _ _ => None;
  insert_error := fun _ _ => None;
  artifact_write := fun _ => WriteDone;
  ffmpeg := fun _ => ExtractOk (Some "pcm");
  primary_model := fun _ => Ok [" Hello there. "; " Second segment."];
  load_base_model := None;
  base_model := fun _ => Ok ["fallback text"];
  cpu_count := Some 8
|}.

Definition empty_world : World := mkWorld ∅ [] [].

(** The transcript text as the specification words it: the stripped segment
    texts, each followed by [ending]. *)
Definition joined_segments (ending : string) (segments : list string) : string :=
  String.concat EmptyString (map (fun text => Str.strip text +:+ ending) segments).

Definition ends_with_space (s : string) : bool :=
  match String.get (String.length s - 1) s with
  | Some c => Str.isspace c
  | None => false
  end.

Definition starts_with_space (s : string) : bool :=
  match s with
  | String c _ => Str.isspace c
  | EmptyString => false
  end.

(** Observations on a trace. *)
Definition count_events (p : Event -> bool) (t : list Event) : nat :=
  length (List.filter p t).

Definition is_fallback_load (e : Event) : bool :=
  match e with EvFallbackLoad => true | _ => false end.

Definition is_fallback_call (e : Event) : bool :=
  match e with EvFallback _ => true | _ => false end.

Definition is_download (e : Event) : bool :=
  match e with EvDownloadAttempt _ _ => true | _ => false end.

Definition is_transcription (e : Event) : bool :=
  match e with
  | EvExtract _ _ | EvPrimary _ | EvFallbackLoad | EvFallback _ => true
  | _ => false
  end.

Definition sleeps (t : list Event) : list Z :=
  flat_map (fun e => match e with EvSleep s => [s] | _ => [] end) t.

(** The file system once ffmpeg has left [out] at [audio_path]. *)
Definition fs_after_extract (out : option string) (audio_path : string)
    (f : gmap string string) : gmap string string :=
  match out with
  | Some c => <[audio_path := c]> f
  | None => f
  end.

Definition after_extract (out : option string) (video_path : string) (w : World) : World :=
  mkWorld (fs_after_extract out (audio_path_of video_path) (fs w)) (store w)
          (trace w ++ [EvExtract video_path (audio_path_of video_path)]).

(** An environment in which ffmpeg exits normally and leaves a file without
    content. *)
Definition empty_audio_env : Env := {|
  subjects := subjects sample_env;
  recording_folder := recording_folder sample_env;
  drive_list := drive_list sample_env;
  drive_fetch := drive_fetch sample_env;
  find_error := find_error sample_env;
  insert_error := insert_error sample_env;
  artifact_write := artifact_write sample_env;
  ffmpeg := fun _ => ExtractOk (Some EmptyString);
  primary_model := primary_model sample_env;
  load_base_model := load_base_model sample_env;
  base_model := base_model sample_env;
  cpu_count := cpu_count sample_env
|}.

Definition one_video_world : World :=
  mkWorld {["temp_lec1.mp4" := "video-bytes"]} [] [].

(** An environment in which the primary model fails on a tensor shape. *)
Definition shape_error_env : Env := {|
  subjects := subjects sample_env;
  recording_folder := recording_folder sample_env;
  drive_list := drive_list sample_env;
  drive_fetch := drive_fetch sample_env;
  find_error := find_error sample_env;
  insert_error := insert_error sample_env;
  artifact_write := artifact_write sample_env;
  ffmpeg := ffmpeg sample_env;
  primary_model := fun _ => Raise "cannot reshape tensor of 0 elements into shape [1, 0, 6, -1]";
  load_base_model := load_base_model sample_env;
  base_model := fun _ => Ok [" first part "; "second part"];
  cpu_count := cpu_count sample_env
|}.

(** The exception of a download attempt, if it fails. *)
Definition fetch_error (env : Env) (file_id : string) (attempt : Z) : option Exn :=
  match drive_fetch env file_id attempt with
  | FetchOpenError e => Some e
  | FetchChunkError _ e => Some e
  | FetchOk _ => None
  end.

(** An environment in which every download attempt times out after the
    local file was opened. *)
Definition failing_download_env : Env := {|
  subjects := ["math"];
  recording_folder := recording_folder sample_env;
  drive_list := fun _ => Ok [lec1];
  drive_fetch := fun _ n => FetchChunkError EmptyString "timed out";
  find_error := find_error sample_env;
  insert_error := insert_error sample_env;
  artifact_write := artifact_write sample_env;
  ffmpeg := ffmpeg sample_env;
  primary_model := primary_model sample_env;
  load_base_model := load_base_model sample_env;
  base_model := base_model sample_env;
  cpu_count := cpu_count sample_env
|}.

(** An environment in which the primary model finds no speech: it returns
    no segment at all. *)
Definition silent_env : Env := {|
  subjects := ["math"];
  recording_folder := recording_folder sample_env;
  drive_list := fun _ => Ok [lec1];
  drive_fetch := drive_fetch sample_env;
  find_error := find_error sample_env;
  insert_error := insert_error sample_env;
  artifact_write := artifact_write sample_env;
  ffmpeg := ffmpeg sample_env;
  primary_model := fun _ => Ok [];
  load_base_model := load_base_model sample_env;
  base_model := base_model sample_env;
  cpu_count := cpu_count sample_env
|}.

(** What [transcribe_multiple_videos] does with the text of one video. *)
Definition kept_text (text : option string) (path : string)
    (results : gmap string string) : gmap string string :=
  match text with
  | Some t => if Str.is_empty t then results else <[path := t]> results
  | None => results
  end.

(** A computation that only appends to the trace and does not look at it:
    started with trace [t], it does what it does from the empty trace, with
    [t] in front of its events. *)
Definition Logs {A} (m : M A) : Prop :=
  forall f s t,
    m (mkWorld f s t)
    = (fst (m (mkWorld f s [])),
       mkWorld (fs (snd (m (mkWorld f s [])))) (store (snd (m (mkWorld f s []))))
               (t ++ trace (snd (m (mkWorld f s []))))).

(** The subject whose run a log line closes. *)
Definition terminal_subject (msg : LogMsg) : option string :=
  match msg with
  | NoVideosFound s | NoUnprocessedVideos s | NoVideosDownloaded s
  | NoSuccessfulTranscriptions s | CompletedSubject s | ErrorProcessingSubject s _ => Some s
  | ScriptCompleted => None
  end.

(** Neither a download nor a step of a transcription. *)
Definition quiet (e : Event) : bool := negb (is_download e || is_transcription e).

(** The same environment with another list of configured subjects. *)
Definition set_subjects (l : list string) (env : Env) : Env := {|
  subjects := l;
  recording_folder := recording_folder env;
  drive_list := drive_list env;
  drive_fetch := drive_fetch env;
  find_error := find_error env;
  insert_error := insert_error env;
  artifact_write := artifact_write env;
  ffmpeg := ffmpeg env;
  primary_model := primary_model env;
  load_base_model := load_base_model env;
  base_model := base_model env;
  cpu_count := cpu_count env
|}.

(** The world after the runs of the subjects [l], one after the other. *)
Definition run_all (env : Env) (l : list string) (w : World) : World :=
  fold_left (fun w subject => snd (process_subject env subject w)) l w.

(** An environment in which the listing of the second of three subjects
    fails. *)
Definition broken_listing_env : Env := {|
  subjects := ["math"; "physics"; "history"];
  recording_folder := recording_folder sample_env;
  drive_list := fun f =>
    if String.eqb f "folder_math" then Ok [lec1]
    else if String.eqb f "folder_history" then Ok [lec2]
    else Raise "HttpError 500";
  drive_fetch := drive_fetch sample_env;
  find_error := find_error sample_env;
  insert_error := insert_error sample_env;
  artifact_write := artifact_write sample_env;
  ffmpeg := ffmpeg sample_env;
  primary_model := primary_model sample_env;
  load_base_model := load_base_model sample_env;
  base_model := base_model sample_env;
  cpu_count := cpu_count sample_env
|}.

Definition all_quiet (events : list Event) : Prop :=
  Forall (fun e => quiet e = true) events.

(** An environment in which [os.cpu_count()] cannot tell the number of
    processors. *)
Definition no_cpu_count_env : Env := {|
  subjects := ["math"];
  recording_folder := recording_folder sample_env;
  drive_list := fun _ => Ok [lec1];
  drive_fetch := drive_fetch sample_env;
  find_error := find_error sample_env;
  insert_error := insert_error sample_env;
  artifact_write := artifact_write sample_env;
  ffmpeg := ffmpeg sample_env;
  primary_model := primary_model sample_env;
  load_base_model := load_base_model sample_env;
  base_model := base_model sample_env;
  cpu_count := None
|}.

(** The number of line breaks in a text. *)
Fixpoint count_line_breaks (s : string) : nat :=
  match s with
  | EmptyString => O
  | String c r => ((if Ascii.eqb c (ascii_of_nat 10) then 1 else 0) + count_line_breaks r)%nat
  end.

(** An environment in which only [math] has a folder, and the folder is
    empty. *)
Definition partly_configured_env : Env := {|
  subjects := ["math"; "art"];
  recording_folder := fun s => if String.eqb s "math" then Some "folder_math" else None;
  drive_list := fun _ => Ok [];
  drive_fetch := drive_fetch sample_env;
  find_error := find_error sample_env;
  insert_error := insert_error sample_env;
  artifact_write := artifact_write sample_env;
  ffmpeg := ffmpeg sample_env;
  primary_model := primary_model sample_env;
  load_base_model := load_base_model sample_env;
  base_model := base_model sample_env;
  cpu_count := cpu_count sample_env
|}.

(** ** Footprints *)

(** What a stretch of a run is allowed to do: the events it may add to the
    trace, the records it may insert, and the paths it may create, change or
    remove. *)
Record Footprint := mkFootprint {
  may_emit : Event -> Prop;
  may_insert : string * string -> Prop;
  may_touch : string -> Prop
}.

(** [w'] is reached from [w] by steps inside the footprint: the trace and
    the store have only grown, by events and records that are allowed, and
    every path outside of [may_touch] holds what it held. *)
Definition within (F : Footprint) (w w' : World) : Prop :=
  (exists added, trace w' = trace w ++ added /\ Forall (may_emit F) added)
  /\ (exists records, store w' = store w ++ records /\ Forall (may_insert F) records)
  /\ (forall p, ~ may_touch F p -> fs w' !! p = fs w !! p).

Definition Within (F : Footprint) {A} (m : M A) : Prop :=
  forall w, within F w (snd (m w)).

(** The same footprint without the right to insert. *)
Definition no_insert (F : Footprint) : Footprint :=
  mkFootprint (may_emit F) (fun _ => False) (may_touch F).

(** The videos that the drive lists for a subject ([[]] when the subject has
    no folder or the listing fails), and those among them that have no record
    in a store. *)
Definition listed (env : Env) (subject : string) : list DriveFile :=
  match recording_folder env subject with
  | Some folder =>
      match drive_list env folder with
      | Ok files => files
      | Raise _ => []
      end
  | None => []
  end.

Definition pending (env : Env) (subject : string) (records : list (string * string))
    (file : DriveFile) : Prop :=
  In file (listed env subject)
  /\ has_record records subject (file_name file) = false.

(** The three files that the script makes for a video. *)
Definition video_path (file : DriveFile) (p : string) : Prop :=
  p = temp_video_of (file_name file)
  \/ p = audio_path_of (temp_video_of (file_name file))
  \/ p = txt_name_of (file_name file).

(** The footprint of the run of [subject] from a store [records]: downloads,
    extractions, transcript files, inserts and removals only for videos that
    are pending, and log lines only about this subject. *)
Definition subject_footprint (env : Env) (subject : string)
    (records : list (string * string)) : Footprint := {|
  may_emit := fun e =>
    match e with
    | EvDownloadAttempt id p =>
        exists f, pending env subject records f
                  /\ id = file_id f /\ p = temp_video_of (file_name f)
    | EvExtract v a =>
        exists f, pending env subject records f
                  /\ v = temp_video_of (file_name f) /\ a = audio_path_of v
    | EvArtifactWritten txt =>
        exists f, pending env subject records f /\ txt = txt_name_of (file_name f)
    | EvInsertIssued s n =>
        s = subject /\ exists f, pending env subject records f /\ n = file_name f
    | EvRemove p => exists f, pending env subject records f /\ video_path f p
    | EvLog msg => terminal_subject msg = Some subject
    | EvListing folder => recording_folder env subject = Some folder
    | EvSkipping n =>
        exists f, In f (listed env subject) /\ n = file_name f
                  /\ has_record records subject n = true
    | EvSleep seconds => seconds = 2 \/ seconds = 4
    | EvPrimary _ | EvFallbackLoad | EvFallback _ => True
    end;
  may_insert := fun d =>
    exists f, pending env subject records f /\ d = (subject, file_name f);
  may_touch := fun p => exists f, pending env subject records f /\ video_path f p
|}.

(** What holds of [downloaded_videos] while it is built from the files [l]:
    no name occurs twice, every entry is stored under the name of its file,
    the file is one of [l], and the path is the temp path of that name. *)
Definition dv_ok (l : list DriveFile) (downloaded_videos : list (string * Info)) : Prop :=
  NoDup (map fst downloaded_videos)
  /\ forall item, In item downloaded_videos ->
       fst item = file_name (info_file (snd item))
       /\ temp_path (snd item) = temp_video_of (fst item)
       /\ In (info_file (snd item)) l.

(** What a run of [subject] from [w0] to [w'] has to satisfy: it stays
    inside the footprint of the subject, and the records it has added are all
    different. *)
Definition subject_run_ok (env : Env) (subject : string) (w0 w' : World) : Prop :=
  within (subject_footprint env subject (store w0)) w0 w'
  /\ exists records, store w' = store w0 ++ records /\ NoDup records.

(** An environment with one subject and one video, in which every step
    succeeds. *)
Definition one_video_env : Env := {|
  subjects := ["math"];
  recording_folder := recording_folder sample_env;
  drive_list := fun _ => Ok [lec1];
  drive_fetch := drive_fetch sample_env;
  find_error := find_error sample_env;
  insert_error := insert_error sample_env;
  artifact_write := artifact_write sample_env;
  ffmpeg := ffmpeg sample_env;
  primary_model := primary_model sample_env;
  load_base_model := load_base_model sample_env;
  base_model := base_model sample_env;
  cpu_count := cpu_count sample_env
|}.

(** An environment in which the store cannot be reached. *)
Definition store_down_env : Env := {|
  subjects := ["math"];
  recording_folder := recording_folder sample_env;
  drive_list := fun _ => Ok [lec1; lec2];
  drive_fetch := drive_fetch sample_env;
  find_error := fun _ _ => Some "ServerSelectionTimeoutError";
  insert_error := insert_error sample_env;
  artifact_write := artifact_write sample_env;
  ffmpeg := ffmpeg sample_env;
  primary_model := primary_model sample_env;
  load_base_model := load_base_model sample_env;
  base_model := base_model sample_env;
  cpu_count := cpu_count sample_env
|}.

(** * Properties *)

(** ** Strings *)

Example basename_of_path : Str.basename "dir/temp_lec.1.mp4" = "temp_lec.1.mp4".
Proof. reflexivity. Qed.

Example splitext_cuts_last_dot : Str.splitext_root "temp_lec.1.mp4" = "temp_lec.1".
Proof. reflexivity. Qed.

Example splitext_keeps_leading_dots : Str.splitext_root "..hidden" = "..hidden".
Proof. reflexivity. Qed.

Example audio_path_of_temp_video : audio_path_of "temp_lec1.mp4" = "temp_audio_temp_lec1.wav".
Proof. reflexivity. Qed.

Example strip_both_ends :
  Str.strip (" " +:+ nl +:+ " Hello  world " +:+ nl) = "Hello  world".
Proof. reflexivity. Qed.

Example shape_markers :
  is_shape_error "mat1 and mat2 shapes cannot be multiplied in Linear" = true
  /\ is_shape_error "cannot reshape tensor of 0 elements" = true
  /\ is_shape_error "CUDA out of memory" = false.
Proof. repeat split. Qed.

Example workers_of_cpu_count :
  fst (max_workers sample_env empty_world) = Ok 3
  /\ fst (max_workers (set_subjects [] no_cpu_count_env) empty_world) = Raise "TypeError".
Proof. split; reflexivity. Qed.

Lemma append_empty_r (s : string) : s +:+ EmptyString = s.
Proof.
  induction s as [|c s IH]; [reflexivity|].
  change (String c (s +:+ EmptyString) = String c s). now rewrite IH.
Qed.

Lemma append_assoc (a b c : string) : (a +:+ b) +:+ c = a +:+ (b +:+ c).
Proof.
  induction a as [|x a IH]; [reflexivity|].
  change (String x ((a +:+ b) +:+ c) = String x (a +:+ (b +:+ c))). now rewrite IH.
Qed.

Lemma lstrip_no_leading_space (s : string) : starts_with_space (Str.lstrip s) = false.
Proof.
  induction s as [|c s IH]; simpl; [reflexivity|].
  destruct (Str.isspace c) eqn:Hc; [exact IH | simpl; exact Hc].
Qed.

Lemma rstrip_keeps_head (s : string) :
  starts_with_space s = false -> starts_with_space (Str.rstrip s) = false.
Proof.
  destruct s as [|c s]; simpl; [reflexivity|].
  intros Hc. rewrite Hc. simpl. exact Hc.
Qed.

Lemma rstrip_no_trailing_space (s : string) : ends_with_space (Str.rstrip s) = false.
Proof.
  induction s as [|c s IH]; [reflexivity|].
  simpl. destruct (Str.isspace c && Str.is_empty (Str.rstrip s)) eqn:Hcut; [reflexivity|].
  unfold ends_with_space in *. simpl String.length.
  destruct (Str.rstrip s) as [|d r] eqn:Hr.
  - simpl in Hcut. rewrite andb_true_r in Hcut. simpl. exact Hcut.
  - simpl String.length in *. simpl Nat.sub in *.
    rewrite Nat.sub_0_r in *. exact IH.
Qed.

Lemma strip_clean (s : string) :
  starts_with_space (Str.strip s) = false /\ ends_with_space (Str.strip s) = false.
Proof.
  unfold Str.strip. split.
  - apply rstrip_keeps_head, lstrip_no_leading_space.
  - apply rstrip_no_trailing_space.
Qed.

Lemma concat_empty_cons (x : string) (xs : list string) :
  String.concat EmptyString (x :: xs) = x +:+ String.concat EmptyString xs.
Proof.
  destruct xs as [|y ys]; [simpl; now rewrite append_empty_r | reflexivity].
Qed.

Lemma fold_format_acc (ending : string) (segments : list string) (acc : string) :
  fold_left (fun formatted_text text => formatted_text +:+ (Str.strip text +:+ ending))
            segments acc
  = acc +:+ joined_segments ending segments.
Proof.
  revert acc. induction segments as [|t segs IH]; intros acc.
  - simpl. now rewrite append_empty_r.
  - cbn [fold_left]. rewrite IH. unfold joined_segments.
    cbn [map]. rewrite concat_empty_cons. now rewrite !append_assoc.
Qed.

Lemma format_segments_joined (ending : string) (segments : list string) :
  format_segments ending segments = joined_segments ending segments.
Proof. unfold format_segments. now rewrite fold_format_acc. Qed.

(** ** Running the monad *)

Ltac unfold_monad :=
  unfold try_except, await, raise, emit, mbind, M_bind, mret, M_ret.

Ltac unfold_fs :=
  unfold exists_nonempty, path_exists, getsize, os_remove, write_file,
         remove_if_exists, set_fs, set_trace, set_store.

Lemma bind_ok {A B} (m : M A) (k : A -> M B) (w w' : World) (x : A) :
  m w = (Ok x, w') -> (m ≫= k) w = k x w'.
Proof. intros H. unfold mbind, M_bind. now rewrite H. Qed.

Lemma bind_raise {A B} (m : M A) (k : A -> M B) (w w' : World) (e : Exn) :
  m w = (Raise e, w') -> (m ≫= k) w = (Raise e, w').
Proof. intros H. unfold mbind, M_bind. now rewrite H. Qed.

Lemma try_ok {A} (m : M A) (h : Exn -> M A) (w w' : World) (x : A) :
  m w = (Ok x, w') -> try_except m h w = (Ok x, w').
Proof. intros H. unfold try_except. now rewrite H. Qed.

Lemma try_raise {A} (m : M A) (h : Exn -> M A) (w w' : World) (e : Exn) :
  m w = (Raise e, w') -> try_except m h w = h e w'.
Proof. intros H. unfold try_except. now rewrite H. Qed.

Lemma exists_nonempty_some (p c : string) (w : World) :
  fs w !! p = Some c -> exists_nonempty p w = (Ok (negb (Str.is_empty c)), w).
Proof.
  intros H. unfold exists_nonempty, path_exists, getsize. unfold_monad.
  rewrite H. cbn. rewrite H. destruct c; reflexivity.
Qed.

Lemma exists_nonempty_none (p : string) (w : World) :
  fs w !! p = None -> exists_nonempty p w = (Ok false, w).
Proof.
  intros H. unfold exists_nonempty, path_exists. unfold_monad. now rewrite H.
Qed.

Lemma os_remove_some (p c : string) (w : World) :
  fs w !! p = Some c ->
  os_remove p w = (Ok tt, mkWorld (delete p (fs w)) (store w) (trace w ++ [EvRemove p])).
Proof. intros H. unfold os_remove. now rewrite H. Qed.

Lemma remove_if_exists_some (p c : string) (w : World) :
  fs w !! p = Some c ->
  remove_if_exists p w
  = (Ok tt, mkWorld (delete p (fs w)) (store w) (trace w ++ [EvRemove p])).
Proof.
  intros H. unfold remove_if_exists, path_exists. unfold_monad. rewrite H.
  now apply os_remove_some with c.
Qed.

Lemma remove_if_exists_none (p : string) (w : World) :
  fs w !! p = None -> remove_if_exists p w = (Ok tt, w).
Proof. intros H. unfold remove_if_exists, path_exists. unfold_monad. now rewrite H. Qed.

(** ** The transcriber, path by path *)

Lemma delete_after_write (f : gmap string string) (p c : string) :
  delete p (<[p := c]> f) = delete p f.
Proof. apply delete_insert_eq. Qed.

Lemma nonempty_size (c : string) :
  Str.is_empty c = false -> (0 <? Z.of_nat (String.length c)) = true.
Proof. destruct c; [discriminate | intros _; apply Z.ltb_lt; simpl; lia]. Qed.

Section TranscriberPaths.

Context (env : Env) (a : string) (w : World) (c : string).
Hypothesis Hfile : fs w !! a = Some c.

Lemma primary_success (segments : list string) :
  primary_model env a = Ok segments ->
  transcribe_primary env a w
  = (Ok (Some (format_segments nl segments)),
     mkWorld (delete a (fs w)) (store w) (trace w ++ [EvPrimary a; EvRemove a])).
Proof using Hfile.
  intros Hp. unfold transcribe_primary, model_transcribe.
  unfold_monad. unfold_fs. cbn. rewrite Hp. cbn. rewrite Hfile. cbn.
  now rewrite <- app_assoc.
Qed.

Lemma primary_other_error (e : Exn) :
  primary_model env a = Raise e -> is_shape_error e = false ->
  transcribe_primary env a w
  = (Ok None,
     mkWorld (delete a (fs w)) (store w) (trace w ++ [EvPrimary a; EvRemove a])).
Proof using Hfile.
  intros Hp He. unfold transcribe_primary, model_transcribe.
  unfold_monad. unfold_fs. cbn. rewrite Hp. cbn. rewrite He. cbn. rewrite Hfile. cbn.
  now rewrite <- app_assoc.
Qed.

Lemma fallback_load_failure (e e2 : Exn) :
  primary_model env a = Raise e -> is_shape_error e = true ->
  load_base_model env = Some e2 ->
  transcribe_primary env a w
  = (Ok None,
     mkWorld (delete a (fs w)) (store w)
             (trace w ++ [EvPrimary a; EvFallbackLoad; EvRemove a])).
Proof using Hfile.
  intros Hp He Hl.
  unfold transcribe_primary, transcribe_fallback, model_transcribe, whisper_load_base.
  unfold_monad. unfold_fs. cbn. rewrite Hp. cbn. rewrite He. cbn. rewrite Hl. cbn. rewrite Hfile. cbn.
  now rewrite <- !app_assoc.
Qed.

Lemma fallback_failure (e e2 : Exn) :
  primary_model env a = Raise e -> is_shape_error e = true ->
  load_base_model env = None -> base_model env a = Raise e2 ->
  transcribe_primary env a w
  = (Ok None,
     mkWorld (delete a (fs w)) (store w)
             (trace w ++ [EvPrimary a; EvFallbackLoad; EvFallback a; EvRemove a])).
Proof using Hfile.
  intros Hp He Hl Hb.
  unfold transcribe_primary, transcribe_fallback, model_transcribe, whisper_load_base,
         base_model_transcribe.
  unfold_monad. unfold_fs. cbn. rewrite Hp. cbn. rewrite He. cbn. rewrite Hl. cbn. rewrite Hb. cbn.
  rewrite Hfile. cbn. now rewrite <- !app_assoc.
Qed.

Lemma fallback_success (e : Exn) (segments : list string) :
  primary_model env a = Raise e -> is_shape_error e = true ->
  load_base_model env = None -> base_model env a = Ok segments ->
  transcribe_primary env a w
  = (Ok (Some (format_segments (nl +:+ nl) segments)),
     mkWorld (delete a (fs w)) (store w)
             (trace w ++ [EvPrimary a; EvFallbackLoad; EvFallback a; EvRemove a])).
Proof using Hfile.
  intros Hp He Hl Hb.
  unfold transcribe_primary, transcribe_fallback, model_transcribe, whisper_load_base,
         base_model_transcribe.
  unfold_monad. unfold_fs. cbn. rewrite Hp. cbn. rewrite He. cbn. rewrite Hl. cbn. rewrite Hb. cbn.
  rewrite Hfile. cbn. now rewrite <- !app_assoc.
Qed.

End TranscriberPaths.

Lemma primary_total (env : Env) (a : string) (w : World) (c : string) :
  fs w !! a = Some c ->
  exists r w', transcribe_primary env a w = (Ok r, w')
               /\ fs w' = delete a (fs w) /\ store w' = store w.
Proof.
  intros Hfile.
  destruct (primary_model env a) as [segs|e] eqn:Hp.
  { eexists _, _. split; [eapply primary_success; eauto | split; reflexivity]. }
  destruct (is_shape_error e) eqn:He.
  2:{ eexists _, _. split; [eapply primary_other_error; eauto | split; reflexivity]. }
  destruct (load_base_model env) as [e2|] eqn:Hl.
  { eexists _, _. split; [eapply fallback_load_failure; eauto | split; reflexivity]. }
  destruct (base_model env a) as [segs|e2] eqn:Hb.
  - eexists _, _. split; [eapply fallback_success; eauto | split; reflexivity].
  - eexists _, _. split; [eapply fallback_failure; eauto | split; reflexivity].
Qed.

Lemma run_ffmpeg_ok (env : Env) (v : string) (w : World) (out : option string) :
  ffmpeg env v = ExtractOk out ->
  run_ffmpeg env v (audio_path_of v) w = (Ok tt, after_extract out v w).
Proof.
  intros Hf. unfold run_ffmpeg, leave_output. unfold_monad. cbn. rewrite Hf.
  destruct out; reflexivity.
Qed.

Lemma run_ffmpeg_error (env : Env) (v : string) (w : World) (out : option string) (e : Exn) :
  ffmpeg env v = ExtractError out e ->
  run_ffmpeg env v (audio_path_of v) w = (Raise e, after_extract out v w).
Proof.
  intros Hf. unfold run_ffmpeg, leave_output. unfold_monad. cbn. rewrite Hf.
  destruct out; reflexivity.
Qed.

Lemma transcribe_extract_ok (env : Env) (v : string) (w : World)
    (out : option string) (c : string) :
  ffmpeg env v = ExtractOk out ->
  fs (after_extract out v w) !! audio_path_of v = Some c ->
  Str.is_empty c = false ->
  transcribe_with_ffmpeg_preprocessing env v w
  = transcribe_primary env (audio_path_of v) (after_extract out v w).
Proof.
  intros Hf Hfile Hc.
  destruct (primary_total env _ _ _ Hfile) as (r & w' & Hrun & _).
  unfold transcribe_with_ffmpeg_preprocessing.
  rewrite Hrun. apply try_ok.
  erewrite bind_ok by (apply run_ffmpeg_ok; eassumption).
  erewrite bind_ok by (apply exists_nonempty_some; eassumption).
  rewrite Hc. exact Hrun.
Qed.

Lemma transcribe_extract_none (env : Env) (v : string) (w : World) (out : option string) :
  ffmpeg env v = ExtractOk out ->
  fs (after_extract out v w) !! audio_path_of v = None ->
  transcribe_with_ffmpeg_preprocessing env v w = (Ok None, after_extract out v w).
Proof.
  intros Hf Hfile. unfold transcribe_with_ffmpeg_preprocessing. apply try_ok.
  erewrite bind_ok by (apply run_ffmpeg_ok; eassumption).
  erewrite bind_ok by (apply exists_nonempty_none; eassumption).
  reflexivity.
Qed.

Lemma transcribe_extract_empty (env : Env) (v : string) (w : World) (out : option string) :
  ffmpeg env v = ExtractOk out ->
  fs (after_extract out v w) !! audio_path_of v = Some EmptyString ->
  transcribe_with_ffmpeg_preprocessing env v w = (Ok None, after_extract out v w).
Proof.
  intros Hf Hfile. unfold transcribe_with_ffmpeg_preprocessing. apply try_ok.
  erewrite bind_ok by (apply run_ffmpeg_ok; eassumption).
  erewrite bind_ok by (apply exists_nonempty_some; eassumption).
  reflexivity.
Qed.

Lemma transcribe_extract_error (env : Env) (v : string) (w : World)
    (out : option string) (e : Exn) :
  ffmpeg env v = ExtractError out e ->
  transcribe_with_ffmpeg_preprocessing env v w
  = (x ← remove_if_exists (audio_path_of v); mret None) (after_extract out v w).
Proof.
  intros Hf. unfold transcribe_with_ffmpeg_preprocessing.
  erewrite try_raise by (erewrite bind_raise by (apply run_ffmpeg_error; eassumption);
                         reflexivity).
  unfold remove_if_exists, path_exists. unfold_monad.
  destruct (fs (after_extract out v w) !! audio_path_of v); reflexivity.
Qed.

(** Apart from the case of an empty file left by a normal exit of ffmpeg, no
    audio file is there when the transcriber returns. *)
Lemma audio_removed_unless_empty (env : Env) (v : string) (w : World) :
  (forall out, ffmpeg env v = ExtractOk out ->
               fs (after_extract out v w) !! audio_path_of v <> Some EmptyString) ->
  fs (snd (transcribe_with_ffmpeg_preprocessing env v w)) !! audio_path_of v = None.
Proof.
  intros Hne. destruct (ffmpeg env v) as [out|out e] eqn:Hf.
  - specialize (Hne out eq_refl).
    destruct (fs (after_extract out v w) !! audio_path_of v) as [c|] eqn:Hfile.
    + destruct (Str.is_empty c) eqn:Hc.
      { destruct c; [congruence | discriminate]. }
      rewrite (transcribe_extract_ok _ _ _ _ _ Hf Hfile Hc).
      destruct (primary_total env _ _ _ Hfile) as (r & w' & -> & Hfs & _).
      cbn. rewrite Hfs. apply lookup_delete_eq.
    + now rewrite (transcribe_extract_none _ _ _ _ Hf Hfile).
  - rewrite (transcribe_extract_error _ _ _ _ _ Hf).
    destruct (fs (after_extract out v w) !! audio_path_of v) as [c|] eqn:Hfile.
    + erewrite bind_ok by (eapply remove_if_exists_some; eassumption).
      cbn. apply lookup_delete_eq.
    + erewrite bind_ok by (eapply remove_if_exists_none; eassumption).
      exact Hfile.
Qed.

(** C7, at the failing input: ffmpeg exits normally and leaves an empty
    [temp_audio_temp_lec1.wav].  The transcriber takes the branch that reports
    a failed extraction and returns [None]; the file it found empty is still
    there afterwards, although it was not there before the call. *)
Theorem empty_audio_file_is_left_behind :
  let run := transcribe_with_ffmpeg_preprocessing empty_audio_env "temp_lec1.mp4"
                                                   one_video_world in
  fs one_video_world !! "temp_audio_temp_lec1.wav" = None
  /\ fst run = Ok None
  /\ fs (snd run) !! "temp_audio_temp_lec1.wav" = Some EmptyString.
Proof. vm_compute. repeat split. Qed.

(** ** Fallback and formatting *)

Lemma count_events_app (p : Event -> bool) (t u : list Event) :
  count_events p (t ++ u) = (count_events p t + count_events p u)%nat.
Proof. unfold count_events. now rewrite List.filter_app, length_app. Qed.

(** C4.  When the primary model is reached and raises [e]: if the message of
    [e] contains "reshape tensor" or "Linear", the fallback is attempted
    exactly once (base.en is loaded once and, when it loads, asked to
    transcribe once), its segments come back stripped and each followed by a
    blank line, and a failure of the fallback gives [None]; for any other
    message nothing of the fallback runs and the result is [None]. *)
Theorem fallback_trigger (env : Env) (v : string) (w : World)
    (out : option string) (c : string) (e : Exn) :
  ffmpeg env v = ExtractOk out ->
  fs (after_extract out v w) !! audio_path_of v = Some c ->
  Str.is_empty c = false ->
  primary_model env (audio_path_of v) = Raise e ->
  let run := transcribe_with_ffmpeg_preprocessing env v w in
  let loads_before := count_events is_fallback_load (trace w) in
  let loads := count_events is_fallback_load (trace (snd run)) in
  let calls_before := count_events is_fallback_call (trace w) in
  let calls := count_events is_fallback_call (trace (snd run)) in
  if is_shape_error e then
    loads = S loads_before
    /\ match load_base_model env, base_model env (audio_path_of v) with
       | None, Ok segments =>
           calls = S calls_before
           /\ fst run = Ok (Some (joined_segments (nl +:+ nl) segments))
       | None, Raise _ => calls = S calls_before /\ fst run = Ok None
       | Some _, _ => calls = calls_before /\ fst run = Ok None
       end
  else loads = loads_before /\ calls = calls_before /\ fst run = Ok None.
Proof.
  intros Hf Hfile Hc Hp. cbv zeta.
  rewrite (transcribe_extract_ok _ _ _ _ _ Hf Hfile Hc).
  destruct (is_shape_error e) eqn:He.
  - destruct (load_base_model env) as [e2|] eqn:Hl.
    + rewrite (fallback_load_failure _ _ _ _ Hfile e e2 Hp He Hl). cbn [fst snd trace after_extract].
      rewrite !count_events_app. cbn. repeat split; lia.
    + destruct (base_model env (audio_path_of v)) as [segs|e2] eqn:Hb.
      * rewrite (fallback_success _ _ _ _ Hfile e segs Hp He Hl Hb). cbn [fst snd trace after_extract].
        rewrite !count_events_app, format_segments_joined. cbn. repeat split; lia.
      * rewrite (fallback_failure _ _ _ _ Hfile e e2 Hp He Hl Hb). cbn [fst snd trace after_extract].
        rewrite !count_events_app. cbn. repeat split; lia.
  - rewrite (primary_other_error _ _ _ _ Hfile e Hp He). cbn [fst snd trace after_extract].
    rewrite !count_events_app. cbn. repeat split; lia.
Qed.

(** C9.  When the primary model succeeds, the text returned is the stripped
    segment texts, each followed by one line break; when the fallback model
    succeeds, each is followed by a blank line.  A stripped text neither
    starts nor ends with white space, so the line break that follows a
    segment is the only one at its end. *)
Theorem transcript_formatting (env : Env) (v : string) (w : World)
    (out : option string) (c : string) :
  ffmpeg env v = ExtractOk out ->
  fs (after_extract out v w) !! audio_path_of v = Some c ->
  Str.is_empty c = false ->
  let run := transcribe_with_ffmpeg_preprocessing env v w in
  (forall segments,
      primary_model env (audio_path_of v) = Ok segments ->
      fst run = Ok (Some (joined_segments nl segments)))
  /\ (forall e segments,
         primary_model env (audio_path_of v) = Raise e ->
         is_shape_error e = true ->
         load_base_model env = None ->
         base_model env (audio_path_of v) = Ok segments ->
         fst run = Ok (Some (joined_segments (nl +:+ nl) segments)))
  /\ (forall text,
         starts_with_space (Str.strip text) = false
         /\ ends_with_space (Str.strip text) = false).
Proof.
  intros Hf Hfile Hc. cbv zeta.
  rewrite (transcribe_extract_ok _ _ _ _ _ Hf Hfile Hc).
  split; [|split].
  - intros segs Hp. rewrite (primary_success _ _ _ _ Hfile segs Hp).
    cbn. now rewrite format_segments_joined.
  - intros e segs Hp He Hl Hb.
    rewrite (fallback_success _ _ _ _ Hfile e segs Hp He Hl Hb).
    cbn. now rewrite format_segments_joined.
  - apply strip_clean.
Qed.

Lemma fallback_trigger_witness :
  fst (transcribe_with_ffmpeg_preprocessing shape_error_env "temp_lec1.mp4" one_video_world)
  = Ok (Some ("first part" +:+ nl +:+ nl +:+ "second part" +:+ nl +:+ nl)).
Proof.
  pose proof (fallback_trigger shape_error_env "temp_lec1.mp4" one_video_world
                (Some "pcm") "pcm"
                "cannot reshape tensor of 0 elements into shape [1, 0, 6, -1]") as H.
  assert (Hf : ffmpeg shape_error_env "temp_lec1.mp4" = ExtractOk (Some "pcm"))
    by reflexivity.
  assert (Hfile : fs (after_extract (Some "pcm") "temp_lec1.mp4" one_video_world)
                  !! audio_path_of "temp_lec1.mp4" = Some "pcm")
    by (vm_compute; reflexivity).
  specialize (H Hf Hfile eq_refl eq_refl).
  cbv zeta in H.
  destruct H as [_ [_ H]]. exact H.
Defined.

Lemma transcript_formatting_witness :
  fst (transcribe_with_ffmpeg_preprocessing sample_env "temp_lec1.mp4" one_video_world)
  = Ok (Some ("Hello there." +:+ nl +:+ "Second segment." +:+ nl)).
Proof.
  assert (Hf : ffmpeg sample_env "temp_lec1.mp4" = ExtractOk (Some "pcm"))
    by reflexivity.
  assert (Hfile : fs (after_extract (Some "pcm") "temp_lec1.mp4" one_video_world)
                  !! audio_path_of "temp_lec1.mp4" = Some "pcm")
    by (vm_compute; reflexivity).
  destruct (transcript_formatting sample_env "temp_lec1.mp4" one_video_world
              (Some "pcm") "pcm" Hf Hfile eq_refl) as [H _].
  exact (H _ eq_refl).
Defined.

(** ** Downloads *)

Lemma download_loop_path (env : Env) (n : nat) (id t : string) (w w' : World) (p : string) :
  download_loop env n id t w = (Ok (Some p), w') -> p = t.
Proof.
  revert w w'. induction n as [|n IH]; intros w w'; cbn [download_loop].
  - unfold_monad. congruence.
  - unfold try_except at 1.
    destruct ((fetch_to env id t (max_retries - Z.of_nat (S n));; mret (Some t)) w)
      as [[r|e] w1] eqn:Hrun.
    + unfold mbind, M_bind in Hrun.
      destruct (fetch_to env id t (max_retries - Z.of_nat (S n)) w) as [[[]|e] w2];
        unfold mret, M_ret in Hrun; congruence.
    + destruct (max_retries - Z.of_nat (S n) + 1 <? max_retries).
      * unfold sleep. unfold mbind at 1, M_bind at 1. cbn. apply IH.
      * unfold raise. congruence.
Qed.

(** C6, as amended.  The temp path of a download is "temp_" followed by the
    display name and nothing else: the subject is not an input of
    [download_video], and two downloads write to the same path exactly when
    their display names are equal. *)
Theorem download_temp_path_by_name (env : Env) (id1 n1 id2 n2 : string)
    (w1 w2 w1' w2' : World) (p1 p2 : string) :
  download_video env id1 n1 w1 = (Ok (Some p1), w1') ->
  download_video env id2 n2 w2 = (Ok (Some p2), w2') ->
  p1 = temp_video_of n1 /\ p2 = temp_video_of n2 /\ (p1 = p2 <-> n1 = n2).
Proof.
  intros H1 H2. apply download_loop_path in H1, H2. subst p1 p2.
  repeat split; [|congruence].
  unfold temp_video_of. intros H. exact (String.app_inj "temp_" _ _ H).
Qed.

Lemma download_temp_path_by_name_witness :
  temp_video_of "lec1.mp4" <> temp_video_of "lec2.mp4".
Proof.
  destruct (download_temp_path_by_name sample_env "id1" "lec1.mp4" "id2" "lec2.mp4"
              empty_world empty_world _ _ _ _ eq_refl eq_refl) as (_ & _ & H).
  intros Heq. apply H in Heq. discriminate Heq.
Defined.

(** C6 fails as stated: the downloads that the runs of two different subjects
    start for a video named [lec1.mp4] write to the same temp path. *)
Lemma temp_path_shared_across_subjects :
  "math" <> "physics"
  /\ In (EvDownloadAttempt "id1" "temp_lec1.mp4")
        (trace (snd (process_subject sample_env "math" empty_world)))
  /\ In (EvDownloadAttempt "id1" "temp_lec1.mp4")
        (trace (snd (process_subject sample_env "physics" empty_world)))
  /\ ~ (forall (env : Env) (subject1 subject2 : string) (file1 file2 : DriveFile)
               (w1 w2 w1' w2' : World) (p1 p2 : string),
           subject1 <> subject2 ->
           file_name file1 = file_name file2 ->
           download_video env (file_id file1) (file_name file1) w1 = (Ok (Some p1), w1') ->
           download_video env (file_id file2) (file_name file2) w2 = (Ok (Some p2), w2') ->
           p1 <> p2).
Proof.
  split; [discriminate|]. split; [vm_compute; tauto|]. split; [vm_compute; tauto|].
  intros H.
  refine (H sample_env "math" "physics" lec1 lec1 empty_world empty_world _ _ _ _
            _ eq_refl eq_refl eq_refl eq_refl).
  discriminate.
Qed.

Lemma fetch_to_run (env : Env) (id t : string) (n : Z) (w : World) :
  let w1 := mkWorld (fs w) (store w) (trace w ++ [EvDownloadAttempt id t]) in
  fetch_to env id t n w
  = match drive_fetch env id n with
    | FetchOpenError e => (Raise e, w1)
    | FetchChunkError partial e => (Raise e, set_fs (fun f => <[t := partial]> f) w1)
    | FetchOk content => (Ok tt, set_fs (fun f => <[t := content]> f) w1)
    end.
Proof.
  unfold fetch_to, write_file. unfold_monad. cbn.
  destruct (drive_fetch env id n); reflexivity.
Qed.

Lemma fetch_to_trace (env : Env) (id t : string) (n : Z) (w : World) :
  trace (snd (fetch_to env id t n w)) = trace w ++ [EvDownloadAttempt id t].
Proof. rewrite fetch_to_run. destruct (drive_fetch env id n); reflexivity. Qed.

Lemma fetch_to_result (env : Env) (id t : string) (n : Z) (w : World) :
  fst (fetch_to env id t n w)
  = match fetch_error env id n with Some e => Raise e | None => Ok tt end.
Proof.
  rewrite fetch_to_run. unfold fetch_error.
  destruct (drive_fetch env id n); reflexivity.
Qed.

Lemma download_video_cases (env : Env) (id name : string) (w : World) :
  let run := download_video env id name w in
  let t := temp_video_of name in
  let attempt := EvDownloadAttempt id t in
  exists added,
    trace (snd run) = trace w ++ added
    /\ match fetch_error env id 0, fetch_error env id 1, fetch_error env id 2 with
       | None, _, _ =>
           added = [attempt] /\ fst run = Ok (Some t)
       | Some _, None, _ =>
           added = [attempt; EvSleep 2; attempt] /\ fst run = Ok (Some t)
       | Some _, Some _, None =>
           added = [attempt; EvSleep 2; attempt; EvSleep 4; attempt]
           /\ fst run = Ok (Some t)
       | Some _, Some _, Some e =>
           added = [attempt; EvSleep 2; attempt; EvSleep 4; attempt]
           /\ fst run = Raise e
       end.
Proof.
  cbv zeta. unfold download_video.
  change (Z.to_nat max_retries) with 3%nat. cbn [download_loop].
  change (max_retries - Z.of_nat 3) with 0.
  change (max_retries - Z.of_nat 2) with 1.
  change (max_retries - Z.of_nat 1) with 2.
  set (t := temp_video_of name).
  change (0 + 1 <? max_retries) with true.
  change (1 + 1 <? max_retries) with true.
  change (2 + 1 <? max_retries) with false.
  change (2 ^ (0 + 1)) with 2. change (2 ^ (1 + 1)) with 4.
  unfold try_except, sleep. unfold_monad. cbn.
  pose proof (fetch_to_trace env id t 0 w) as T0.
  pose proof (fetch_to_result env id t 0 w) as R0.
  destruct (fetch_to env id t 0 w) as [r0 w0]. cbn in T0, R0. subst r0.
  destruct (fetch_error env id 0) as [e0|].
  2:{ exists [EvDownloadAttempt id t]. cbn. auto. }
  set (w0s := set_trace _ w0).
  pose proof (fetch_to_trace env id t 1 w0s) as T1.
  pose proof (fetch_to_result env id t 1 w0s) as R1.
  destruct (fetch_to env id t 1 w0s) as [r1 w1]. cbn in T1, R1. subst r1.
  destruct (fetch_error env id 1) as [e1|].
  2:{ exists [EvDownloadAttempt id t; EvSleep 2; EvDownloadAttempt id t]. cbn.
      rewrite T1, T0. rewrite <- !app_assoc. auto. }
  set (w1s := set_trace _ w1).
  pose proof (fetch_to_trace env id t 2 w1s) as T2.
  pose proof (fetch_to_result env id t 2 w1s) as R2.
  destruct (fetch_to env id t 2 w1s) as [r2 w2]. cbn in T2, R2. subst r2.
  exists [EvDownloadAttempt id t; EvSleep 2; EvDownloadAttempt id t; EvSleep 4;
          EvDownloadAttempt id t].
  destruct (fetch_error env id 2) as [e2|]; cbn; rewrite T2, T1, T0;
    rewrite <- !app_assoc; auto.
Qed.

(** C5, as amended.  A download makes at most three attempts.  After the
    first failed attempt it sleeps 2 seconds, after the second 4 seconds, and
    then tries again; no other sleep occurs, so the sleeps are the first
    (attempts - 1) of 2, 4.  When the third attempt fails, its exception is
    raised to the caller. *)
Theorem download_retry_contract (env : Env) (id name : string) (w : World) :
  let run := download_video env id name w in
  let t := temp_video_of name in
  let attempt := EvDownloadAttempt id t in
  exists added,
    trace (snd run) = trace w ++ added
    /\ (count_events is_download added <= 3)%nat
    /\ sleeps added = firstn (count_events is_download added - 1) [2; 4]
    /\ match fetch_error env id 0, fetch_error env id 1, fetch_error env id 2 with
       | None, _, _ =>
           added = [attempt] /\ fst run = Ok (Some t)
       | Some _, None, _ =>
           added = [attempt; EvSleep 2; attempt] /\ fst run = Ok (Some t)
       | Some _, Some _, None =>
           added = [attempt; EvSleep 2; attempt; EvSleep 4; attempt]
           /\ fst run = Ok (Some t)
       | Some _, Some _, Some e =>
           added = [attempt; EvSleep 2; attempt; EvSleep 4; attempt]
           /\ fst run = Raise e
       end.
Proof.
  cbv zeta. destruct (download_video_cases env id name w) as (added & Htrace & Hcases).
  exists added. split; [exact Htrace|].
  assert (Hshape : added = [EvDownloadAttempt id (temp_video_of name)]
                   \/ added = [EvDownloadAttempt id (temp_video_of name); EvSleep 2;
                               EvDownloadAttempt id (temp_video_of name)]
                   \/ added = [EvDownloadAttempt id (temp_video_of name); EvSleep 2;
                               EvDownloadAttempt id (temp_video_of name); EvSleep 4;
                               EvDownloadAttempt id (temp_video_of name)]).
  { destruct (fetch_error env id 0); [destruct (fetch_error env id 1);
      [destruct (fetch_error env id 2)|]|]; destruct Hcases as [-> _]; auto. }
  split; [|split; [|exact Hcases]].
  - destruct Hshape as [-> | [-> | ->] ]; cbn; lia.
  - destruct Hshape as [-> | [-> | ->] ]; reflexivity.
Qed.

(** C5 fails as stated: a download whose three attempts all fail has slept
    2 and 4 seconds, and never 8. *)
Lemma no_eight_second_backoff :
  let run := download_video failing_download_env "id1" "lec1.mp4" empty_world in
  fst run = Raise "timed out"
  /\ count_events is_download (trace (snd run)) = 3%nat
  /\ sleeps (trace (snd run)) = [2; 4]
  /\ sleeps (trace (snd run)) <> [2; 4; 8]
  /\ ~ In 8 (sleeps (trace (snd run))).
Proof.
  vm_compute. repeat split; try discriminate.
  intros [H|[H|[]]]; discriminate.
Qed.

(** ** The pool *)

Lemma transcribe_with_progress_run (env : Env) (v c : string) (w w1 : World)
    (text : option string) :
  fs w !! v = Some c -> Str.is_empty c = false ->
  transcribe_with_ffmpeg_preprocessing env v w = (Ok text, w1) ->
  transcribe_with_progress env v w
  = (Ok (v, if truthy text then text else None), w1).
Proof.
  intros Hv Hc Hrun. unfold transcribe_with_progress. apply try_ok.
  erewrite bind_ok by (apply exists_nonempty_some; eassumption).
  rewrite Hc. cbn [negb].
  erewrite bind_ok by eassumption.
  destruct (truthy text); reflexivity.
Qed.

(** C10, as amended.  A transcription that returns the empty string is
    treated like one that returns [None]: [transcribe_with_progress] answers
    [None] for the path, the result mapping is left as it was, and no persist
    task is made for a path that the mapping does not hold.  Only a text that
    is not empty enters the mapping. *)
Theorem empty_transcript_policy (env : Env) (v c : string) (w w1 : World)
    (text : option string) :
  fs w !! v = Some c -> Str.is_empty c = false ->
  transcribe_with_ffmpeg_preprocessing env v w = (Ok text, w1) ->
  (text = Some EmptyString -> transcribe_with_progress env v w = (Ok (v, None), w1))
  /\ (forall results,
         collect_result env results v w = (Ok (kept_text text v results), w1))
  /\ (forall subject transcriptions item w2,
         temp_path (snd item) = v -> transcriptions !! v = None ->
         persist_task env subject transcriptions item w2 = (Ok tt, w2)).
Proof.
  intros Hv Hc Hrun.
  pose proof (transcribe_with_progress_run _ _ _ _ _ _ Hv Hc Hrun) as Hp.
  split; [|split].
  - intros ->. exact Hp.
  - intros results. unfold collect_result.
    erewrite bind_ok by exact Hp. unfold kept_text.
    destruct text as [[|ch t]|]; reflexivity.
  - intros subject transcriptions item w2 Hitem Hnone.
    unfold persist_task. now rewrite Hitem, Hnone.
Qed.

Lemma empty_transcript_policy_witness :
  fst (collect_result silent_env ∅ "temp_lec1.mp4" one_video_world) = Ok ∅.
Proof.
  destruct (transcribe_with_ffmpeg_preprocessing silent_env "temp_lec1.mp4" one_video_world)
    as [r w1] eqn:Hrun.
  assert (Hr : r = Ok (Some EmptyString)).
  { apply (f_equal fst) in Hrun. cbn [fst] in Hrun. rewrite <- Hrun.
    vm_compute. reflexivity. }
  subst r.
  assert (Hv : fs one_video_world !! "temp_lec1.mp4" = Some "video-bytes")
    by (vm_compute; reflexivity).
  destruct (empty_transcript_policy silent_env "temp_lec1.mp4" "video-bytes"
              one_video_world w1 (Some EmptyString) Hv eq_refl Hrun) as (_ & H & _).
  rewrite H. reflexivity.
Defined.

(** C10 fails as stated: the model finds no speech in [lec1.mp4], the
    transcriber returns the empty string, and the run of the subject ends
    without a transcript file, without an insert, and with an empty store. *)
Lemma empty_transcript_not_marked_done :
  let text := transcribe_with_ffmpeg_preprocessing silent_env "temp_lec1.mp4" one_video_world in
  let pool := transcribe_multiple_videos silent_env ["temp_lec1.mp4"] one_video_world in
  let run := process_subject silent_env "math" empty_world in
  fst text = Ok (Some EmptyString)
  /\ fst pool = Ok ∅
  /\ store (snd run) = []
  /\ fs (snd run) !! "lec1.mp4_transcript.txt" = None
  /\ ~ In (EvInsertIssued "math" "lec1.mp4") (trace (snd run))
  /\ In (EvLog (NoSuccessfulTranscriptions "math")) (trace (snd run)).
Proof.
  vm_compute. repeat split; try tauto.
  intros H. repeat (destruct H as [H|H]; [discriminate|]). exact H.
Qed.

(** ** Computations that only append to the trace *)

Lemma logs_intro {A} (m : M A) :
  (forall f s t, exists r f' s' d,
      m (mkWorld f s t) = (r, mkWorld f' s' (t ++ d))
      /\ m (mkWorld f s []) = (r, mkWorld f' s' d)) ->
  Logs m.
Proof.
  intros H f s t. destruct (H f s t) as (r & f' & s' & d & -> & ->). reflexivity.
Qed.

Lemma logs_run {A} (m : M A) (f : gmap string string) (s : list (string * string))
    (t : list Event) :
  Logs m ->
  exists r f' s' d,
    m (mkWorld f s t) = (r, mkWorld f' s' (t ++ d))
    /\ m (mkWorld f s []) = (r, mkWorld f' s' d).
Proof.
  intros H. destruct (m (mkWorld f s [])) as [r [f' s' d]] eqn:E.
  exists r, f', s', d. split; [|reflexivity]. rewrite H, E. reflexivity.
Qed.

Lemma logs_extends {A} (m : M A) (w : World) :
  Logs m -> exists added, trace (snd (m w)) = trace w ++ added.
Proof.
  intros H. destruct w as [f s t].
  destruct (logs_run m f s t H) as (r & f' & s' & d & -> & _). now exists d.
Qed.

Lemma logs_ret {A} (a : A) : Logs (mret a : M A).
Proof. intros f s t. cbn. now rewrite app_nil_r. Qed.

Lemma logs_raise {A} (e : Exn) : Logs (raise e : M A).
Proof. intros f s t. cbn. now rewrite app_nil_r. Qed.

Lemma logs_emit (e : Event) : Logs (emit e).
Proof. intros f s t. reflexivity. Qed.

Lemma logs_bind {A B} (m : M A) (k : A -> M B) :
  Logs m -> (forall a, Logs (k a)) -> Logs (m ≫= k).
Proof.
  intros Hm Hk. apply logs_intro. intros f s t.
  destruct (logs_run m f s t Hm) as (r & f1 & s1 & d1 & E1 & E2).
  unfold mbind, M_bind. rewrite E1, E2. destruct r as [a|e].
  - destruct (logs_run (k a) f1 s1 (t ++ d1) (Hk a)) as (r2 & f2 & s2 & d2 & E3 & E4).
    exists r2, f2, s2, (d1 ++ d2). rewrite E3.
    destruct (logs_run (k a) f1 s1 d1 (Hk a)) as (r3 & f3 & s3 & d3 & E5 & E6).
    rewrite E5. rewrite E6 in E4. inversion E4; subst.
    split; [now rewrite app_assoc | reflexivity].
  - exists (Raise e), f1, s1, d1. split; reflexivity.
Qed.

Lemma logs_try {A} (m : M A) (h : Exn -> M A) :
  Logs m -> (forall e, Logs (h e)) -> Logs (try_except m h).
Proof.
  intros Hm Hh. apply logs_intro. intros f s t.
  destruct (logs_run m f s t Hm) as (r & f1 & s1 & d1 & E1 & E2).
  unfold try_except. rewrite E1, E2. destruct r as [a|e].
  - exists (Ok a), f1, s1, d1. split; reflexivity.
  - destruct (logs_run (h e) f1 s1 (t ++ d1) (Hh e)) as (r2 & f2 & s2 & d2 & E3 & E4).
    exists r2, f2, s2, (d1 ++ d2). rewrite E3.
    destruct (logs_run (h e) f1 s1 d1 (Hh e)) as (r3 & f3 & s3 & d3 & E5 & E6).
    rewrite E5. rewrite E6 in E4. inversion E4; subst.
    split; [now rewrite app_assoc | reflexivity].
Qed.

Lemma logs_run_task {A} (m : M A) : Logs m -> Logs (run_task m).
Proof.
  intros Hm. apply logs_intro. intros f s t.
  destruct (logs_run m f s t Hm) as (r & f1 & s1 & d1 & E1 & E2).
  unfold run_task. rewrite E1, E2. exists (Ok r), f1, s1, d1. split; reflexivity.
Qed.

Lemma logs_await {A} (r : Res A) : Logs (await r).
Proof. destruct r; [apply logs_ret | apply logs_raise]. Qed.

Lemma logs_foldM {A S} (body : S -> A -> M S) (l : list A) (s0 : S) :
  (forall s x, Logs (body s x)) -> Logs (foldM body l s0).
Proof.
  intros Hb. revert s0. induction l as [|x l IH]; intros s0; cbn [foldM].
  - apply logs_ret.
  - apply logs_bind; [apply Hb | intros s'; apply IH].
Qed.

Lemma logs_for_each {A} (l : list A) (body : A -> M unit) :
  (forall x, Logs (body x)) -> Logs (for_each l body).
Proof. intros Hb. apply logs_foldM. intros _ x. apply Hb. Qed.

Lemma logs_mapM {A B} (f : A -> M B) (l : list A) :
  (forall x, Logs (f x)) -> Logs (mapM f l).
Proof.
  intros Hf. induction l as [|x l IH]; cbn [mapM].
  - apply logs_ret.
  - apply logs_bind; [apply Hf | intros y].
    apply logs_bind; [apply IH | intros ys; apply logs_ret].
Qed.

Lemma logs_quiet_state {A} (m : M A) :
  (forall f s, exists r f' s', forall t', m (mkWorld f s t') = (r, mkWorld f' s' t')) ->
  Logs m.
Proof.
  intros H. apply logs_intro. intros f s t.
  destruct (H f s) as (r & f' & s' & E).
  exists r, f', s', []. rewrite !E, app_nil_r. split; reflexivity.
Qed.

Lemma logs_path_exists (p : string) : Logs (path_exists p).
Proof.
  apply logs_quiet_state. intros f s. eexists _, _, _. intros t'.
  unfold path_exists. cbn. reflexivity.
Qed.

Lemma logs_getsize (p : string) : Logs (getsize p).
Proof.
  apply logs_quiet_state. intros f s. unfold getsize. cbn.
  destruct (f !! p); eexists _, _, _; intros t'; reflexivity.
Qed.

Lemma logs_write_file (p c : string) : Logs (write_file p c).
Proof.
  apply logs_quiet_state. intros f s. eexists _, _, _. intros t'.
  unfold write_file, set_fs. cbn. reflexivity.
Qed.

Lemma logs_os_remove (p : string) : Logs (os_remove p).
Proof.
  apply logs_intro. intros f s t. unfold os_remove. cbn.
  destruct (f !! p).
  - eexists _, _, _, [EvRemove p]. split; reflexivity.
  - eexists _, _, _, []. rewrite app_nil_r. split; reflexivity.
Qed.

Create HintDb logs.

#[export] Hint Resolve logs_ret logs_raise logs_emit logs_run_task logs_await
  logs_path_exists logs_getsize logs_write_file logs_os_remove : logs.

#[export] Hint Extern 2 (Logs (_ ≫= _)) => apply logs_bind; [|intros ?] : logs.
#[export] Hint Extern 2 (Logs (try_except _ _)) => apply logs_try; [|intros ?] : logs.
#[export] Hint Extern 2 (Logs (foldM _ _ _)) => apply logs_foldM; intros ? ? : logs.
#[export] Hint Extern 2 (Logs (for_each _ _)) => apply logs_for_each; intros ? : logs.
#[export] Hint Extern 2 (Logs (mapM _ _)) => apply logs_mapM; intros ? : logs.
#[export] Hint Extern 3 (Logs (if ?b then _ else _)) => destruct b : logs.
#[export] Hint Extern 3 (Logs (match ?x with Some _ => _ | None => _ end)) => destruct x : logs.

Ltac logs := auto 30 with logs.

#[export] Hint Extern 4 (Logs (match ?x with _ => _ end)) => destruct x : logs.

Lemma logs_exists_nonempty (p : string) : Logs (exists_nonempty p).
Proof. unfold exists_nonempty. logs. Qed.

Lemma logs_remove_if_exists (p : string) : Logs (remove_if_exists p).
Proof. unfold remove_if_exists. logs. Qed.

#[export] Hint Resolve logs_exists_nonempty logs_remove_if_exists : logs.

Lemma logs_transcribe (env : Env) (v : string) :
  Logs (transcribe_with_ffmpeg_preprocessing env v).
Proof.
  unfold transcribe_with_ffmpeg_preprocessing, transcribe_primary, transcribe_fallback,
    run_ffmpeg, leave_output, model_transcribe, whisper_load_base, base_model_transcribe.
  logs.
Qed.

Lemma logs_download_video (env : Env) (id name : string) : Logs (download_video env id name).
Proof.
  unfold download_video. generalize (Z.to_nat max_retries). intros n.
  induction n as [|n IH]; cbn [download_loop]; [logs|].
  apply logs_try; [unfold fetch_to; logs|]. intros e.
  destruct (_ <? _); [|logs]. unfold sleep. logs.
Qed.

Lemma logs_find_one (env : Env) (subject name : string) : Logs (find_one env subject name).
Proof.
  apply logs_quiet_state. intros f s. unfold find_one.
  destruct (find_error env subject name); eexists _, _, _; intros t'; cbn; reflexivity.
Qed.

Lemma logs_insert_one (env : Env) (subject name : string) : Logs (insert_one env subject name).
Proof.
  unfold insert_one. apply logs_bind; [logs|]. intros _.
  destruct (insert_error env subject name); [logs|].
  apply logs_quiet_state. intros f s. eexists _, _, _. intros t'.
  unfold set_store. cbn. reflexivity.
Qed.

#[export] Hint Resolve logs_transcribe logs_download_video logs_find_one logs_insert_one : logs.

Lemma logs_transcribe_multiple_videos (env : Env) (paths : list string) :
  Logs (transcribe_multiple_videos env paths).
Proof.
  unfold transcribe_multiple_videos, max_workers, collect_result, transcribe_with_progress.
  logs.
Qed.

Lemma logs_process_transcribed_video (env : Env) (subject : string) (file : DriveFile)
    (temp transcription : string) :
  Logs (process_transcribed_video env subject file temp transcription).
Proof.
  unfold process_transcribed_video, run_steps, persist_steps, write_transcript.
  apply logs_try; [|logs]. unfold for_each. cbn [foldM]. logs.
Qed.

#[export] Hint Resolve logs_transcribe_multiple_videos logs_process_transcribed_video : logs.

Lemma logs_cleanup (items : list (string * Info)) : Logs (cleanup items).
Proof. unfold cleanup. logs. Qed.

#[export] Hint Resolve logs_cleanup : logs.

Lemma logs_process_subject (env : Env) (subject : string) : Logs (process_subject env subject).
Proof.
  unfold process_subject, process_subject_body, config_folder, list_files, filter_step,
    start_download, collect_download, persist_task.
  logs.
Qed.

#[export] Hint Resolve logs_process_subject : logs.

Lemma logs_gather {A} (tasks : list (M A)) :
  (forall m, In m tasks -> Logs m) -> Logs (gather tasks).
Proof.
  intros H. unfold gather. apply logs_bind; [|intros outcomes; logs].
  induction tasks as [|m tasks IH]; cbn [mapM]; [logs|].
  apply logs_bind; [apply logs_run_task, H; now left | intros y].
  apply logs_bind; [apply IH; intros m' Hm'; apply H; now right | intros ys; logs].
Qed.

Lemma logs_gather_subjects (env : Env) (l : list string) :
  Logs (gather (map (process_subject env) l)).
Proof.
  apply logs_gather. intros m Hm. apply in_map_iff in Hm as (s & <- & _). logs.
Qed.

Lemma logs_main (env : Env) : Logs (main env).
Proof. unfold main. apply logs_bind; [apply logs_gather_subjects | intros _; logs]. Qed.

(** ** Subjects and the coordinator *)

Lemma bind_inv {A B} (m : M A) (k : A -> M B) (w w' : World) (b : B) :
  (m ≫= k) w = (Ok b, w') ->
  exists a w1, m w = (Ok a, w1) /\ k a w1 = (Ok b, w').
Proof.
  unfold mbind, M_bind. destruct (m w) as [[a|e] w1]; [eauto | discriminate].
Qed.

Lemma emit_inv (e : Event) (w w' : World) (r : Res unit) :
  emit e w = (r, w') -> trace w' = trace w ++ [e].
Proof. unfold emit. intros [= _ <-]. reflexivity. Qed.

Lemma process_subject_never_raises (env : Env) (subject : string) (w : World) :
  fst (process_subject env subject w) = Ok tt.
Proof.
  unfold process_subject, try_except.
  destruct (process_subject_body env subject w) as [[[]|e] w1]; reflexivity.
Qed.

Lemma body_terminal (env : Env) (subject : string) (w w' : World) :
  process_subject_body env subject w = (Ok tt, w') ->
  exists msg, terminal_subject msg = Some subject /\ In (EvLog msg) (trace w').
Proof.
  unfold process_subject_body. intros H.
  apply bind_inv in H as (folder & w1 & _ & H).
  apply bind_inv in H as (files & w2 & _ & H).
  destruct (is_nil files).
  { apply emit_inv in H. eexists; split; [|rewrite H; apply in_or_app; right; now left].
    reflexivity. }
  apply bind_inv in H as (unprocessed & w3 & _ & H).
  destruct (is_nil unprocessed).
  { apply emit_inv in H. eexists; split; [|rewrite H; apply in_or_app; right; now left].
    reflexivity. }
  apply bind_inv in H as (tasks & w4 & _ & H).
  apply bind_inv in H as (downloaded & w5 & _ & H).
  destruct (is_nil downloaded).
  { apply emit_inv in H. eexists; split; [|rewrite H; apply in_or_app; right; now left].
    reflexivity. }
  apply bind_inv in H as (transcriptions & w6 & _ & H).
  destruct (bool_decide (transcriptions = ∅)).
  - apply bind_inv in H as ([] & w7 & Hemit & H).
    apply emit_inv in Hemit.
    destruct (logs_extends (cleanup downloaded) w7 (logs_cleanup _)) as (added & Hadd).
    rewrite H in Hadd. cbn in Hadd.
    exists (NoSuccessfulTranscriptions subject). split; [reflexivity|].
    rewrite Hadd, Hemit. apply in_or_app; left. apply in_or_app; right. now left.
  - apply bind_inv in H as ([] & w7 & _ & H).
    apply bind_inv in H as ([] & w8 & _ & H).
    apply emit_inv in H. eexists; split; [|rewrite H; apply in_or_app; right; now left].
    reflexivity.
Qed.

Lemma process_subject_terminal (env : Env) (subject : string) (w : World) :
  exists msg, terminal_subject msg = Some subject
              /\ In (EvLog msg) (trace (snd (process_subject env subject w))).
Proof.
  unfold process_subject, try_except.
  destruct (process_subject_body env subject w) as [[[]|e] w1] eqn:Hbody.
  - cbn. eapply body_terminal; eassumption.
  - exists (ErrorProcessingSubject subject e). split; [reflexivity|].
    cbn. apply in_or_app; right. now left.
Qed.

(** A subject whose listing call raises: the run logs the error and leaves
    files and store alone. *)
Lemma listing_error_aborts (env : Env) (subject folder : string) (e : Exn) (w : World) :
  recording_folder env subject = Some folder ->
  drive_list env folder = Raise e ->
  process_subject env subject w
  = (Ok tt, mkWorld (fs w) (store w)
                    (trace w ++ [EvListing folder; EvLog (ErrorProcessingSubject subject e)])).
Proof.
  intros Hfolder Hlist.
  unfold process_subject, process_subject_body, config_folder, list_files.
  rewrite Hfolder. unfold_monad. cbn. rewrite Hlist. cbn.
  unfold set_trace. cbn. now rewrite <- app_assoc.
Qed.

Lemma gather_subjects_run (env : Env) (l : list string) (w : World) :
  gather (map (process_subject env) l) w = (Ok (map (fun _ => tt) l), run_all env l w).
Proof.
  unfold gather.
  assert (Htasks : forall w,
             mapM run_task (map (process_subject env) l) w
             = (Ok (map (fun _ => Ok tt) l), run_all env l w)).
  { clear w. induction l as [|s l IH]; intros w; [reflexivity|].
    cbn [map mapM run_all fold_left].
    pose proof (process_subject_never_raises env s w) as Hs.
    unfold mbind at 1, M_bind at 1. unfold run_task at 1.
    destruct (process_subject env s w) as [r w1]. cbn in Hs. subst r. cbn [snd].
    erewrite bind_ok by apply IH. reflexivity. }
  erewrite bind_ok by apply Htasks.
  generalize (run_all env l w). clear. intros w.
  induction l as [|s l IH]; [reflexivity|].
  cbn [map mapM]. unfold await at 1. unfold mbind at 1, M_bind at 1. cbn.
  erewrite bind_ok by apply IH. reflexivity.
Qed.

Lemma main_run (env : Env) (w : World) :
  main env w
  = (Ok tt, set_trace (fun t => t ++ [EvLog ScriptCompleted]) (run_all env (subjects env) w)).
Proof.
  unfold main. erewrite bind_ok by apply gather_subjects_run. reflexivity.
Qed.

Lemma run_all_cons (env : Env) (x : string) (l : list string) (w : World) :
  run_all env (x :: l) w = run_all env l (snd (process_subject env x w)).
Proof. reflexivity. Qed.

Lemma run_all_app (env : Env) (l1 l2 : list string) (w : World) :
  run_all env (l1 ++ l2) w = run_all env l2 (run_all env l1 w).
Proof. unfold run_all. apply fold_left_app. Qed.

Lemma run_all_logs (env : Env) (l : list string) (f : gmap string string)
    (s : list (string * string)) (t : list Event) :
  run_all env l (mkWorld f s t)
  = mkWorld (fs (run_all env l (mkWorld f s []))) (store (run_all env l (mkWorld f s [])))
            (t ++ trace (run_all env l (mkWorld f s []))).
Proof.
  pose proof (logs_gather_subjects env l f s t) as H.
  rewrite !gather_subjects_run in H. now inversion H.
Qed.

Lemma run_all_terminal (env : Env) (l : list string) (f : gmap string string)
    (s : list (string * string)) (subject : string) :
  In subject l ->
  exists msg, terminal_subject msg = Some subject
              /\ In (EvLog msg) (trace (run_all env l (mkWorld f s []))).
Proof.
  revert f s. induction l as [|x l IH]; intros f s; [intros []|].
  intros Hin. rewrite run_all_cons.
  destruct (process_subject env x (mkWorld f s [])) as [r [f1 s1 t1]] eqn:Hx.
  cbn [snd]. rewrite run_all_logs. cbn [trace].
  destruct Hin as [->|Hin].
  - destruct (process_subject_terminal env subject (mkWorld f s [])) as (msg & Hm & Hi).
    rewrite Hx in Hi. exists msg. split; [exact Hm | apply in_or_app; now left].
  - destruct (IH f1 s1 Hin) as (msg & Hm & Hi).
    exists msg. split; [exact Hm | apply in_or_app; now right].
Qed.

Lemma run_all_set_subjects (env : Env) (l l' : list string) (w : World) :
  run_all (set_subjects l env) l' w = run_all env l' w.
Proof. reflexivity. Qed.

(** C8.  A subject's run never hands an exception to the coordinator, so
    [main] always completes, and every configured subject's run reaches a
    log line that closes it.  When the listing call of subject [b] raises,
    its run only logs the error: the files and the store at the end are those
    of a run in which [b] is not configured, and the traces differ by the two
    events of [b] alone. *)
Theorem subject_isolation (env : Env) (pre post : list string) (b folder : string)
    (e : Exn) (w : World) :
  subjects env = pre ++ b :: post ->
  recording_folder env b = Some folder ->
  drive_list env folder = Raise e ->
  (forall subject w0, fst (process_subject env subject w0) = Ok tt)
  /\ fst (main env w) = Ok tt
  /\ (exists added,
         trace (snd (main env w)) = trace w ++ added ++ [EvLog ScriptCompleted]
         /\ forall subject, In subject (subjects env) ->
              exists msg, terminal_subject msg = Some subject /\ In (EvLog msg) added)
  /\ (let without := snd (main (set_subjects (pre ++ post) env) w) in
      fs (snd (main env w)) = fs without
      /\ store (snd (main env w)) = store without
      /\ exists t1 t2,
           trace without = trace w ++ t1 ++ t2 ++ [EvLog ScriptCompleted]
           /\ trace (snd (main env w))
              = trace w ++ t1
                ++ [EvListing folder; EvLog (ErrorProcessingSubject b e)]
                ++ t2 ++ [EvLog ScriptCompleted]).
Proof.
  intros Hsubjects Hfolder Hlist.
  split; [intros subject w0; apply process_subject_never_raises|].
  split; [now rewrite main_run|].
  destruct w as [f s t]. split.
  - rewrite main_run. cbn [snd]. rewrite run_all_logs. cbn [trace set_trace].
    exists (trace (run_all env (subjects env) (mkWorld f s []))).
    split; [now rewrite app_assoc|].
    intros subject Hin. now apply run_all_terminal.
  - cbv zeta. rewrite !main_run. cbn [snd subjects set_subjects].
    rewrite run_all_set_subjects, Hsubjects, !run_all_app, run_all_cons.
    rewrite (run_all_logs env pre f s t).
    set (w1 := run_all env pre (mkWorld f s [])).
    rewrite (listing_error_aborts env b folder e _ Hfolder Hlist). cbn [snd fs store trace].
    rewrite (run_all_logs env post (fs w1) (store w1) (t ++ trace w1)).
    rewrite (run_all_logs env post (fs w1) (store w1) ((t ++ trace w1) ++ _)).
    set (w2 := run_all env post (mkWorld (fs w1) (store w1) [])).
    cbn. split; [reflexivity|]. split; [reflexivity|].
    exists (trace w1), (trace w2). rewrite <- !app_assoc. cbn. split; reflexivity.
Qed.

Lemma subject_isolation_witness :
  let w' := snd (main broken_listing_env empty_world) in
  fst (main broken_listing_env empty_world) = Ok tt
  /\ store w' = store (snd (main (set_subjects ["math"; "history"] broken_listing_env)
                                 empty_world))
  /\ store w' = [("math", "lec1.mp4"); ("history", "lec2.mp4")].
Proof.
  destruct (subject_isolation broken_listing_env ["math"] ["history"] "physics"
              "folder_physics" "HttpError 500" empty_world eq_refl eq_refl eq_refl)
    as (_ & Hok & _ & _ & Hstore & _).
  cbv zeta. split; [exact Hok|]. split; [exact Hstore|].
  vm_compute. reflexivity.
Defined.

(** ** A run over a store that already holds every listed video *)

Lemma all_quiet_counts (events : list Event) :
  all_quiet events ->
  count_events is_download events = 0%nat /\ count_events is_transcription events = 0%nat.
Proof.
  unfold all_quiet, count_events, quiet. induction 1 as [|e l He _ [IH1 IH2]]; [split; reflexivity|].
  apply negb_true_iff, orb_false_iff in He as [Hd Ht].
  cbn. rewrite Hd, Ht. split; assumption.
Qed.

Lemma filter_step_error (env : Env) (subject : string) (acc : list DriveFile)
    (file : DriveFile) (w : World) (e : Exn) :
  find_error env subject (file_name file) = Some e ->
  filter_step env subject acc file w = (Raise e, w).
Proof. intros H. unfold filter_step, find_one. unfold_monad. now rewrite H. Qed.

Lemma filter_step_done (env : Env) (subject : string) (acc : list DriveFile)
    (file : DriveFile) (w : World) :
  find_error env subject (file_name file) = None ->
  has_record (store w) subject (file_name file) = true ->
  filter_step env subject acc file w
  = (Ok acc, mkWorld (fs w) (store w) (trace w ++ [EvSkipping (file_name file)])).
Proof. intros H1 H2. unfold filter_step, find_one. unfold_monad. now rewrite H1, H2. Qed.

Lemma filter_step_pending (env : Env) (subject : string) (acc : list DriveFile)
    (file : DriveFile) (w : World) :
  find_error env subject (file_name file) = None ->
  has_record (store w) subject (file_name file) = false ->
  filter_step env subject acc file w = (Ok (acc ++ [file]), w).
Proof. intros H1 H2. unfold filter_step, find_one. unfold_monad. now rewrite H1, H2. Qed.

Lemma filter_all_done (env : Env) (subject : string) (files acc : list DriveFile) (w : World) :
  (forall file, In file files -> has_record (store w) subject (file_name file) = true) ->
  exists r skips,
    foldM (filter_step env subject) files acc w
    = (r, mkWorld (fs w) (store w) (trace w ++ skips))
    /\ all_quiet skips
    /\ (r = Ok acc \/ exists e, r = Raise e)
    /\ ((forall file, In file files -> find_error env subject (file_name file) = None) ->
        r = Ok acc /\ forall file, In file files -> In (EvSkipping (file_name file)) skips).
Proof.
  revert w. induction files as [|file files IH]; intros w Hdone.
  - exists (Ok acc), []. cbn. rewrite app_nil_r. destruct w.
    repeat split; auto; try constructor.
  - cbn [foldM].
    destruct (find_error env subject (file_name file)) as [e|] eqn:Hfind.
    + erewrite bind_raise by (apply filter_step_error; eassumption).
      exists (Raise e), []. rewrite app_nil_r. destruct w.
      split; [reflexivity|]. split; [constructor|]. split; [eauto|].
      intros Hno. specialize (Hno file (or_introl eq_refl)). congruence.
    + erewrite bind_ok
        by (apply filter_step_done; [assumption | apply Hdone; now left]).
      destruct (IH (mkWorld (fs w) (store w) (trace w ++ [EvSkipping (file_name file)])))
        as (r & skips & Hrun & Hq & Hr & Hskip).
      { intros f Hf. cbn. apply Hdone. now right. }
      exists r, (EvSkipping (file_name file) :: skips).
      rewrite Hrun. cbn. rewrite <- app_assoc. cbn.
      split; [reflexivity|]. split; [constructor; [reflexivity | exact Hq]|].
      split; [exact Hr|]. intros Hno.
      destruct Hskip as [Hok Hin]; [intros f Hf; apply Hno; now right|].
      split; [exact Hok|]. intros f [<-|Hf]; [now left | right; now apply Hin].
Qed.

Lemma process_subject_all_done (env : Env) (subject : string) (w : World) :
  (forall folder files file,
      recording_folder env subject = Some folder ->
      drive_list env folder = Ok files ->
      In file files -> has_record (store w) subject (file_name file) = true) ->
  exists added,
    process_subject env subject w = (Ok tt, mkWorld (fs w) (store w) (trace w ++ added))
    /\ all_quiet added
    /\ (forall folder files file,
           recording_folder env subject = Some folder ->
           drive_list env folder = Ok files ->
           (forall f, In f files -> find_error env subject (file_name f) = None) ->
           In file files -> In (EvSkipping (file_name file)) added).
Proof.
  intros Hdone. unfold process_subject, process_subject_body, config_folder, list_files.
  destruct (recording_folder env subject) as [folder|] eqn:Hfolder.
  2:{ eexists [_]. unfold_monad. cbn. split; [reflexivity|]. split.
      - repeat constructor.
      - intros ? ? ? [=]. }
  destruct (drive_list env folder) as [files|e] eqn:Hlist.
  2:{ eexists [_; _]. unfold_monad. cbn. rewrite Hlist. cbn. unfold set_trace. cbn.
      rewrite <- app_assoc. split; [reflexivity|]. split.
      - repeat constructor.
      - intros ? ? ? [= <-]. congruence. }
  destruct files as [|file0 files].
  { eexists [_; _]. unfold_monad. cbn. rewrite Hlist. cbn. unfold set_trace. cbn.
    rewrite <- app_assoc. split; [reflexivity|]. split.
    - repeat constructor.
    - intros ? ? ? [= <-] Hl. rewrite Hlist in Hl. injection Hl as <-. intros _ []. }
  set (w1 := set_trace (fun t => t ++ [EvListing folder]) w).
  destruct (filter_all_done env subject (file0 :: files) [] w1)
    as (r & skips & Hrun & Hq & Hr & Hskip).
  { intros file Hfile. cbn. eapply Hdone; eauto. }
  unfold try_except.
  erewrite bind_ok by reflexivity.
  erewrite bind_ok by (unfold_monad; cbn; rewrite Hlist; reflexivity).
  cbn [is_nil]. fold w1.
  destruct Hr as [->|[e ->]].
  - erewrite bind_ok by exact Hrun. cbn.
    exists (EvListing folder :: skips ++ [EvLog (NoUnprocessedVideos subject)]).
    unfold set_trace. cbn. rewrite <- !app_assoc. cbn. split; [reflexivity|]. split.
    + constructor; [reflexivity|]. apply Forall_app. split; [exact Hq | repeat constructor].
    + intros fo fi file [= <-] Hl Hno Hin. rewrite Hlist in Hl. injection Hl as <-.
      right. apply in_or_app. left. now apply Hskip.
  - erewrite bind_raise by exact Hrun. cbn.
    exists (EvListing folder :: skips ++ [EvLog (ErrorProcessingSubject subject e)]).
    unfold emit, set_trace. cbn. rewrite <- !app_assoc. cbn. split; [reflexivity|]. split.
    + constructor; [reflexivity|]. apply Forall_app. split; [exact Hq | repeat constructor].
    + intros fo fi file [= <-] Hl Hno Hin. rewrite Hlist in Hl. injection Hl as <-.
      destruct (Hskip Hno) as [[=] _].
Qed.

Lemma run_all_all_done (env : Env) (l : list string) (w : World) :
  (forall subject folder files file,
      In subject l ->
      recording_folder env subject = Some folder ->
      drive_list env folder = Ok files ->
      In file files -> has_record (store w) subject (file_name file) = true) ->
  exists added,
    run_all env l w = mkWorld (fs w) (store w) (trace w ++ added)
    /\ all_quiet added
    /\ (forall subject folder files file,
           In subject l ->
           recording_folder env subject = Some folder ->
           drive_list env folder = Ok files ->
           (forall f, In f files -> find_error env subject (file_name f) = None) ->
           In file files -> In (EvSkipping (file_name file)) added).
Proof.
  revert w. induction l as [|s l IH]; intros w Hdone.
  - exists []. rewrite app_nil_r. destruct w. repeat split; [constructor|].
    intros ? ? ? ? [].
  - rewrite run_all_cons.
    destruct (process_subject_all_done env s w) as (added1 & Hrun & Hq1 & Hskip1).
    { intros folder files file. apply Hdone. now left. }
    rewrite Hrun. cbn [snd].
    destruct (IH (mkWorld (fs w) (store w) (trace w ++ added1)))
      as (added2 & Hrest & Hq2 & Hskip2).
    { intros s' folder files file Hin. cbn. apply Hdone. now right. }
    exists (added1 ++ added2). rewrite Hrest. cbn. rewrite app_assoc.
    split; [reflexivity|]. split; [apply Forall_app; now split|].
    intros s' folder files file [<-|Hin] Hf Hl Hno Hfile; apply in_or_app.
    + left. eapply Hskip1; eauto.
    + right. eapply Hskip2; eauto.
Qed.

(** C1.  When the store holds a record for every video that the listing of
    every configured subject returns, a run of the coordinator makes no
    download attempt and takes no step of a transcription; it leaves the
    files and the store as they were.  Every listed video is logged as skipped
    (when the store answers the membership checks), and the run of each
    subject ends before a download task is made. *)
Theorem idempotent_rerun (env : Env) (w : World) :
  (forall subject folder files file,
      In subject (subjects env) ->
      recording_folder env subject = Some folder ->
      drive_list env folder = Ok files ->
      In file files -> has_record (store w) subject (file_name file) = true) ->
  exists added,
    main env w = (Ok tt, mkWorld (fs w) (store w) (trace w ++ added))
    /\ count_events is_download added = 0%nat
    /\ count_events is_transcription added = 0%nat
    /\ (forall subject folder files file,
           In subject (subjects env) ->
           recording_folder env subject = Some folder ->
           drive_list env folder = Ok files ->
           (forall f, In f files -> find_error env subject (file_name f) = None) ->
           In file files -> In (EvSkipping (file_name file)) added).
Proof.
  intros Hdone.
  destruct (run_all_all_done env (subjects env) w Hdone) as (added & Hrun & Hq & Hskip).
  exists (added ++ [EvLog ScriptCompleted]).
  rewrite main_run, Hrun. unfold set_trace. cbn. rewrite <- app_assoc.
  split; [reflexivity|].
  assert (Hall : all_quiet (added ++ [EvLog ScriptCompleted])).
  { apply Forall_app. split; [exact Hq | repeat constructor]. }
  destruct (all_quiet_counts _ Hall) as [Hd Ht].
  split; [exact Hd|]. split; [exact Ht|].
  intros subject folder files file Hin Hf Hl Hno Hfile.
  apply in_or_app. left. eapply Hskip; eauto.
Qed.

Lemma idempotent_rerun_witness :
  let first := snd (main sample_env empty_world) in
  let second := snd (main sample_env first) in
  fs second = fs first /\ store second = store first
  /\ count_events is_download (trace second) = count_events is_download (trace first).
Proof.
  cbv zeta. set (first := snd (main sample_env empty_world)).
  destruct (idempotent_rerun sample_env first) as (added & Hrun & Hd & _).
  { intros subject folder files file Hs Hf Hl Hin.
    destruct Hs as [<-|[<-|[]]]; injection Hf as <-; vm_compute in Hl;
      injection Hl as <-.
    - destruct Hin as [<-|[<-|[]]]; vm_compute; reflexivity.
    - destruct Hin as [<-|[]]; vm_compute; reflexivity. }
  rewrite Hrun. cbn [snd fs store trace].
  rewrite count_events_app, Hd. repeat split.
Defined.

(** ** Persisting a transcript *)

Lemma write_transcript_run (env : Env) (txt transcription : string) (w : World) :
  write_transcript env txt transcription w
  = match artifact_write env txt with
    | WriteDone =>
        (Ok tt, mkWorld (<[txt := transcription]> (fs w)) (store w)
                        (trace w ++ [EvArtifactWritten txt]))
    | WriteOpenError e => (Raise e, w)
    | WriteCutShort written e =>
        (Raise e, mkWorld (<[txt := written]> (fs w)) (store w) (trace w))
    end.
Proof.
  unfold write_transcript. destruct (artifact_write env txt); reflexivity.
Qed.

Lemma insert_one_run (env : Env) (subject name : string) (w : World) :
  insert_one env subject name w
  = match insert_error env subject name with
    | Some e => (Raise e, mkWorld (fs w) (store w) (trace w ++ [EvInsertIssued subject name]))
    | None => (Ok tt, mkWorld (fs w) (store w ++ [(subject, name)])
                              (trace w ++ [EvInsertIssued subject name]))
    end.
Proof.
  unfold insert_one. unfold_monad. cbn.
  destruct (insert_error env subject name); reflexivity.
Qed.

Lemma process_transcribed_video_run (env : Env) (subject : string) (file : DriveFile)
    (temp transcription : string) (w : World) :
  let name := file_name file in
  let txt := txt_name_of name in
  process_transcribed_video env subject file temp transcription w
  = (Ok tt,
     match artifact_write env txt with
     | WriteDone =>
         mkWorld (<[txt := transcription]> (fs w))
                 (match insert_error env subject name with
                  | Some _ => store w
                  | None => store w ++ [(subject, name)]
                  end)
                 (trace w ++ [EvArtifactWritten txt; EvInsertIssued subject name])
     | WriteOpenError _ => w
     | WriteCutShort written _ => mkWorld (<[txt := written]> (fs w)) (store w) (trace w)
     end).
Proof.
  cbv zeta. unfold process_transcribed_video, run_steps, persist_steps, for_each.
  cbn [foldM]. unfold try_except. unfold mbind at 1, M_bind at 1.
  rewrite write_transcript_run.
  destruct (artifact_write env (txt_name_of (file_name file))); [|reflexivity..].
  unfold mbind at 1, M_bind at 1. rewrite insert_one_run. cbn [fs store trace].
  rewrite <- app_assoc. cbn [app].
  destruct (insert_error env subject (file_name file)); reflexivity.
Qed.

Lemma crash_before_insert (env : Env) (subject : string) (file : DriveFile)
    (transcription : string) (w : World) (k : nat) :
  (k <= 1)%nat ->
  store (snd (run_steps (firstn k (persist_steps env subject file transcription)) w))
  = store w.
Proof.
  intros Hk. destruct k as [|[|k]]; [reflexivity | | lia].
  unfold persist_steps, run_steps, for_each. cbn [firstn foldM].
  unfold mbind at 1, M_bind at 1. rewrite write_transcript_run.
  destruct (artifact_write env (txt_name_of (file_name file))); reflexivity.
Qed.

(** ** A pending video is downloaded *)

Lemma filter_keeps_pending (env : Env) (subject : string) (files acc : list DriveFile)
    (w : World) :
  (forall f, In f files -> find_error env subject (file_name f) = None) ->
  exists acc' skips,
    foldM (filter_step env subject) files acc w
    = (Ok acc', mkWorld (fs w) (store w) (trace w ++ skips))
    /\ (forall f, In f acc -> In f acc')
    /\ (forall f, In f files ->
                  has_record (store w) subject (file_name f) = false -> In f acc').
Proof.
  revert acc w. induction files as [|file files IH]; intros acc w Hno.
  - exists acc, []. cbn. rewrite app_nil_r. destruct w. repeat split; auto.
    intros f [].
  - cbn [foldM].
    pose proof (Hno file (or_introl eq_refl)) as Hfind.
    destruct (has_record (store w) subject (file_name file)) eqn:Hrec.
    + erewrite bind_ok by (apply filter_step_done; assumption).
      destruct (IH acc (mkWorld (fs w) (store w) (trace w ++ [EvSkipping (file_name file)])))
        as (acc' & skips & Hrun & Hacc & Hpend).
      { intros f Hf. apply Hno. now right. }
      exists acc', (EvSkipping (file_name file) :: skips).
      rewrite Hrun. cbn. rewrite <- app_assoc. cbn.
      split; [reflexivity|]. split; [exact Hacc|].
      intros f [<-|Hf] Hr; [congruence | now apply Hpend].
    + erewrite bind_ok by (apply filter_step_pending; assumption).
      destruct (IH (acc ++ [file]) w) as (acc' & skips & Hrun & Hacc & Hpend).
      { intros f Hf. apply Hno. now right. }
      exists acc', skips. split; [exact Hrun|]. split.
      * intros f Hf. apply Hacc, in_or_app. now left.
      * intros f [<-|Hf] Hr; [apply Hacc, in_or_app; right; now left | now apply Hpend].
Qed.

Lemma trace_grows {A} (m : M A) (w : World) (ev : Event) :
  Logs m -> In ev (trace w) -> In ev (trace (snd (m w))).
Proof.
  intros Hm Hin. destruct (logs_extends m w Hm) as (added & ->).
  apply in_or_app. now left.
Qed.

Lemma trace_grows_bind {A B} (m : M A) (k : A -> M B) (w w1 : World) (a : A) (ev : Event) :
  m w = (Ok a, w1) -> In ev (trace w1) -> Logs (k a) ->
  In ev (trace (snd ((m ≫= k) w))).
Proof.
  intros Hm Hin Hk. erewrite bind_ok by exact Hm. now apply trace_grows.
Qed.

Lemma trace_grows_try {A} (m : M A) (h : Exn -> M A) (w : World) (ev : Event) :
  In ev (trace (snd (m w))) -> (forall e, Logs (h e)) ->
  In ev (trace (snd (try_except m h w))).
Proof.
  intros Hin Hh. unfold try_except. destruct (m w) as [[a|e] w1]; [exact Hin|].
  now apply trace_grows.
Qed.

Lemma download_video_attempts (env : Env) (id name : string) (w : World) :
  In (EvDownloadAttempt id (temp_video_of name))
     (trace (snd (download_video env id name w))).
Proof.
  destruct (download_video_cases env id name w) as (added & -> & H).
  apply in_or_app. right.
  destruct (fetch_error env id 0); [destruct (fetch_error env id 1);
    [destruct (fetch_error env id 2)|]|]; destruct H as [-> _]; now left.
Qed.

Lemma start_download_run (env : Env) (file : DriveFile) (w : World) :
  start_download env file w
  = (Ok (file, fst (download_video env (file_id file) (file_name file) w)),
     snd (download_video env (file_id file) (file_name file) w)).
Proof.
  unfold start_download, run_task. unfold_monad.
  destruct (download_video env (file_id file) (file_name file) w); reflexivity.
Qed.

Lemma logs_start_download (env : Env) (file : DriveFile) : Logs (start_download env file).
Proof. unfold start_download. logs. Qed.

Lemma downloads_started (env : Env) (l : list DriveFile) (w : World) :
  exists tasks w',
    mapM (start_download env) l w = (Ok tasks, w')
    /\ forall f, In f l ->
         In (EvDownloadAttempt (file_id f) (temp_video_of (file_name f))) (trace w').
Proof.
  revert w. induction l as [|file l IH]; intros w.
  - exists [], w. split; [reflexivity | intros f []].
  - cbn [mapM].
    pose proof (download_video_attempts env (file_id file) (file_name file) w) as Hat.
    destruct (IH (snd (download_video env (file_id file) (file_name file) w)))
      as (tasks & w' & Hrun & Hin).
    eexists (_ :: tasks), w'. split.
    + erewrite bind_ok by apply start_download_run.
      erewrite bind_ok by exact Hrun. reflexivity.
    + intros f [<-|Hf]; [|now apply Hin].
      pose proof (trace_grows (mapM (start_download env) l) _ _
                    (logs_mapM _ _ (logs_start_download env)) Hat) as Hg.
      now rewrite Hrun in Hg.
Qed.

Lemma pending_video_is_downloaded (env : Env) (subject folder : string)
    (files : list DriveFile) (file : DriveFile) (w : World) :
  recording_folder env subject = Some folder ->
  drive_list env folder = Ok files ->
  (forall f, In f files -> find_error env subject (file_name f) = None) ->
  In file files ->
  has_record (store w) subject (file_name file) = false ->
  exists added,
    trace (snd (process_subject env subject w)) = trace w ++ added
    /\ In (EvDownloadAttempt (file_id file) (temp_video_of (file_name file))) added.
Proof.
  intros Hfolder Hlist Hno Hin Hrec. destruct w as [f s t].
  rewrite (logs_process_subject env subject f s t). cbn [snd trace].
  eexists; split; [reflexivity|].
  unfold process_subject. apply trace_grows_try; [|intros e; logs].
  unfold process_subject_body, config_folder, list_files. rewrite Hfolder.
  erewrite bind_ok by reflexivity.
  erewrite bind_ok by (unfold_monad; cbn; rewrite Hlist; reflexivity).
  destruct files as [|file0 files]; [destruct Hin|]. cbn [is_nil].
  destruct (filter_keeps_pending env subject (file0 :: files) []
              (set_trace (fun t => t ++ [EvListing folder]) (mkWorld f s [])) Hno)
    as (unprocessed & skips & Hrun & _ & Hpend).
  erewrite bind_ok by exact Hrun.
  specialize (Hpend file Hin Hrec).
  destruct unprocessed as [|u0 unprocessed]; [destruct Hpend|]. cbn [is_nil].
  destruct (downloads_started env (u0 :: unprocessed)
              (mkWorld f s ([] ++ [EvListing folder] ++ skips)))
    as (tasks & w' & Hdl & Hat).
  eapply trace_grows_bind.
  - cbn in Hdl |- *. exact Hdl.
  - now apply Hat.
  - unfold collect_download, persist_task. logs.
Qed.

(** C2.  For a video that is not yet marked done: in program order the
    transcript file is written in full before the insert is issued, and when
    the write fails no insert is issued at all.  A crash after no step or
    after the write alone leaves the store as it was, so the video is still
    unmarked; so does an insert that raises.  From any world with that store,
    the next run of the subject finds the video pending and starts a download
    for it. *)
Theorem write_before_mark (env : Env) (subject : string) (file : DriveFile)
    (temp transcription : string) (w : World) :
  has_record (store w) subject (file_name file) = false ->
  let name := file_name file in
  let txt := txt_name_of name in
  let steps := persist_steps env subject file transcription in
  let run := process_transcribed_video env subject file temp transcription w in
  match artifact_write env txt with
  | WriteDone =>
      trace (snd run) = trace w ++ [EvArtifactWritten txt; EvInsertIssued subject name]
      /\ fs (snd (run_steps (firstn 1 steps) w)) !! txt = Some transcription
  | _ => trace (snd run) = trace w /\ store (snd run) = store w
  end
  /\ (forall k, (k <= 1)%nat ->
        let crashed := snd (run_steps (firstn k steps) w) in
        store crashed = store w /\ has_record (store crashed) subject name = false)
  /\ (forall e, insert_error env subject name = Some e -> store (snd run) = store w)
  /\ (forall env' w' folder files,
         store w' = store w ->
         recording_folder env' subject = Some folder ->
         drive_list env' folder = Ok files ->
         (forall f, In f files -> find_error env' subject (file_name f) = None) ->
         In file files ->
         exists added,
           trace (snd (process_subject env' subject w')) = trace w' ++ added
           /\ In (EvDownloadAttempt (file_id file) (temp_video_of name)) added).
Proof.
  intros Hrec. cbv zeta. rewrite process_transcribed_video_run. cbn [snd].
  split; [|split; [|split]].
  - destruct (artifact_write env (txt_name_of (file_name file))) eqn:Hw;
      [|split; reflexivity..].
    split; [reflexivity|].
    unfold persist_steps, run_steps, for_each. cbn [firstn foldM].
    unfold mbind at 1, M_bind at 1. rewrite write_transcript_run, Hw. cbn.
    apply lookup_insert_eq.
  - intros k Hk. rewrite (crash_before_insert env subject file transcription w k Hk).
    split; [reflexivity | exact Hrec].
  - intros e He. rewrite He.
    destruct (artifact_write env (txt_name_of (file_name file))); reflexivity.
  - intros env' w' folder files Hstore Hfolder Hlist Hno Hin.
    eapply pending_video_is_downloaded; eauto. now rewrite Hstore.
Qed.

Lemma write_before_mark_witness :
  let run := process_transcribed_video sample_env "math" lec1 "temp_lec1.mp4"
                                       "Hello there." empty_world in
  trace (snd run)
  = [EvArtifactWritten "lec1.mp4_transcript.txt"; EvInsertIssued "math" "lec1.mp4"]
  /\ store (snd (run_steps (firstn 1 (persist_steps sample_env "math" lec1 "Hello there."))
                           empty_world)) = [].
Proof.
  destruct (write_before_mark sample_env "math" lec1 "temp_lec1.mp4" "Hello there."
              empty_world eq_refl) as (Horder & Hcrash & _).
  cbv zeta. split.
  - exact (proj1 Horder).
  - exact (proj1 (Hcrash 1%nat (le_n 1))).
Defined.

(** ** Cleaning up the downloaded files *)

Lemma remove_if_exists_run (p : string) (w : World) :
  fst (remove_if_exists p w) = Ok tt
  /\ fs (snd (remove_if_exists p w)) = delete p (fs w)
  /\ store (snd (remove_if_exists p w)) = store w.
Proof.
  destruct (fs w !! p) as [c|] eqn:Hp.
  - rewrite (remove_if_exists_some p c w Hp). repeat split.
  - rewrite (remove_if_exists_none p w Hp). repeat split.
    symmetry. now apply delete_id.
Qed.

(** The loops at lines 249-251 and 275-277 remove every file recorded in
    [downloaded_videos], and create none. *)
Lemma cleanup_removes (items : list (string * Info)) (w : World) :
  fst (cleanup items w) = Ok tt
  /\ (forall item, In item items -> fs (snd (cleanup items w)) !! temp_path (snd item) = None)
  /\ (forall p, fs w !! p = None -> fs (snd (cleanup items w)) !! p = None).
Proof.
  unfold cleanup, for_each. revert w.
  induction items as [|item items IH]; intros w; cbn [foldM].
  - repeat split; auto. intros item [].
  - destruct (remove_if_exists_run (temp_path (snd item)) w) as (Hok & Hfs & _).
    destruct (remove_if_exists (temp_path (snd item)) w) as [r w1] eqn:Hrun.
    cbn [fst snd] in Hok, Hfs. subst r.
    erewrite bind_ok by exact Hrun.
    destruct (IH w1) as (Hr & Hgone & Hkeep).
    split; [exact Hr|]. split.
    + intros it [<-|Hin]; [|now apply Hgone].
      apply Hkeep. rewrite Hfs. apply lookup_delete_eq.
    + intros p Hp. apply Hkeep. rewrite Hfs.
      destruct (decide (temp_path (snd item) = p)) as [->|Hne];
        [apply lookup_delete_eq | now rewrite lookup_delete_ne].
Qed.

(** C3, at two failing inputs.  First: the three download attempts of
    [lec1.mp4] fail after the temp file was opened; the run ends with "no
    videos were successfully downloaded" and the empty temp file is still
    there.  Second: the download succeeds and [os.cpu_count()] answers
    [None]; the pool raises, the run is aborted by the outer handler, and
    the downloaded temp file is still there. *)
Theorem temp_files_left_behind :
  (let run := process_subject failing_download_env "math" empty_world in
   fst run = Ok tt
   /\ count_events is_download (trace (snd run)) = 3%nat
   /\ In (EvLog (NoVideosDownloaded "math")) (trace (snd run))
   /\ fs (snd run) !! "temp_lec1.mp4" = Some EmptyString)
  /\ (let run := process_subject no_cpu_count_env "math" empty_world in
      fst run = Ok tt
      /\ In (EvDownloadAttempt "id1" "temp_lec1.mp4") (trace (snd run))
      /\ In (EvLog (ErrorProcessingSubject "math" "TypeError")) (trace (snd run))
      /\ fs (snd run) !! "temp_lec1.mp4" = Some "video-bytes").
Proof. vm_compute. repeat split; tauto. Qed.

(** * Further properties of the code *)

(** ** The error classifier and the transcript format *)

Lemma append_cons (c : ascii) (a b : string) : String c a +:+ b = String c (a +:+ b).
Proof. reflexivity. Qed.

Lemma prefix_iff (n h : string) :
  String.prefix n h = true <-> exists b, h = n +:+ b.
Proof.
  revert h. induction n as [|c n IH]; intros h.
  - split; [intros _; now exists h | intros _; now destruct h].
  - destruct h as [|d h]; cbn.
    + split; [discriminate | intros [b Hb]; discriminate Hb].
    + destruct (ascii_dec c d) as [->|Hne].
      * rewrite IH. split; intros [b Hb]; exists b.
        -- now rewrite append_cons, <- Hb.
        -- rewrite append_cons in Hb. now injection Hb.
      * split; [discriminate|]. intros [b Hb]. rewrite append_cons in Hb.
        injection Hb as Hcd _. congruence.
Qed.

Lemma contains_iff (n h : string) :
  Str.contains n h = true <-> exists a b, h = a +:+ n +:+ b.
Proof.
  split.
  - induction h as [|c h IH]; cbn [Str.contains]; intros H;
      apply orb_true_iff in H as [H|H].
    + apply prefix_iff in H as [b ->]. now exists EmptyString, b.
    + discriminate.
    + apply prefix_iff in H as [b ->]. now exists EmptyString, b.
    + destruct (IH H) as (a & b & ->). now exists (String c a), b.
  - intros (a & b & ->). induction a as [|c a IH].
    + change (EmptyString +:+ n +:+ b) with (n +:+ b).
      assert (Hp : String.prefix n (n +:+ b) = true) by (apply prefix_iff; now exists b).
      destruct (n +:+ b); cbn [Str.contains]; now rewrite Hp.
    + rewrite append_cons. cbn [Str.contains]. rewrite IH. apply orb_true_r.
Qed.

(** X1.  The fallback is chosen exactly for the messages that have "reshape
    tensor" or "Linear" somewhere inside them, whatever surrounds the
    marker. *)
Theorem shape_error_iff_marker (e : Exn) :
  is_shape_error e = true
  <-> exists a b, e = a +:+ "reshape tensor" +:+ b \/ e = a +:+ "Linear" +:+ b.
Proof.
  unfold is_shape_error. rewrite orb_true_iff, !contains_iff. split.
  - intros [(a & b & H)|(a & b & H)]; exists a, b; auto.
  - intros (a & b & [H|H]); [left | right]; now exists a, b.
Qed.

Lemma count_line_breaks_app (a b : string) :
  count_line_breaks (a +:+ b) = (count_line_breaks a + count_line_breaks b)%nat.
Proof.
  induction a as [|c a IH]; [reflexivity|].
  rewrite append_cons. cbn [count_line_breaks]. rewrite IH. lia.
Qed.

(** X2.  Formatting distributes over a split of the segment list, and when
    no stripped segment text holds a line break of its own, the text for the
    primary model has exactly one line break per segment and the text for the
    fallback model two. *)
Theorem format_segments_lines (ending : string) (s1 s2 : list string) :
  format_segments ending (s1 ++ s2)
  = format_segments ending s1 +:+ format_segments ending s2
  /\ ((forall t, In t (s1 ++ s2) -> count_line_breaks (Str.strip t) = 0%nat) ->
      count_line_breaks (format_segments ending (s1 ++ s2))
      = (length (s1 ++ s2) * count_line_breaks ending)%nat).
Proof.
  split.
  - rewrite (format_segments_joined ending s2).
    unfold format_segments. rewrite fold_left_app.
    apply fold_format_acc.
  - generalize (s1 ++ s2). intros l Hl. rewrite format_segments_joined.
    unfold joined_segments. induction l as [|t l IH]; [reflexivity|].
    cbn [map]. rewrite concat_empty_cons, !count_line_breaks_app, IH.
    + rewrite (Hl t (or_introl eq_refl)). cbn. lia.
    + intros t' Ht'. apply Hl. now right.
Qed.

Lemma format_segments_lines_witness :
  count_line_breaks (format_segments nl ([" one "] ++ ["two "; " three"])) = 3%nat.
Proof.
  destruct (format_segments_lines nl [" one "] ["two "; " three"]) as [_ H].
  rewrite H; [reflexivity|].
  intros t [<-|[<-|[<-|[]]]]; reflexivity.
Defined.

(** ** The size of the pool *)

(** X3.  With at least one processor the pool gets between one and three
    workers: one worker for one or two processors, one less than the number of
    processors after that, and never more than three. *)
Theorem pool_size_bounds (env : Env) (n : Z) (w : World) :
  cpu_count env = Some n -> 1 <= n ->
  exists k, max_workers env w = (Ok k, w)
            /\ 1 <= k <= 3
            /\ k = Z.max 1 (Z.min (n - 1) 3).
Proof.
  intros Hn Hpos. unfold max_workers. rewrite Hn.
  eexists. split; [reflexivity|].
  destruct (n - 1 =? 0) eqn:E; [apply Z.eqb_eq in E | apply Z.eqb_neq in E]; lia.
Qed.

Lemma pool_size_bounds_witness :
  max_workers sample_env empty_world = (Ok 3, empty_world).
Proof.
  destruct (pool_size_bounds sample_env 8 empty_world eq_refl ltac:(lia))
    as (k & Hrun & _ & Hk).
  rewrite Hrun, Hk. reflexivity.
Defined.

(** X4.  When the number of processors is unknown, the pool raises before
    any video is looked at: nothing is transcribed and the world is as it
    was. *)
Theorem pool_without_cpu_count (env : Env) (paths : list string) (w : World) :
  cpu_count env = None ->
  transcribe_multiple_videos env paths w = (Raise "TypeError", w).
Proof.
  intros Hn. unfold transcribe_multiple_videos, max_workers. rewrite Hn. reflexivity.
Qed.

Lemma pool_without_cpu_count_witness :
  transcribe_multiple_videos no_cpu_count_env ["temp_lec1.mp4"] one_video_world
  = (Raise "TypeError", one_video_world).
Proof. exact (pool_without_cpu_count no_cpu_count_env _ one_video_world eq_refl). Defined.

(** ** The transcriber as a whole *)

Lemma fs_after_extract_other (out : option string) (a p : string) (f : gmap string string) :
  p <> a -> fs_after_extract out a f !! p = f !! p.
Proof.
  intros Hne. destruct out as [c|]; [|reflexivity].
  cbn. now rewrite lookup_insert_ne.
Qed.

(** X5.  The transcriber never raises to its caller.  It leaves the store
    alone, and the only file it can create, change or remove is the audio
    file derived from the name of the video. *)
Theorem transcriber_total (env : Env) (v : string) (w : World) :
  exists r w',
    transcribe_with_ffmpeg_preprocessing env v w = (Ok r, w')
    /\ store w' = store w
    /\ forall p, p <> audio_path_of v -> fs w' !! p = fs w !! p.
Proof.
  destruct (ffmpeg env v) as [out|out e] eqn:Hf.
  - destruct (fs (after_extract out v w) !! audio_path_of v) as [c|] eqn:Hfile.
    + destruct (Str.is_empty c) eqn:Hc.
      * destruct c; [|discriminate].
        rewrite (transcribe_extract_empty _ _ _ _ Hf Hfile).
        eexists _, _. split; [reflexivity|]. split; [reflexivity|].
        intros p Hp. cbn. now apply fs_after_extract_other.
      * rewrite (transcribe_extract_ok _ _ _ _ _ Hf Hfile Hc).
        destruct (primary_total env _ _ _ Hfile) as (r & w' & -> & Hfs & Hst).
        exists r, w'. split; [reflexivity|]. split; [exact Hst|].
        intros p Hp. rewrite Hfs, lookup_delete_ne by congruence.
        cbn. now apply fs_after_extract_other.
    + rewrite (transcribe_extract_none _ _ _ _ Hf Hfile).
      eexists _, _. split; [reflexivity|]. split; [reflexivity|].
      intros p Hp. cbn. now apply fs_after_extract_other.
  - rewrite (transcribe_extract_error _ _ _ _ _ Hf).
    destruct (remove_if_exists_run (audio_path_of v) (after_extract out v w))
      as (Hok & Hfs & Hst).
    destruct (remove_if_exists (audio_path_of v) (after_extract out v w)) as [r w'] eqn:Hrun.
    cbn [fst snd] in Hok, Hfs, Hst. subst r.
    erewrite bind_ok by exact Hrun.
    eexists _, _. split; [reflexivity|]. split; [exact Hst|].
    intros p Hp. rewrite Hfs, lookup_delete_ne by congruence.
    cbn. now apply fs_after_extract_other.
Qed.

(** X6.  Unless ffmpeg exits normally over an audio file without content,
    no file is left at the audio path when the transcriber returns, whichever
    way it returns; a file that was already there before the call is removed
    as well. *)
Theorem transcriber_removes_audio (env : Env) (v : string) (w : World) :
  (forall out, ffmpeg env v = ExtractOk out ->
               fs (after_extract out v w) !! audio_path_of v <> Some EmptyString) ->
  fs (snd (transcribe_with_ffmpeg_preprocessing env v w)) !! audio_path_of v = None.
Proof. intros Hne. now apply audio_removed_unless_empty. Qed.

Lemma transcriber_removes_audio_witness :
  fs (snd (transcribe_with_ffmpeg_preprocessing sample_env "temp_lec1.mp4"
             (mkWorld {["temp_audio_temp_lec1.wav" := "stale"]} [] [])))
  !! "temp_audio_temp_lec1.wav" = None.
Proof.
  apply (transcriber_removes_audio sample_env "temp_lec1.mp4").
  intros out Hout. vm_compute in Hout. injection Hout as <-.
  vm_compute. discriminate.
Defined.

(** ** Edges of a subject's run *)

(** X7.  A subject without a [recording_folder_id] in the configuration is
    aborted with the key error: the drive is not asked for a listing, and
    files and store stay as they were. *)
Theorem missing_folder_key (env : Env) (subject : string) (w : World) :
  recording_folder env subject = None ->
  process_subject env subject w
  = (Ok tt, mkWorld (fs w) (store w)
                    (trace w ++ [EvLog (ErrorProcessingSubject subject "KeyError")])).
Proof.
  intros Hkey. unfold process_subject, process_subject_body, config_folder.
  rewrite Hkey. reflexivity.
Qed.

Lemma missing_folder_key_witness :
  process_subject partly_configured_env "art" empty_world
  = (Ok tt, mkWorld ∅ [] [EvLog (ErrorProcessingSubject "art" "KeyError")]).
Proof. exact (missing_folder_key partly_configured_env "art" empty_world eq_refl). Defined.

(** X8.  A subject whose folder lists no video ends after the listing: the
    store is not consulted, nothing is downloaded, and files and store stay as
    they were. *)
Theorem empty_listing (env : Env) (subject folder : string) (w : World) :
  recording_folder env subject = Some folder ->
  drive_list env folder = Ok [] ->
  process_subject env subject w
  = (Ok tt, mkWorld (fs w) (store w)
                    (trace w ++ [EvListing folder; EvLog (NoVideosFound subject)])).
Proof.
  intros Hfolder Hlist.
  unfold process_subject, process_subject_body, config_folder, list_files.
  rewrite Hfolder. unfold_monad. cbn. rewrite Hlist. cbn.
  unfold set_trace. cbn. now rewrite <- app_assoc.
Qed.

Lemma empty_listing_witness :
  process_subject partly_configured_env "math" empty_world
  = (Ok tt, mkWorld ∅ [] [EvListing "folder_math"; EvLog (NoVideosFound "math")]).
Proof.
  exact (empty_listing partly_configured_env "math" "folder_math" empty_world
                       eq_refl eq_refl).
Defined.

(** ** Persisting, checking and downloading one video *)

(** X9.  Persisting a transcript never raises.  It adds at most one record,
    the one of its own video, and only when the transcript file holds the
    whole text; the transcript file is the only file it can touch. *)
Theorem record_implies_artifact (env : Env) (subject : string) (file : DriveFile)
    (temp transcription : string) (w : World) :
  let name := file_name file in
  let txt := txt_name_of name in
  let run := process_transcribed_video env subject file temp transcription w in
  fst run = Ok tt
  /\ (store (snd run) = store w
      \/ (store (snd run) = store w ++ [(subject, name)]
          /\ fs (snd run) !! txt = Some transcription))
  /\ (forall p, p <> txt -> fs (snd run) !! p = fs w !! p).
Proof.
  cbv zeta. rewrite process_transcribed_video_run. cbn [fst snd].
  split; [reflexivity|].
  destruct (artifact_write env (txt_name_of (file_name file))) as [|e|written e].
  - split.
    + destruct (insert_error env subject (file_name file)); [now left | right].
      split; [reflexivity | apply lookup_insert_eq].
    + intros p Hp. cbn. now rewrite lookup_insert_ne.
  - split; [now left | reflexivity].
  - split; [now left|]. intros p Hp. cbn. now rewrite lookup_insert_ne.
Qed.

(** X10.  A path whose file is missing or empty is passed over by the pool:
    ffmpeg is not run for it, the result mapping is unchanged, and so is the
    world. *)
Theorem missing_video_is_skipped (env : Env) (v : string) (w : World)
    (results : gmap string string) :
  fs w !! v = None \/ fs w !! v = Some EmptyString ->
  collect_result env results v w = (Ok results, w).
Proof.
  intros Hv. unfold collect_result.
  assert (Hcheck : exists_nonempty v w = (Ok false, w)).
  { destruct Hv as [Hv|Hv];
      [now apply exists_nonempty_none | now rewrite (exists_nonempty_some _ _ _ Hv)]. }
  assert (Hrun : transcribe_with_progress env v w = (Ok (v, None), w)).
  { unfold transcribe_with_progress. apply try_ok.
    erewrite bind_ok by exact Hcheck. reflexivity. }
  erewrite bind_ok by exact Hrun. reflexivity.
Qed.

Lemma missing_video_is_skipped_witness :
  collect_result sample_env ∅ "temp_gone.mp4" one_video_world = (Ok ∅, one_video_world).
Proof.
  apply (missing_video_is_skipped sample_env "temp_gone.mp4" one_video_world ∅).
  left. vm_compute. reflexivity.
Defined.

Lemma fetch_to_frame (env : Env) (id t : string) (n : Z) (w : World) :
  store (snd (fetch_to env id t n w)) = store w
  /\ (forall q, q <> t -> fs (snd (fetch_to env id t n w)) !! q = fs w !! q)
  /\ (fst (fetch_to env id t n w) = Ok tt ->
      exists content, drive_fetch env id n = FetchOk content
                      /\ fs (snd (fetch_to env id t n w)) !! t = Some content).
Proof.
  rewrite fetch_to_run. destruct (drive_fetch env id n) as [e|partial e|content]; cbn.
  - repeat split; auto. discriminate.
  - split; [reflexivity|]. split; [|discriminate].
    intros q Hq. now rewrite lookup_insert_ne.
  - split; [reflexivity|]. split.
    + intros q Hq. now rewrite lookup_insert_ne.
    + intros _. exists content. split; [reflexivity | apply lookup_insert_eq].
Qed.

Lemma download_loop_frame (env : Env) (n : nat) (id t : string) (w : World) :
  store (snd (download_loop env n id t w)) = store w
  /\ (forall q, q <> t -> fs (snd (download_loop env n id t w)) !! q = fs w !! q)
  /\ (forall p, fst (download_loop env n id t w) = Ok (Some p) ->
        exists attempt content,
          max_retries - Z.of_nat n <= attempt < max_retries
          /\ drive_fetch env id attempt = FetchOk content
          /\ fs (snd (download_loop env n id t w)) !! t = Some content).
Proof.
  revert w. induction n as [|n IH]; intros w.
  - cbn. repeat split; auto. discriminate.
  - cbn [download_loop].
    set (rc := max_retries - Z.of_nat (S n)).
    destruct (fetch_to_frame env id t rc w) as (Hst & Hfs & Hok).
    destruct (fetch_to env id t rc w) as [[[]|e] w1] eqn:Hfetch; cbn [fst snd] in *.
    + erewrite try_ok by (erewrite bind_ok by exact Hfetch; reflexivity).
      cbn [fst snd]. split; [exact Hst|]. split; [exact Hfs|].
      intros p _. destruct (Hok eq_refl) as (content & Hdrive & Hfile).
      exists rc, content. split; [unfold rc; lia | now split].
    + erewrite try_raise by (erewrite bind_raise by exact Hfetch; reflexivity).
      destruct (rc + 1 <? max_retries) eqn:Hlt.
      * erewrite bind_ok by reflexivity.
        set (w2 := set_trace _ w1).
        destruct (IH w2) as (Hst2 & Hfs2 & Hok2).
        split; [now rewrite Hst2|]. split.
        -- intros q Hq. rewrite (Hfs2 q Hq). cbn. now apply Hfs.
        -- intros p Hp. destruct (Hok2 p Hp) as (attempt & content & Hrange & Hrest).
           exists attempt, content. split; [unfold rc in *; lia | exact Hrest].
      * unfold raise. cbn. split; [exact Hst|]. split; [exact Hfs | discriminate].
Qed.

(** X11.  A download leaves the store alone and touches no file but its own
    temp file.  When it returns a path, that path is the temp file, and the
    file holds what one of the three attempts fetched in full. *)
Theorem download_postcondition (env : Env) (id name : string) (w : World) :
  let run := download_video env id name w in
  let t := temp_video_of name in
  store (snd run) = store w
  /\ (forall q, q <> t -> fs (snd run) !! q = fs w !! q)
  /\ (forall p, fst run = Ok (Some p) ->
        p = t
        /\ exists attempt content,
             0 <= attempt < 3
             /\ drive_fetch env id attempt = FetchOk content
             /\ fs (snd run) !! t = Some content).
Proof.
  cbv zeta. unfold download_video.
  destruct (download_loop_frame env (Z.to_nat max_retries) id (temp_video_of name) w)
    as (Hst & Hfs & Hok).
  split; [exact Hst|]. split; [exact Hfs|].
  intros p Hp. split.
  - destruct (download_loop env (Z.to_nat max_retries) id (temp_video_of name) w)
      as [r w'] eqn:Hrun.
    cbn in Hp. subst r. eapply download_loop_path; eassumption.
  - destruct (Hok p Hp) as (attempt & content & Hrange & Hrest).
    exists attempt, content. split; [|exact Hrest].
    change (max_retries - Z.of_nat (Z.to_nat max_retries)) with 0 in Hrange.
    exact Hrange.
Qed.

(** ** Footprints of computations *)

Lemma within_refl (F : Footprint) (w : World) : within F w w.
Proof.
  repeat split.
  - exists []. now rewrite app_nil_r.
  - exists []. now rewrite app_nil_r.
Qed.

Lemma within_trans (F : Footprint) (w1 w2 w3 : World) :
  within F w1 w2 -> within F w2 w3 -> within F w1 w3.
Proof.
  intros ((a1 & Ht1 & Ha1) & (r1 & Hs1 & Hr1) & Hf1)
         ((a2 & Ht2 & Ha2) & (r2 & Hs2 & Hr2) & Hf2).
  repeat split.
  - exists (a1 ++ a2). rewrite Ht2, Ht1, app_assoc. split; [reflexivity|].
    apply Forall_app; now split.
  - exists (r1 ++ r2). rewrite Hs2, Hs1, app_assoc. split; [reflexivity|].
    apply Forall_app; now split.
  - intros p Hp. now rewrite Hf2, Hf1.
Qed.

Lemma within_weaken (F F' : Footprint) (w w' : World) :
  (forall e, may_emit F e -> may_emit F' e) ->
  (forall d, may_insert F d -> may_insert F' d) ->
  (forall p, may_touch F p -> may_touch F' p) ->
  within F w w' -> within F' w w'.
Proof.
  intros He Hi Ht ((a & Htr & Ha) & (r & Hst & Hr) & Hfs).
  repeat split.
  - exists a. split; [exact Htr|]. eapply Forall_impl; eauto.
  - exists r. split; [exact Hst|]. eapply Forall_impl; eauto.
  - intros p Hp. apply Hfs. intros Hp'. apply Hp. now apply Ht.
Qed.

Lemma within_no_insert (F : Footprint) (w w' : World) :
  within (no_insert F) w w' -> within F w w' /\ store w' = store w.
Proof.
  intros H. split.
  - revert H. apply within_weaken; cbn; tauto.
  - destruct H as (_ & (r & Hst & Hr) & _). destruct r as [|d r].
    + now rewrite app_nil_r in Hst.
    + apply Forall_cons in Hr as [[] _].
Qed.

Section FootprintRules.

Context (F : Footprint).

Lemma within_ret {A} (a : A) : Within F (mret a : M A).
Proof. intros w. apply within_refl. Qed.

Lemma within_raise {A} (e : Exn) : Within F (raise e : M A).
Proof. intros w. apply within_refl. Qed.

Lemma within_emit (e : Event) : may_emit F e -> Within F (emit e).
Proof.
  intros He w. repeat split.
  - exists [e]. split; [reflexivity | now constructor].
  - exists []. now rewrite app_nil_r.
Qed.

Lemma within_bind {A B} (m : M A) (k : A -> M B) :
  Within F m -> (forall a, Within F (k a)) -> Within F (m ≫= k).
Proof.
  intros Hm Hk w. specialize (Hm w). unfold mbind, M_bind.
  destruct (m w) as [[a|e] w1]; [|exact Hm].
  eapply within_trans; [exact Hm | apply Hk].
Qed.

Lemma within_try {A} (m : M A) (h : Exn -> M A) :
  Within F m -> (forall e, Within F (h e)) -> Within F (try_except m h).
Proof.
  intros Hm Hh w. specialize (Hm w). unfold try_except.
  destruct (m w) as [[a|e] w1]; [exact Hm|].
  eapply within_trans; [exact Hm | apply Hh].
Qed.

Lemma within_run_task {A} (m : M A) : Within F m -> Within F (run_task m).
Proof.
  intros Hm w. specialize (Hm w). unfold run_task.
  destruct (m w) as [r w1]. exact Hm.
Qed.

Lemma within_await {A} (r : Res A) : Within F (await r).
Proof. destruct r; [apply within_ret | apply within_raise]. Qed.

Lemma within_foldM {A S} (body : S -> A -> M S) (l : list A) (s0 : S) :
  (forall s x, In x l -> Within F (body s x)) -> Within F (foldM body l s0).
Proof.
  revert s0. induction l as [|x l IH]; intros s0 Hb; cbn [foldM].
  - apply within_ret.
  - apply within_bind; [apply Hb; now left | intros s'].
    apply IH. intros s y Hy. apply Hb. now right.
Qed.

Lemma within_for_each {A} (l : list A) (body : A -> M unit) :
  (forall x, In x l -> Within F (body x)) -> Within F (for_each l body).
Proof. intros Hb. apply within_foldM. intros _ x Hx. now apply Hb. Qed.

Lemma within_mapM {A B} (f : A -> M B) (l : list A) :
  (forall x, In x l -> Within F (f x)) -> Within F (mapM f l).
Proof.
  induction l as [|x l IH]; intros Hf; cbn [mapM].
  - apply within_ret.
  - apply within_bind; [apply Hf; now left | intros y].
    apply within_bind; [|intros ys; apply within_ret].
    apply IH. intros z Hz. apply Hf. now right.
Qed.

Lemma within_reader {A} (m : M A) :
  (forall w, snd (m w) = w) -> Within F m.
Proof. intros H w. rewrite H. apply within_refl. Qed.

Lemma within_path_exists (p : string) : Within F (path_exists p).
Proof. now apply within_reader. Qed.

Lemma within_getsize (p : string) : Within F (getsize p).
Proof.
  apply within_reader. intros w. unfold getsize. now destruct (fs w !! p).
Qed.

Lemma within_exists_nonempty (p : string) : Within F (exists_nonempty p).
Proof.
  unfold exists_nonempty. apply within_bind; [apply within_path_exists|].
  intros [|]; [|apply within_ret].
  apply within_bind; [apply within_getsize | intros sz; apply within_ret].
Qed.

Lemma within_write_file (p c : string) : may_touch F p -> Within F (write_file p c).
Proof.
  intros Hp w. repeat split.
  - exists []. now rewrite app_nil_r.
  - exists []. now rewrite app_nil_r.
  - intros q Hq. cbn. apply lookup_insert_ne. intros ->. contradiction.
Qed.

Lemma within_os_remove (p : string) :
  may_touch F p -> may_emit F (EvRemove p) -> Within F (os_remove p).
Proof.
  intros Hp He w. unfold os_remove. destruct (fs w !! p); [|apply within_refl].
  repeat split.
  - exists [EvRemove p]. split; [reflexivity | now constructor].
  - exists []. now rewrite app_nil_r.
  - intros q Hq. cbn. apply lookup_delete_ne. intros ->. contradiction.
Qed.

Lemma within_remove_if_exists (p : string) :
  may_touch F p -> may_emit F (EvRemove p) -> Within F (remove_if_exists p).
Proof.
  intros Hp He. unfold remove_if_exists.
  apply within_bind; [apply within_path_exists|].
  intros [|]; [now apply within_os_remove | apply within_ret].
Qed.

End FootprintRules.

(** Case analysis on a run, for any property of the world it ends in. *)
Lemma bind_cases {A B} (G : World -> Prop) (m : M A) (k : A -> M B) (w : World) :
  (forall e w1, m w = (Raise e, w1) -> G w1) ->
  (forall a w1, m w = (Ok a, w1) -> G (snd (k a w1))) ->
  G (snd ((m ≫= k) w)).
Proof.
  intros Hr Ho. unfold mbind, M_bind.
  destruct (m w) as [[a|e] w1]; [now apply Ho | now apply (Hr e)].
Qed.

Lemma try_cases {A} (G : World -> Prop) (m : M A) (h : Exn -> M A) (w : World) :
  G (snd (m w)) ->
  (forall e w1, m w = (Raise e, w1) -> G w1 -> G (snd (h e w1))) ->
  G (snd (try_except m h w)).
Proof.
  intros Hm Hh. unfold try_except.
  destruct (m w) as [[a|e] w1]; [exact Hm | now apply (Hh e)].
Qed.

Create HintDb frame.

#[export] Hint Resolve within_ret within_raise within_emit within_run_task within_await
  within_path_exists within_getsize within_exists_nonempty within_write_file
  within_os_remove within_remove_if_exists : frame.

#[export] Hint Extern 2 (Within _ (_ ≫= _)) => apply within_bind; [|intros ?] : frame.
#[export] Hint Extern 2 (Within _ (try_except _ _)) => apply within_try; [|intros ?] : frame.
#[export] Hint Extern 4 (Within _ (match ?x with _ => _ end)) => destruct x : frame.

Ltac frame := auto 30 with frame.

Section ComponentFootprints.

Context (F : Footprint) (env : Env).

Lemma within_fetch_to (id t : string) (n : Z) :
  may_emit F (EvDownloadAttempt id t) -> may_touch F t ->
  Within F (fetch_to env id t n).
Proof. intros He Ht. unfold fetch_to. frame. Qed.

Lemma within_download_video (id name : string) :
  may_emit F (EvDownloadAttempt id (temp_video_of name)) ->
  may_emit F (EvSleep 2) -> may_emit F (EvSleep 4) ->
  may_touch F (temp_video_of name) ->
  Within F (download_video env id name).
Proof.
  intros He H2 H4 Ht. unfold download_video.
  change (Z.to_nat max_retries) with 3%nat. cbn [download_loop].
  change (max_retries - Z.of_nat 3) with 0.
  change (max_retries - Z.of_nat 2) with 1.
  change (max_retries - Z.of_nat 1) with 2.
  change (0 + 1 <? max_retries) with true.
  change (1 + 1 <? max_retries) with true.
  change (2 + 1 <? max_retries) with false.
  change (2 ^ (0 + 1)) with 2. change (2 ^ (1 + 1)) with 4.
  cbv iota. unfold sleep.
  pose proof (within_fetch_to id (temp_video_of name) 0 He Ht).
  pose proof (within_fetch_to id (temp_video_of name) 1 He Ht).
  pose proof (within_fetch_to id (temp_video_of name) 2 He Ht).
  frame.
Qed.

Lemma within_transcribe (v : string) :
  may_emit F (EvExtract v (audio_path_of v)) ->
  may_emit F (EvPrimary (audio_path_of v)) ->
  may_emit F EvFallbackLoad ->
  may_emit F (EvFallback (audio_path_of v)) ->
  may_emit F (EvRemove (audio_path_of v)) ->
  may_touch F (audio_path_of v) ->
  Within F (transcribe_with_ffmpeg_preprocessing env v).
Proof.
  intros He Hp Hl Hb Hr Ht.
  unfold transcribe_with_ffmpeg_preprocessing, transcribe_primary, transcribe_fallback,
    run_ffmpeg, leave_output, model_transcribe, whisper_load_base, base_model_transcribe.
  frame.
Qed.

Lemma within_collect_result (results : gmap string string) (v : string) :
  may_emit F (EvExtract v (audio_path_of v)) ->
  may_emit F (EvPrimary (audio_path_of v)) ->
  may_emit F EvFallbackLoad ->
  may_emit F (EvFallback (audio_path_of v)) ->
  may_emit F (EvRemove (audio_path_of v)) ->
  may_touch F (audio_path_of v) ->
  Within F (collect_result env results v).
Proof.
  intros He Hp Hl Hb Hr Ht.
  pose proof (within_transcribe v He Hp Hl Hb Hr Ht).
  unfold collect_result, transcribe_with_progress. frame.
Qed.

Lemma within_insert_one (subject name : string) :
  may_emit F (EvInsertIssued subject name) -> may_insert F (subject, name) ->
  Within F (insert_one env subject name).
Proof.
  intros He Hi. unfold insert_one. apply within_bind; [frame|]. intros _.
  destruct (insert_error env subject name); [frame|].
  intros w. repeat split.
  - exists []. now rewrite app_nil_r.
  - exists [(subject, name)]. split; [reflexivity | now constructor].
Qed.

Lemma within_process_transcribed_video (subject : string) (file : DriveFile)
    (temp transcription : string) :
  may_emit F (EvArtifactWritten (txt_name_of (file_name file))) ->
  may_emit F (EvInsertIssued subject (file_name file)) ->
  may_insert F (subject, file_name file) ->
  may_touch F (txt_name_of (file_name file)) ->
  Within F (process_transcribed_video env subject file temp transcription).
Proof.
  intros Hw He Hi Ht.
  pose proof (within_insert_one subject (file_name file) He Hi).
  unfold process_transcribed_video, run_steps, persist_steps, for_each, write_transcript.
  cbn [foldM]. frame.
Qed.

End ComponentFootprints.

(** ** What the stages of a subject's run hand on *)

Lemma dict_set_keys {V} (k : string) (v : V) (d : list (string * V)) (x : string) :
  x ∈ map fst (dict_set k v d) <-> x = k \/ x ∈ map fst d.
Proof.
  induction d as [|[k' v'] d IH]; cbn [dict_set map fst].
  - rewrite list_elem_of_singleton. split; [auto|]. intros [H|H]; [exact H|].
    now apply elem_of_nil in H.
  - destruct (String.eqb_spec k' k) as [->|Hne]; cbn [map fst].
    + rewrite !elem_of_cons. tauto.
    + rewrite !elem_of_cons, IH. tauto.
Qed.

Lemma dict_set_NoDup {V} (k : string) (v : V) (d : list (string * V)) :
  NoDup (map fst d) -> NoDup (map fst (dict_set k v d)).
Proof.
  induction d as [|[k' v'] d IH]; cbn [dict_set map fst]; intros Hd.
  - apply NoDup_singleton.
  - apply NoDup_cons in Hd as [Hk' Hd].
    destruct (String.eqb_spec k' k) as [->|Hne]; cbn [map fst].
    + now apply NoDup_cons.
    + apply NoDup_cons. split; [|now apply IH].
      rewrite dict_set_keys. intros [->|H]; [congruence | contradiction].
Qed.

Lemma dict_set_items {V} (k : string) (v : V) (d : list (string * V)) (item : string * V) :
  In item (dict_set k v d) -> item = (k, v) \/ In item d.
Proof.
  induction d as [|[k' v'] d IH]; cbn [dict_set].
  - intros [<-|[]]. now left.
  - destruct (String.eqb_spec k' k) as [->|Hne]; cbn [In].
    + intros [<-|H]; [now left | right; now right].
    + intros [<-|H]; [right; now left|]. destruct (IH H); [now left | right; now right].
Qed.

Lemma config_folder_inv (env : Env) (subject : string) (w w1 : World) (r : Res string) :
  config_folder env subject w = (r, w1) ->
  w1 = w /\ forall folder, r = Ok folder -> recording_folder env subject = Some folder.
Proof.
  unfold config_folder. destruct (recording_folder env subject) as [folder|];
    intros [= <- <-]; split; auto; congruence.
Qed.

Lemma list_files_inv (env : Env) (folder : string) (w w1 : World) (r : Res (list DriveFile)) :
  list_files env folder w = (r, w1) ->
  w1 = mkWorld (fs w) (store w) (trace w ++ [EvListing folder])
  /\ forall files, r = Ok files -> drive_list env folder = Ok files.
Proof.
  unfold list_files. unfold_monad. cbn.
  destruct (drive_list env folder) as [files|e]; intros [= <- <-]; split; auto; congruence.
Qed.

(** The filtering loop only logs the videos it passes over, and what it
    adds to the list are videos of the listing that have no record. *)
Lemma filter_result (env : Env) (subject : string) (files acc : list DriveFile)
    (w w1 : World) (r : Res (list DriveFile)) :
  foldM (filter_step env subject) files acc w = (r, w1) ->
  fs w1 = fs w /\ store w1 = store w
  /\ (exists skips,
         trace w1 = trace w ++ skips
         /\ Forall (fun e => exists f, In f files /\ e = EvSkipping (file_name f)
                                       /\ has_record (store w) subject (file_name f) = true)
                   skips)
  /\ (forall acc', r = Ok acc' ->
        forall f, In f acc' ->
                  In f acc \/ (In f files
                               /\ has_record (store w) subject (file_name f) = false)).
Proof.
  revert acc w. induction files as [|file files IH]; intros acc w; cbn [foldM].
  - intros [= <- <-]. repeat split; auto.
    + exists []. now rewrite app_nil_r.
    + intros acc' [= <-] f Hf. now left.
  - destruct (find_error env subject (file_name file)) as [e|] eqn:Hfind.
    { erewrite bind_raise by (apply filter_step_error; eassumption).
      intros [= <- <-]. repeat split; auto.
      - exists []. now rewrite app_nil_r.
      - discriminate. }
    destruct (has_record (store w) subject (file_name file)) eqn:Hrec.
    + erewrite bind_ok by (apply filter_step_done; assumption).
      intros Hrun. apply IH in Hrun as (Hfs & Hst & (skips & Htr & Hsk) & Hacc).
      cbn [fs store trace] in Hfs, Hst, Htr, Hsk, Hacc. repeat split; auto.
      * exists (EvSkipping (file_name file) :: skips).
        rewrite Htr, <- app_assoc. split; [reflexivity|]. constructor.
        -- exists file. repeat split; auto. now left.
        -- eapply Forall_impl; [exact Hsk|]. intros e (f & Hf & He & Hr).
           exists f. repeat split; auto. now right.
      * intros acc' Hr f Hf. destruct (Hacc acc' Hr f Hf) as [H|[H1 H2]]; [now left|].
        right. split; [now right | exact H2].
    + erewrite bind_ok by (apply filter_step_pending; assumption).
      intros Hrun. apply IH in Hrun as (Hfs & Hst & (skips & Htr & Hsk) & Hacc).
      repeat split; auto.
      * exists skips. split; [exact Htr|].
        eapply Forall_impl; [exact Hsk|]. intros e (f & Hf & He & Hr).
        exists f. repeat split; auto. now right.
      * intros acc' Hr f Hf. destruct (Hacc acc' Hr f Hf) as [H|[H1 H2]].
        -- apply in_app_or in H as [H|[<-|[]]]; [now left|].
           right. split; [now left | exact Hrec].
        -- right. split; [now right | exact H2].
Qed.

(** The download tasks are those of the given files, in order, and a task
    that returns a path returns the temp path of its file. *)
Lemma downloads_result (env : Env) (l : list DriveFile) (w w1 : World)
    (r : Res (list (DriveFile * Res (option string)))) :
  mapM (start_download env) l w = (r, w1) ->
  exists tasks,
    r = Ok tasks
    /\ forall entry, In entry tasks ->
         In (fst entry) l
         /\ forall p, snd entry = Ok (Some p) -> p = temp_video_of (file_name (fst entry)).
Proof.
  revert w w1 r. induction l as [|file l IH]; intros w w1 r; cbn [mapM].
  - intros [= <- <-]. exists []. split; [reflexivity | intros entry []].
  - erewrite bind_ok by apply start_download_run.
    destruct (mapM (start_download env) l
                (snd (download_video env (file_id file) (file_name file) w)))
      as [r2 w2] eqn:Hrest.
    destruct (IH _ _ _ Hrest) as (tasks & -> & Htasks).
    erewrite bind_ok by exact Hrest. intros [= <- <-].
    eexists. split; [reflexivity|]. intros entry [<-|Hin]; cbn [fst snd].
    + split; [now left|]. intros p Hp.
      destruct (download_video env (file_id file) (file_name file) w) as [r0 w0] eqn:Hdl.
      cbn in Hp. subst r0. unfold download_video in Hdl.
      eapply download_loop_path; eassumption.
    + destruct (Htasks entry Hin) as [H1 H2]. split; [now right | exact H2].
Qed.

Lemma exists_nonempty_reads (p : string) (w : World) :
  exists b, exists_nonempty p w = (Ok b, w).
Proof.
  destruct (fs w !! p) as [c|] eqn:Hp.
  - eexists. apply exists_nonempty_some. exact Hp.
  - eexists. apply exists_nonempty_none. exact Hp.
Qed.

(** Collecting the outcomes of the downloads reads the file system and
    nothing else; it never raises, and it keeps [downloaded_videos] well
    formed. *)
Lemma collect_downloads_result (l : list DriveFile)
    (tasks : list (DriveFile * Res (option string))) (dv : list (string * Info))
    (w : World) :
  (forall entry, In entry tasks ->
     In (fst entry) l
     /\ forall p, snd entry = Ok (Some p) -> p = temp_video_of (file_name (fst entry))) ->
  dv_ok l dv ->
  exists dv', foldM collect_download tasks dv w = (Ok dv', w) /\ dv_ok l dv'.
Proof.
  revert dv. induction tasks as [|[file task] tasks IH]; intros dv Htasks Hdv; cbn [foldM].
  - now exists dv.
  - assert (Hstep : exists dv1, collect_download dv (file, task) w = (Ok dv1, w)
                                /\ dv_ok l dv1).
    { destruct (Htasks (file, task) (or_introl eq_refl)) as [Hin Hpath].
      cbn [fst snd] in Hin, Hpath. unfold collect_download. cbn [fst snd].
      destruct task as [[tp|]|e].
      - destruct (exists_nonempty_reads tp w) as ([|] & Hex).
        + eexists. split.
          * apply try_ok. erewrite bind_ok by reflexivity. cbv beta iota.
            erewrite bind_ok by exact Hex. reflexivity.
          * destruct Hdv as [Hnd Hitems]. split; [now apply dict_set_NoDup|].
            intros item Hitem. apply dict_set_items in Hitem as [->|Hitem];
              [|now apply Hitems].
            cbn. repeat split; auto.
        + exists dv. split; [|exact Hdv].
          apply try_ok. erewrite bind_ok by reflexivity. cbv beta iota.
          erewrite bind_ok by exact Hex. reflexivity.
      - exists dv. split; [|exact Hdv].
        erewrite try_raise by (erewrite bind_ok by reflexivity; reflexivity). reflexivity.
      - exists dv. split; [|exact Hdv].
        erewrite try_raise by (erewrite bind_raise by reflexivity; reflexivity). reflexivity. }
    destruct Hstep as (dv1 & Hrun1 & Hdv1).
    erewrite bind_ok by exact Hrun1. apply IH; [|exact Hdv1].
    intros entry Hentry. apply Htasks. now right.
Qed.

Lemma persist_task_store (env : Env) (subject : string) (transcriptions : gmap string string)
    (item : string * Info) (w : World) :
  exists w',
    persist_task env subject transcriptions item w = (Ok tt, w')
    /\ (store w' = store w
        \/ store w' = store w ++ [(subject, file_name (info_file (snd item)))]).
Proof.
  unfold persist_task. destruct (transcriptions !! temp_path (snd item)) as [t|].
  - unfold run_task. unfold_monad.
    rewrite process_transcribed_video_run. eexists. split; [reflexivity|].
    destruct (artifact_write env (txt_name_of (file_name (info_file (snd item)))));
      cbn; auto.
    destruct (insert_error env subject (file_name (info_file (snd item)))); auto.
  - exists w. split; [reflexivity | now left].
Qed.

(** The persisting loop never raises; the records it adds are some of the
    records of the entries, in the order of the entries. *)
Lemma persist_loop_store (env : Env) (subject : string) (transcriptions : gmap string string)
    (dv : list (string * Info)) (w : World) :
  exists w' records,
    for_each dv (persist_task env subject transcriptions) w = (Ok tt, w')
    /\ store w' = store w ++ records
    /\ records `sublist_of`
         map (fun item => (subject, file_name (info_file (snd item)))) dv.
Proof.
  unfold for_each. revert w. induction dv as [|item dv IH]; intros w; cbn [foldM map].
  - exists w, []. rewrite app_nil_r. repeat split. constructor.
  - destruct (persist_task_store env subject transcriptions item w) as (w1 & Hrun & Hst).
    erewrite bind_ok by exact Hrun.
    destruct (IH w1) as (w' & records & Hrest & Hst' & Hsub).
    destruct Hst as [Hst|Hst].
    + exists w', records. split; [exact Hrest|]. split; [now rewrite Hst', Hst|].
      now apply sublist_cons.
    + exists w', ((subject, file_name (info_file (snd item))) :: records).
      split; [exact Hrest|]. split.
      * rewrite Hst', Hst, <- app_assoc. reflexivity.
      * now apply sublist_skip.
Qed.

Lemma dv_records_NoDup (subject : string) (l : list DriveFile) (dv : list (string * Info)) :
  dv_ok l dv ->
  NoDup (map (fun item => (subject, file_name (info_file (snd item)))) dv).
Proof.
  intros [Hnd Hitems]. induction dv as [|item dv IH]; cbn [map]; [constructor|].
  cbn [map] in Hnd. apply NoDup_cons in Hnd as [Hkey Hnd].
  apply NoDup_cons. split.
  - intros Hin. apply Hkey. apply list_elem_of_In, in_map_iff in Hin as (item' & Heq & Hin').
    injection Heq as Heq.
    destruct (Hitems item (or_introl eq_refl)) as (Hk & _).
    destruct (Hitems item' (or_intror Hin')) as (Hk' & _).
    apply list_elem_of_In, in_map_iff. exists item'. split; [congruence | exact Hin'].
  - apply IH; [exact Hnd|]. intros it Hit. apply Hitems. now right.
Qed.

(** ** The footprint of a subject's run *)

Section SubjectFrame.

Context (env : Env) (subject : string) (st0 : list (string * string)).

Let F : Footprint := subject_footprint env subject st0.
Let F0 : Footprint := no_insert F.

Lemma pending_temp (f : DriveFile) :
  pending env subject st0 f ->
  may_emit F0 (EvDownloadAttempt (file_id f) (temp_video_of (file_name f)))
  /\ may_touch F0 (temp_video_of (file_name f))
  /\ may_emit F0 (EvRemove (temp_video_of (file_name f))).
Proof.
  intros Hf. cbn. unfold video_path. repeat split; exists f; auto.
Qed.

Lemma pending_audio (f : DriveFile) :
  pending env subject st0 f ->
  let v := temp_video_of (file_name f) in
  may_emit F0 (EvExtract v (audio_path_of v))
  /\ may_touch F0 (audio_path_of v)
  /\ may_emit F0 (EvRemove (audio_path_of v)).
Proof.
  intros Hf. cbn. unfold video_path. repeat split; exists f; auto.
Qed.

Lemma pending_transcript (f : DriveFile) :
  pending env subject st0 f ->
  may_emit F (EvArtifactWritten (txt_name_of (file_name f)))
  /\ may_emit F (EvInsertIssued subject (file_name f))
  /\ may_insert F (subject, file_name f)
  /\ may_touch F (txt_name_of (file_name f)).
Proof.
  intros Hf. cbn. unfold video_path. repeat split; try exists f; auto.
Qed.

Lemma downloads_within (l : list DriveFile) :
  (forall f, In f l -> pending env subject st0 f) ->
  Within F0 (mapM (start_download env) l).
Proof.
  intros Hl. apply within_mapM. intros f Hf.
  destruct (pending_temp f (Hl f Hf)) as (He & Ht & _).
  unfold start_download. apply within_bind; [|intros r; apply within_ret].
  apply within_run_task, within_download_video; auto; cbn; auto.
Qed.

Lemma pool_within (l : list DriveFile) (dv : list (string * Info)) :
  (forall f, In f l -> pending env subject st0 f) ->
  dv_ok l dv ->
  Within F0 (transcribe_multiple_videos env (map (fun item => temp_path (snd item)) dv)).
Proof.
  intros Hl [_ Hdv]. unfold transcribe_multiple_videos, max_workers.
  apply within_bind; [destruct (cpu_count env); frame|]. intros k.
  destruct (k <=? 0); [frame|].
  apply within_foldM. intros results v Hv.
  apply in_map_iff in Hv as (item & <- & Hitem).
  destruct (Hdv item Hitem) as (Hkey & -> & Hin).
  rewrite Hkey.
  destruct (pending_audio _ (Hl _ Hin)) as (He & Ht & Hr).
  apply within_collect_result; auto; exact I.
Qed.

Lemma cleanup_within (l : list DriveFile) (dv : list (string * Info)) :
  (forall f, In f l -> pending env subject st0 f) ->
  dv_ok l dv ->
  Within F0 (cleanup dv).
Proof.
  intros Hl [_ Hdv]. unfold cleanup. apply within_for_each. intros item Hitem.
  destruct (Hdv item Hitem) as (Hkey & -> & Hin). rewrite Hkey.
  destruct (pending_temp _ (Hl _ Hin)) as (_ & Ht & Hr).
  now apply within_remove_if_exists.
Qed.

Lemma persist_within (l : list DriveFile) (dv : list (string * Info))
    (transcriptions : gmap string string) :
  (forall f, In f l -> pending env subject st0 f) ->
  dv_ok l dv ->
  Within F (for_each dv (persist_task env subject transcriptions)).
Proof.
  intros Hl [_ Hdv]. apply within_for_each. intros item Hitem.
  destruct (Hdv item Hitem) as (_ & _ & Hin).
  destruct (pending_transcript _ (Hl _ Hin)) as (Hw & He & Hi & Ht).
  unfold persist_task. destruct (transcriptions !! temp_path (snd item)); [|frame].
  apply within_bind; [|intros ?; frame].
  apply within_run_task. now apply within_process_transcribed_video.
Qed.

End SubjectFrame.

Lemma within_events (F : Footprint) (w : World) (events : list Event) :
  Forall (may_emit F) events ->
  within F w (mkWorld (fs w) (store w) (trace w ++ events)).
Proof.
  intros He. repeat split.
  - now exists events.
  - exists []. now rewrite app_nil_r.
Qed.

Lemma filter_within (env : Env) (subject : string) (st0 : list (string * string))
    (files acc : list DriveFile) (w w1 : World) (r : Res (list DriveFile)) :
  (forall f, In f files -> In f (listed env subject)) ->
  store w = st0 ->
  foldM (filter_step env subject) files acc w = (r, w1) ->
  within (no_insert (subject_footprint env subject st0)) w w1.
Proof.
  intros Hlisted Hst Hrun.
  apply filter_result in Hrun as (Hfs & Hst1 & (skips & Htr & Hsk) & _).
  repeat split.
  - exists skips. split; [exact Htr|].
    eapply Forall_impl; [exact Hsk|]. intros e (f & Hf & -> & Hrec).
    cbn. exists f. rewrite <- Hst. auto.
  - exists []. now rewrite app_nil_r.
  - intros p _. now rewrite Hfs.
Qed.

Lemma subject_run_early (env : Env) (subject : string) (w0 w' : World) :
  within (no_insert (subject_footprint env subject (store w0))) w0 w' ->
  subject_run_ok env subject w0 w'.
Proof.
  intros H. apply within_no_insert in H as [H Hst]. split; [exact H|].
  exists []. rewrite app_nil_r. split; [exact Hst | constructor].
Qed.

Lemma subject_run_step (env : Env) (subject : string) (w0 w w' : World) :
  subject_run_ok env subject w0 w ->
  within (no_insert (subject_footprint env subject (store w0))) w w' ->
  subject_run_ok env subject w0 w'.
Proof.
  intros [H (records & Hst & Hnd)] Hstep.
  apply within_no_insert in Hstep as [Hstep Hst']. split.
  - eapply within_trans; eassumption.
  - exists records. split; [congruence | exact Hnd].
Qed.

Lemma body_run_ok (env : Env) (subject : string) (w0 : World) :
  subject_run_ok env subject w0 (snd (process_subject_body env subject w0)).
Proof.
  set (F0 := no_insert (subject_footprint env subject (store w0))).
  unfold process_subject_body.
  apply (bind_cases (subject_run_ok env subject w0)).
  { intros e w1 H. apply config_folder_inv in H as [-> _].
    apply subject_run_early, within_refl. }
  intros folder w1 H. apply config_folder_inv in H as [-> Hfolder].
  specialize (Hfolder _ eq_refl).
  assert (Hlist0 : within F0 w0 (mkWorld (fs w0) (store w0) (trace w0 ++ [EvListing folder]))).
  { apply within_events. constructor; [exact Hfolder | constructor]. }
  apply (bind_cases (subject_run_ok env subject w0)).
  { intros e w1 H. apply list_files_inv in H as [-> _]. now apply subject_run_early. }
  intros files w2 H. apply list_files_inv in H as [-> Hlist].
  specialize (Hlist _ eq_refl).
  assert (Hlisted : listed env subject = files).
  { unfold listed. now rewrite Hfolder, Hlist. }
  set (w2 := mkWorld (fs w0) (store w0) (trace w0 ++ [EvListing folder])) in *.
  destruct (is_nil files).
  { apply subject_run_early. eapply within_trans; [exact Hlist0|].
    apply within_emit. reflexivity. }
  apply (bind_cases (subject_run_ok env subject w0)).
  { intros e w3 H. apply subject_run_early. eapply within_trans; [exact Hlist0|].
    eapply filter_within; [| |exact H]; [rewrite Hlisted; auto | reflexivity]. }
  intros unprocessed w3 H.
  assert (H3 : within F0 w0 w3).
  { eapply within_trans; [exact Hlist0|].
    eapply filter_within; [| |exact H]; [rewrite Hlisted; auto | reflexivity]. }
  assert (Hpend : forall f, In f unprocessed -> pending env subject (store w0) f).
  { apply filter_result in H as (_ & _ & _ & Hacc).
    intros f Hf. destruct (Hacc _ eq_refl f Hf) as [[]|[Hin Hrec]].
    split; [now rewrite Hlisted | exact Hrec]. }
  clear H. destruct (is_nil unprocessed).
  { apply subject_run_early. eapply within_trans; [exact H3|].
    apply within_emit. reflexivity. }
  pose proof (downloads_within env subject (store w0) unprocessed Hpend w3) as Hdl.
  apply (bind_cases (subject_run_ok env subject w0)).
  { intros e w4 H. rewrite H in Hdl. apply subject_run_early.
    eapply within_trans; eassumption. }
  intros tasks w4 H. rewrite H in Hdl. cbn [snd] in Hdl.
  assert (H4 : within F0 w0 w4) by (eapply within_trans; eassumption).
  apply downloads_result in H as (tasks' & [= <-] & Htasks).
  destruct (collect_downloads_result unprocessed tasks [] w4 Htasks) as (dv & Hcollect & Hdv).
  { split; [constructor | intros item []]. }
  apply (bind_cases (subject_run_ok env subject w0)).
  { intros e w5 H. rewrite Hcollect in H. discriminate H. }
  intros dv' w5 H. rewrite Hcollect in H. injection H as <- <-.
  destruct (is_nil dv).
  { apply subject_run_early. eapply within_trans; [exact H4|].
    apply within_emit. reflexivity. }
  pose proof (pool_within env subject (store w0) unprocessed dv Hpend Hdv w4) as Hpool.
  apply (bind_cases (subject_run_ok env subject w0)).
  { intros e w6 H. rewrite H in Hpool. apply subject_run_early.
    eapply within_trans; eassumption. }
  intros transcriptions w6 H. rewrite H in Hpool. cbn [snd] in Hpool. clear H.
  assert (H6 : within F0 w0 w6) by (eapply within_trans; eassumption).
  assert (Hclean : forall w, within F0 w (snd (cleanup dv w))).
  { intros w. now apply (cleanup_within env subject (store w0) unprocessed dv). }
  destruct (bool_decide (transcriptions = ∅)).
  { apply subject_run_early.
    apply (bind_cases (within F0 w0)).
    - intros e w7 H. apply emit_inv in H as H'.
      eapply within_trans; [exact H6|].
      pose proof (within_emit F0 (EvLog (NoSuccessfulTranscriptions subject)) eq_refl w6) as He.
      now rewrite H in He.
    - intros [] w7 H.
      pose proof (within_emit F0 (EvLog (NoSuccessfulTranscriptions subject)) eq_refl w6) as He.
      rewrite H in He. cbn [snd] in He.
      eapply within_trans; [exact H6|]. eapply within_trans; [exact He | apply Hclean]. }
  destruct (persist_loop_store env subject transcriptions dv w6)
    as (w7 & records & Hloop & Hst7 & Hsub).
  assert (H7 : subject_run_ok env subject w0 w7).
  { split.
    - apply within_no_insert in H6 as [H6' _].
      eapply within_trans; [exact H6'|].
      pose proof (persist_within env subject (store w0) unprocessed dv transcriptions
                    Hpend Hdv w6) as Hp.
      now rewrite Hloop in Hp.
    - exists records. apply within_no_insert in H6 as [_ Hst6].
      split; [now rewrite Hst7, Hst6|].
      eapply sublist_NoDup; [|exact Hsub].
      eapply dv_records_NoDup; exact Hdv. }
  erewrite bind_ok by exact Hloop.
  apply (bind_cases (subject_run_ok env subject w0)).
  { intros e w8 H. eapply subject_run_step; [exact H7|].
    pose proof (Hclean w7) as Hc. now rewrite H in Hc. }
  intros [] w8 H. pose proof (Hclean w7) as Hc. rewrite H in Hc. cbn [snd] in Hc.
  eapply subject_run_step; [eapply subject_run_step; [exact H7 | exact Hc]|].
  apply within_emit. reflexivity.
Qed.

Lemma process_subject_run_ok (env : Env) (subject : string) (w0 : World) :
  subject_run_ok env subject w0 (snd (process_subject env subject w0)).
Proof.
  unfold process_subject. apply (try_cases (subject_run_ok env subject w0)).
  - apply body_run_ok.
  - intros e w1 _ H. eapply subject_run_step; [exact H|].
    apply within_emit. reflexivity.
Qed.

(** ** What a subject's run and the coordinator never do *)

(** X12.  Everything the run of a subject does stays inside the footprint
    of the subject: it downloads, extracts, writes transcripts, inserts and
    removes only for videos that the drive lists for the subject and that had
    no record when the run started; it logs only about this subject; and the
    records it adds are all different. *)
Theorem subject_stays_in_footprint (env : Env) (subject : string) (w : World) :
  let w' := snd (process_subject env subject w) in
  within (subject_footprint env subject (store w)) w w'
  /\ exists records, store w' = store w ++ records /\ NoDup records.
Proof. exact (process_subject_run_ok env subject w). Qed.

(** X13.  A run of a subject starts a download only for a listed video that
    has no record yet, and then with the temp path of that video; a video
    with a record is never downloaded again. *)
Theorem downloads_only_for_pending (env : Env) (subject : string) (w : World) :
  exists added,
    trace (snd (process_subject env subject w)) = trace w ++ added
    /\ forall id p, In (EvDownloadAttempt id p) added ->
         exists f, In f (listed env subject)
                   /\ has_record (store w) subject (file_name f) = false
                   /\ id = file_id f /\ p = temp_video_of (file_name f).
Proof.
  destruct (process_subject_run_ok env subject w) as [((added & Htr & Hev) & _) _].
  exists added. split; [exact Htr|]. intros id p Hin.
  rewrite Forall_forall in Hev. apply list_elem_of_In in Hin.
  destruct (Hev _ Hin) as (f & [Hf Hrec] & Hid & Hp). now exists f.
Qed.

Lemma has_record_false (records : list (string * string)) (subject name : string) :
  has_record records subject name = false <-> (subject, name) ∉ records.
Proof.
  unfold has_record. induction records as [|[s n] records IH]; cbn [existsb fst snd].
  - split; [intros _; apply not_elem_of_nil | reflexivity].
  - rewrite orb_false_iff, IH, not_elem_of_cons, andb_false_iff.
    destruct (String.eqb_spec s subject) as [->|Hs];
      destruct (String.eqb_spec n name) as [->|Hn];
      split; intros [H1 H2]; split; auto; try congruence;
      destruct H1; congruence.
Qed.

Lemma process_subject_store (env : Env) (subject : string) (w : World) :
  exists records,
    store (snd (process_subject env subject w)) = store w ++ records
    /\ NoDup records
    /\ forall d, d ∈ records ->
         fst d = subject /\ (d ∉ store w)
         /\ exists f, In f (listed env subject) /\ snd d = file_name f.
Proof.
  destruct (process_subject_run_ok env subject w)
    as [(_ & (records & Hst & Hrec) & _) (records' & Hst' & Hnd)].
  assert (records' = records) as -> by (rewrite Hst in Hst'; now apply app_inv_head in Hst').
  exists records. split; [exact Hst|]. split; [exact Hnd|].
  intros d Hd. rewrite Forall_forall in Hrec.
  destruct (Hrec d Hd) as (f & [Hf Hpend] & ->). cbn [fst snd].
  split; [reflexivity|]. split; [now apply has_record_false|]. now exists f.
Qed.

Lemma run_all_store (env : Env) (l : list string) (w : World) :
  exists records,
    store (run_all env l w) = store w ++ records
    /\ (NoDup (store w) -> NoDup (store w ++ records))
    /\ forall d, d ∈ records ->
         In (fst d) l /\ exists f, In f (listed env (fst d)) /\ snd d = file_name f.
Proof.
  revert w. induction l as [|s l IH]; intros w.
  - exists []. rewrite app_nil_r. split; [reflexivity|]. split; [auto|].
    intros d Hd. now apply elem_of_nil in Hd.
  - rewrite run_all_cons.
    destruct (process_subject_store env s w) as (r1 & Hst1 & Hnd1 & Hr1).
    destruct (IH (snd (process_subject env s w))) as (r2 & Hst2 & Hnd2 & Hr2).
    exists (r1 ++ r2). rewrite Hst2, Hst1, app_assoc. split; [reflexivity|]. split.
    + intros Hnd. rewrite Hst1 in Hnd2. apply Hnd2.
      apply NoDup_app. split; [exact Hnd|]. split; [|exact Hnd1].
      intros d Hd Hd'. now apply (Hr1 d Hd').
    + intros d Hd. apply elem_of_app in Hd as [Hd|Hd].
      * destruct (Hr1 d Hd) as (Hs & _ & Hf). rewrite Hs. split; [now left | exact Hf].
      * destruct (Hr2 d Hd) as (Hs & Hf). split; [now right | exact Hf].
Qed.

(** X14.  The coordinator only appends to the store: the records that were
    there stay, in place, and every record it adds is a configured subject
    with the name of a video listed for that subject.  When no record occurs
    twice before the run, none does after it: a video is marked done at most
    once. *)
Theorem store_grows_without_duplicates (env : Env) (w : World) :
  exists records,
    store (snd (main env w)) = store w ++ records
    /\ (NoDup (store w) -> NoDup (store (snd (main env w))))
    /\ forall subject name, (subject, name) ∈ records ->
         In subject (subjects env)
         /\ exists f, In f (listed env subject) /\ name = file_name f.
Proof.
  destruct (run_all_store env (subjects env) w) as (records & Hst & Hnd & Hrec).
  exists records. rewrite main_run. cbn [snd store set_trace].
  split; [exact Hst|]. split; [now rewrite Hst|].
  intros subject name Hin. exact (Hrec _ Hin).
Qed.

Lemma store_grows_without_duplicates_witness :
  NoDup (store (snd (main sample_env (snd (main sample_env empty_world))))).
Proof.
  destruct (store_grows_without_duplicates sample_env (snd (main sample_env empty_world)))
    as (records & _ & Hnd & _).
  apply Hnd. apply (bool_decide_unpack _). vm_compute. exact I.
Defined.

Lemma length_append (a b : string) :
  String.length (a +:+ b) = (String.length a + String.length b)%nat.
Proof.
  induction a as [|c a IH]; [reflexivity|].
  rewrite append_cons. cbn [String.length]. now rewrite IH.
Qed.

Lemma video_path_shape (f : DriveFile) (p : string) :
  video_path f p ->
  (exists x, p = "temp_" +:+ x) \/ (exists x, p = x +:+ "_transcript.txt").
Proof.
  intros [-> | [-> | ->] ].
  - left. now exists (file_name f).
  - left. eexists. unfold audio_path_of. reflexivity.
  - right. now exists (file_name f).
Qed.

Lemma run_all_fs (env : Env) (l : list string) (w : World) (p : string) :
  (forall x, p <> "temp_" +:+ x) -> (forall x, p <> x +:+ "_transcript.txt") ->
  fs (run_all env l w) !! p = fs w !! p.
Proof.
  intros Htemp Htxt. revert w. induction l as [|s l IH]; intros w; [reflexivity|].
  rewrite run_all_cons, IH.
  destruct (process_subject_run_ok env s w) as [(_ & _ & Hfs) _].
  apply Hfs. intros (f & _ & Hpath).
  apply video_path_shape in Hpath as [[x ->]|[x ->]]; [now apply (Htemp x) | now apply (Htxt x)].
Qed.

(** X15.  The coordinator never creates, changes or removes a file whose
    name neither starts with "temp_" nor ends with "_transcript.txt". *)
Theorem other_files_untouched (env : Env) (w : World) (p : string) :
  (forall x, p <> "temp_" +:+ x) -> (forall x, p <> x +:+ "_transcript.txt") ->
  fs (snd (main env w)) !! p = fs w !! p.
Proof.
  intros Htemp Htxt. rewrite main_run. cbn [snd fs set_trace].
  now apply run_all_fs.
Qed.

Lemma other_files_untouched_witness :
  fs (snd (main sample_env (mkWorld {["config.json" := "{}"]} [] []))) !! "config.json"
  = Some "{}".
Proof.
  rewrite (other_files_untouched sample_env _ "config.json").
  - vm_compute. reflexivity.
  - intros x H. discriminate H.
  - intros x H.
    assert (Hlen : String.length "config.json" = String.length (x +:+ "_transcript.txt"))
      by now rewrite <- H.
    rewrite length_append in Hlen. cbn in Hlen. lia.
Defined.

(** ** What the pool returns *)

Lemma transcribe_with_progress_result (env : Env) (v : string) (w : World) :
  exists text w',
    transcribe_with_progress env v w = (Ok (v, text), w')
    /\ forall t, text = Some t -> Str.is_empty t = false.
Proof.
  unfold transcribe_with_progress.
  destruct (exists_nonempty_reads v w) as ([|] & Hex).
  - destruct (transcribe_with_ffmpeg_preprocessing env v w) as [[text|e] w1] eqn:Ht.
    + destruct (truthy text) eqn:Htr.
      * exists text, w1. split.
        -- apply try_ok. erewrite bind_ok by exact Hex. cbv beta iota.
           erewrite bind_ok by exact Ht. now rewrite Htr.
        -- intros t ->. cbn in Htr. now apply negb_true_iff in Htr.
      * exists None, w1. split; [|discriminate].
        apply try_ok. erewrite bind_ok by exact Hex. cbv beta iota.
        erewrite bind_ok by exact Ht. now rewrite Htr.
    + exists None, w1. split; [|discriminate].
      erewrite try_raise; [reflexivity|].
      erewrite bind_ok by exact Hex. cbv beta iota.
      erewrite bind_raise by exact Ht. reflexivity.
  - exists None, w. split; [|discriminate].
    apply try_ok. erewrite bind_ok by exact Hex. reflexivity.
Qed.

Lemma pool_fold_result (env : Env) (paths : list string) (results : gmap string string)
    (w : World) :
  exists m w',
    foldM (collect_result env) paths results w = (Ok m, w')
    /\ forall p t, m !! p = Some t ->
         results !! p = Some t \/ (In p paths /\ Str.is_empty t = false).
Proof.
  revert results w. induction paths as [|v paths IH]; intros results w; cbn [foldM].
  - exists results, w. split; [reflexivity | auto].
  - destruct (transcribe_with_progress_result env v w) as (text & w1 & Hrun & Htext).
    assert (Hstep : exists results1,
               collect_result env results v w = (Ok results1, w1)
               /\ forall p t, results1 !! p = Some t ->
                    results !! p = Some t \/ (p = v /\ Str.is_empty t = false)).
    { unfold collect_result. erewrite bind_ok by exact Hrun. destruct text as [t|].
      - eexists. split; [reflexivity|]. intros p t' Hp.
        destruct (decide (v = p)) as [<-|Hne].
        + rewrite lookup_insert_eq in Hp. injection Hp as <-. right. auto.
        + rewrite lookup_insert_ne in Hp by exact Hne. now left.
      - eexists. split; [reflexivity | auto]. }
    destruct Hstep as (results1 & Hstep & Hres1).
    erewrite bind_ok by exact Hstep.
    destruct (IH results1 w1) as (m & w' & Hrest & Hm).
    exists m, w'. split; [exact Hrest|]. intros p t Hp.
    destruct (Hm p t Hp) as [H|[H1 H2]].
    + destruct (Hres1 p t H) as [H'|[-> H']]; [now left | right].
      split; [now left | exact H'].
    + right. split; [now right | exact H2].
Qed.

(** X16.  With at least one processor the pool never raises, whatever
    happens to the single videos, and its mapping holds only paths that were
    submitted, each with a text that is not empty. *)
Theorem pool_results (env : Env) (n : Z) (paths : list string) (w : World) :
  cpu_count env = Some n -> 1 <= n ->
  exists m w',
    transcribe_multiple_videos env paths w = (Ok m, w')
    /\ forall p t, m !! p = Some t -> In p paths /\ Str.is_empty t = false.
Proof.
  intros Hn Hpos. unfold transcribe_multiple_videos, max_workers. rewrite Hn.
  erewrite bind_ok by reflexivity.
  assert (Hk : (Z.min (if n - 1 =? 0 then 1 else n - 1) 3 <=? 0) = false).
  { apply Z.leb_gt. destruct (n - 1 =? 0) eqn:E;
      [apply Z.eqb_eq in E | apply Z.eqb_neq in E]; lia. }
  rewrite Hk.
  destruct (pool_fold_result env paths ∅ w) as (m & w' & Hrun & Hm).
  exists m, w'. split; [exact Hrun|]. intros p t Hp.
  destruct (Hm p t Hp) as [H|H]; [|exact H].
  rewrite lookup_empty in H. discriminate H.
Qed.

Lemma pool_results_witness :
  exists w', transcribe_multiple_videos sample_env ["temp_lec1.mp4"; "temp_gone.mp4"]
               one_video_world
             = (Ok {["temp_lec1.mp4" := "Hello there." +:+ nl +:+ "Second segment." +:+ nl]},
                w').
Proof.
  destruct (pool_results sample_env 8 ["temp_lec1.mp4"; "temp_gone.mp4"] one_video_world
              eq_refl ltac:(lia)) as (m & w' & Hrun & _).
  exists w'. rewrite Hrun. f_equal. f_equal.
  apply (f_equal fst) in Hrun. cbn [fst] in Hrun.
  assert (Hm : Ok m = Ok ({["temp_lec1.mp4" := "Hello there." +:+ nl +:+ "Second segment." +:+ nl]}
                            : gmap string string)).
  { rewrite <- Hrun. vm_compute. reflexivity. }
  now injection Hm.
Defined.

(** ** Collecting the downloads *)

(** X17.  Whatever the downloads of a list of files came to, collecting them
    never raises and changes nothing in the world; the entries it keeps have
    different names (of two files with one name a single entry is kept), are
    filed under the name of their file, belong to the files given, and point to
    the temp path of that name. *)
Theorem collected_downloads (env : Env) (l : list DriveFile) (w : World) :
  let started := mapM (start_download env) l w in
  exists tasks dv,
    fst started = Ok tasks
    /\ map fst tasks = l
    /\ foldM collect_download tasks [] (snd started) = (Ok dv, snd started)
    /\ dv_ok l dv.
Proof.
  cbv zeta. destruct (mapM (start_download env) l w) as [r w1] eqn:Hrun.
  assert (Hmap : forall l w r w1, mapM (start_download env) l w = (r, w1) ->
                   exists tasks, r = Ok tasks /\ map fst tasks = l).
  { clear. intros l. induction l as [|file l IH]; intros w r w1; cbn [mapM].
    - intros [= <- <-]. now exists [].
    - erewrite bind_ok by apply start_download_run.
      destruct (mapM (start_download env) l
                  (snd (download_video env (file_id file) (file_name file) w)))
        as [r2 w2] eqn:Hrest.
      destruct (IH _ _ _ Hrest) as (tasks & -> & Htasks).
      erewrite bind_ok by exact Hrest. intros [= <- <-].
      eexists. split; [reflexivity|]. cbn. now rewrite Htasks. }
  destruct (Hmap _ _ _ _ Hrun) as (tasks & -> & Htasks).
  apply downloads_result in Hrun as (tasks' & [= <-] & Hentries).
  destruct (collect_downloads_result l tasks [] w1 Hentries) as (dv & Hcollect & Hdv).
  { split; [constructor | intros item []]. }
  exists tasks, dv. cbn [fst snd]. auto.
Qed.

(** ** The clean-up loop *)

Lemma cleanup_run (items : list (string * Info)) (w : World) (p : string) :
  fst (cleanup items w) = Ok tt
  /\ store (snd (cleanup items w)) = store w
  /\ fs (snd (cleanup items w)) !! p
     = if decide (p ∈ map (fun item => temp_path (snd item)) items)
       then None else fs w !! p.
Proof.
  unfold cleanup, for_each. revert w.
  induction items as [|item items IH]; intros w; cbn [foldM map].
  - repeat split.
  - destruct (remove_if_exists_run (temp_path (snd item)) w) as (Hok & Hfs & Hst).
    destruct (remove_if_exists (temp_path (snd item)) w) as [r w1] eqn:Hrun.
    cbn [fst snd] in Hok, Hfs, Hst. subst r.
    erewrite bind_ok by exact Hrun.
    destruct (IH w1) as (Hr & Hst' & Hfs').
    split; [exact Hr|]. split; [now rewrite Hst', Hst|].
    rewrite Hfs', Hfs.
    destruct (decide (p ∈ map (fun item => temp_path (snd item)) items)) as [Hin|Hin].
    + rewrite decide_True by (now apply elem_of_cons; right). reflexivity.
    + destruct (decide (p = temp_path (snd item))) as [->|Hne].
      * rewrite decide_True by (apply elem_of_cons; now left). apply lookup_delete_eq.
      * rewrite decide_False by (rewrite elem_of_cons; tauto).
        apply lookup_delete_ne. congruence.
Qed.

(** X18.  The clean-up loop never raises and leaves the store alone.  When
    it is done, no file of [downloaded_videos] is left, whether it was there
    or not, and every other file is as it was. *)
Theorem cleanup_leaves_no_temp_file (items : list (string * Info)) (w : World) :
  let w' := snd (cleanup items w) in
  fst (cleanup items w) = Ok tt
  /\ store w' = store w
  /\ (forall item, In item items -> fs w' !! temp_path (snd item) = None)
  /\ (forall p, (forall item, In item items -> temp_path (snd item) <> p) ->
                fs w' !! p = fs w !! p).
Proof.
  cbv zeta. split; [apply (cleanup_run items w EmptyString)|].
  split; [apply (cleanup_run items w EmptyString)|]. split.
  - intros item Hitem.
    destruct (cleanup_run items w (temp_path (snd item))) as (_ & _ & ->).
    rewrite decide_True; [reflexivity|].
    apply list_elem_of_In, in_map_iff. now exists item.
  - intros p Hp. destruct (cleanup_run items w p) as (_ & _ & ->).
    rewrite decide_False; [reflexivity|].
    intros Hin. apply list_elem_of_In, in_map_iff in Hin as (item & Heq & Hitem).
    now apply (Hp item Hitem).
Qed.

(** ** One video, when every step succeeds *)

Lemma download_first_try (env : Env) (id name content : string) (w : World) :
  drive_fetch env id 0 = FetchOk content ->
  download_video env id name w
  = (Ok (Some (temp_video_of name)),
     mkWorld (<[temp_video_of name := content]> (fs w)) (store w)
             (trace w ++ [EvDownloadAttempt id (temp_video_of name)])).
Proof.
  intros Hfetch. unfold download_video.
  change (Z.to_nat max_retries) with 3%nat. cbn [download_loop].
  change (max_retries - Z.of_nat 3) with 0.
  apply try_ok. erewrite bind_ok; [reflexivity|].
  rewrite fetch_to_run, Hfetch. reflexivity.
Qed.

Lemma is_empty_append (a b : string) :
  Str.is_empty (a +:+ b) = Str.is_empty a && Str.is_empty b.
Proof. destruct a; reflexivity. Qed.

Lemma format_segments_nonempty (segments : list string) :
  segments <> [] -> Str.is_empty (format_segments nl segments) = false.
Proof.
  destruct segments as [|t segments]; [congruence|]. intros _.
  rewrite format_segments_joined. unfold joined_segments. cbn [map].
  rewrite concat_empty_cons, !is_empty_append. cbn. now rewrite andb_false_r.
Qed.

Lemma append_suffix_inj (a1 a2 b1 b2 : string) :
  String.length b1 = String.length b2 -> a1 +:+ b1 = a2 +:+ b2 -> b1 = b2.
Proof.
  revert a2. induction a1 as [|c a1 IH]; intros [|d a2] Hlen Heq.
  - exact Heq.
  - change (EmptyString +:+ b1) with b1 in Heq. subst b1.
    rewrite length_append in Hlen. cbn in Hlen. lia.
  - change (EmptyString +:+ b2) with b2 in Heq. subst b2.
    rewrite length_append in Hlen. cbn in Hlen. lia.
  - rewrite !append_cons in Heq. injection Heq as _ Heq. now apply (IH a2).
Qed.

Lemma txt_not_temp (name : string) : txt_name_of name <> temp_video_of name.
Proof.
  intros H. apply (f_equal String.length) in H.
  unfold txt_name_of, temp_video_of in H. rewrite !length_append in H. cbn in H. lia.
Qed.

Lemma txt_not_audio (name v : string) : txt_name_of name <> audio_path_of v.
Proof.
  unfold txt_name_of, audio_path_of. intros H.
  change "_transcript.txt" with ("_transcript" +:+ ".txt") in H.
  rewrite <- !append_assoc in H.
  apply append_suffix_inj in H; [discriminate H | reflexivity].
Qed.

(** X19.  A subject with one listed video that has no record, when the
    first download attempt, ffmpeg, the primary model, the write of the
    transcript and the insert all succeed: the run ends normally, the store
    gains the record of the video, the transcript file holds the formatted
    text, neither the temp video nor the temp audio is left, and the steps
    are taken in the order list, download, extract, transcribe, write, insert,
    clean up. *)
Theorem single_video_is_processed (env : Env) (subject folder : string) (f : DriveFile)
    (content audio : string) (segments : list string) (n : Z) (w : World) :
  let v := temp_video_of (file_name f) in
  let a := audio_path_of v in
  let txt := txt_name_of (file_name f) in
  recording_folder env subject = Some folder ->
  drive_list env folder = Ok [f] ->
  find_error env subject (file_name f) = None ->
  has_record (store w) subject (file_name f) = false ->
  drive_fetch env (file_id f) 0 = FetchOk content -> Str.is_empty content = false ->
  a <> v ->
  ffmpeg env v = ExtractOk (Some audio) -> Str.is_empty audio = false ->
  primary_model env a = Ok segments -> segments <> [] ->
  artifact_write env txt = WriteDone ->
  insert_error env subject (file_name f) = None ->
  cpu_count env = Some n -> 1 <= n ->
  exists w',
    process_subject env subject w = (Ok tt, w')
    /\ store w' = store w ++ [(subject, file_name f)]
    /\ fs w' !! txt = Some (joined_segments nl segments)
    /\ fs w' !! v = None
    /\ fs w' !! a = None
    /\ trace w' = trace w ++ [EvListing folder; EvDownloadAttempt (file_id f) v;
                              EvExtract v a; EvPrimary a; EvRemove a;
                              EvArtifactWritten txt; EvInsertIssued subject (file_name f);
                              EvRemove v; EvLog (CompletedSubject subject)].
Proof.
  intros v a txt Hfolder Hlist Hfind Hrec Hfetch Hcontent Hav Hff Haudio Hmodel Hsegs
         Hwrite Hinsert Hcpu Hn.
  set (text := format_segments nl segments).
  set (w1 := mkWorld (fs w) (store w) (trace w ++ [EvListing folder])).
  set (w2 := mkWorld (<[v := content]> (fs w)) (store w)
                     (trace w1 ++ [EvDownloadAttempt (file_id f) v])).
  assert (Hv2 : fs w2 !! v = Some content) by apply lookup_insert_eq.
  (* the transcriber *)
  assert (Ha2 : fs (after_extract (Some audio) v w2) !! a = Some audio)
    by apply lookup_insert_eq.
  pose proof (transcribe_extract_ok env v w2 (Some audio) audio Hff Ha2 Haudio) as Htr.
  fold a in Htr.
  rewrite (primary_success env a _ audio Ha2 segments Hmodel) in Htr.
  fold text in Htr.
  set (w3 := mkWorld (delete a (fs (after_extract (Some audio) v w2))) (store w2)
                     (trace (after_extract (Some audio) v w2) ++ [EvPrimary a; EvRemove a]))
    in *.
  pose proof (transcribe_with_progress_run env v content w2 w3 (Some text) Hv2 Hcontent Htr)
    as Hprog.
  assert (Htruthy : truthy (Some text) = true).
  { cbn. unfold text. now rewrite format_segments_nonempty. }
  rewrite Htruthy in Hprog.
  assert (Hpool : transcribe_multiple_videos env [v] w2 = (Ok {[v := text]}, w3)).
  { unfold transcribe_multiple_videos, max_workers. rewrite Hcpu.
    erewrite bind_ok by reflexivity.
    assert (Hk : (Z.min (if n - 1 =? 0 then 1 else n - 1) 3 <=? 0) = false).
    { apply Z.leb_gt. destruct (n - 1 =? 0) eqn:E;
        [apply Z.eqb_eq in E | apply Z.eqb_neq in E]; lia. }
    rewrite Hk. cbn [foldM]. unfold collect_result.
    erewrite bind_ok by (erewrite bind_ok by exact Hprog; reflexivity).
    reflexivity. }
  (* persisting *)
  pose proof (process_transcribed_video_run env subject f v text w3) as Hpersist.
  cbv zeta in Hpersist. fold txt in Hpersist. rewrite Hwrite, Hinsert in Hpersist.
  set (w4 := mkWorld (<[txt := text]> (fs w3)) (store w3 ++ [(subject, file_name f)])
                     (trace w3 ++ [EvArtifactWritten txt;
                                   EvInsertIssued subject (file_name f)])) in *.
  assert (Hv4 : fs w4 !! v = Some content).
  { cbn. rewrite lookup_insert_ne by apply txt_not_temp.
    rewrite lookup_delete_ne by exact Hav.
    rewrite lookup_insert_ne by exact Hav. apply lookup_insert_eq. }
  pose proof (remove_if_exists_some v content w4 Hv4) as Hclean.
  set (w5 := mkWorld (delete v (fs w4)) (store w4) (trace w4 ++ [EvRemove v])) in *.
  exists (mkWorld (fs w5) (store w5) (trace w5 ++ [EvLog (CompletedSubject subject)])).
  split.
  - unfold process_subject. apply try_ok. unfold process_subject_body, config_folder.
    rewrite Hfolder. erewrite bind_ok by reflexivity.
    erewrite bind_ok by (unfold list_files; unfold_monad; cbn; rewrite Hlist; reflexivity).
    cbn [is_nil foldM].
    erewrite bind_ok
      by (erewrite bind_ok by (apply filter_step_pending; assumption); reflexivity).
    cbn [is_nil app mapM].
    erewrite bind_ok.
    2:{ erewrite bind_ok by apply start_download_run.
        erewrite bind_ok by reflexivity. reflexivity. }
    rewrite (download_first_try env (file_id f) (file_name f) content _ Hfetch).
    cbn [fst snd fs store trace]. fold v. fold w1. fold w2.
    erewrite bind_ok.
    2:{ cbn [foldM]. erewrite bind_ok; [reflexivity|].
        unfold collect_download. cbn [fst snd]. apply try_ok.
        erewrite bind_ok by reflexivity. cbv beta iota.
        erewrite bind_ok by (apply exists_nonempty_some; exact Hv2).
        rewrite Hcontent. reflexivity. }
    cbn [dict_set is_nil map snd temp_path].
    erewrite bind_ok by exact Hpool.
    rewrite bool_decide_eq_false_2 by apply insert_non_empty.
    erewrite bind_ok.
    2:{ unfold for_each. cbn [foldM]. erewrite bind_ok; [reflexivity|].
        unfold persist_task. cbn [snd temp_path info_file fst].
        rewrite lookup_singleton_eq. unfold run_task. unfold_monad.
        rewrite Hpersist. reflexivity. }
    erewrite bind_ok.
    2:{ unfold cleanup, for_each. cbn [foldM snd temp_path].
        erewrite bind_ok by exact Hclean. reflexivity. }
    reflexivity.
  - cbn [fs store trace]. split; [reflexivity|]. split.
    + subst w5 w4. cbn [fs].
      rewrite lookup_delete_ne by (intros E; exact (txt_not_temp _ (eq_sym E))).
      rewrite lookup_insert_eq. unfold text. now rewrite format_segments_joined.
    + split; [subst w5; cbn [fs]; apply lookup_delete_eq|]. split.
      * subst w5 w4 w3. cbn [fs]. rewrite lookup_delete_ne by congruence.
        rewrite lookup_insert_ne by apply txt_not_audio. apply lookup_delete_eq.
      * subst w5 w4 w3 w2 w1. cbn. rewrite <- !app_assoc. reflexivity.
Qed.

Lemma single_video_is_processed_witness :
  exists w',
    process_subject one_video_env "math" empty_world = (Ok tt, w')
    /\ store w' = [("math", "lec1.mp4")]
    /\ fs w' !! "lec1.mp4_transcript.txt"
       = Some ("Hello there." +:+ nl +:+ "Second segment." +:+ nl)
    /\ fs w' !! "temp_lec1.mp4" = None.
Proof.
  destruct (single_video_is_processed one_video_env "math" "folder_math" lec1
              "video-bytes" "pcm" [" Hello there. "; " Second segment."] 8 empty_world)
    as (w' & Hrun & Hstore & Htxt & Hv & _); try reflexivity; try discriminate; try lia.
  exists w'. repeat split; assumption.
Defined.

(** ** The steps of one transcription *)

(** X20.  A call of the transcriber runs ffmpeg exactly once, first.  After
    that it does one of five things: nothing; remove the audio file; ask the
    primary model and remove the audio file; the same with a load of the
    fallback model in between; the same with a load and a call of the fallback
    model in between.  So each model is asked at most once per video, and the
    audio file is removed at most once, as the last step. *)
Theorem transcriber_steps (env : Env) (v : string) (w : World) :
  let a := audio_path_of v in
  exists rest,
    trace (snd (transcribe_with_ffmpeg_preprocessing env v w))
    = trace w ++ EvExtract v a :: rest
    /\ (rest = []
        \/ rest = [EvRemove a]
        \/ rest = [EvPrimary a; EvRemove a]
        \/ rest = [EvPrimary a; EvFallbackLoad; EvRemove a]
        \/ rest = [EvPrimary a; EvFallbackLoad; EvFallback a; EvRemove a]).
Proof.
  cbv zeta. destruct (ffmpeg env v) as [out|out e] eqn:Hf.
  - destruct (fs (after_extract out v w) !! audio_path_of v) as [c|] eqn:Hfile.
    + destruct (Str.is_empty c) eqn:Hc.
      * destruct c; [|discriminate].
        rewrite (transcribe_extract_empty _ _ _ _ Hf Hfile). exists []. auto.
      * rewrite (transcribe_extract_ok _ _ _ _ _ Hf Hfile Hc).
        destruct (primary_model env (audio_path_of v)) as [segs|e] eqn:Hp.
        { rewrite (primary_success _ _ _ _ Hfile segs Hp). eexists. cbn.
          rewrite <- app_assoc. split; [reflexivity | auto]. }
        destruct (is_shape_error e) eqn:He.
        2:{ rewrite (primary_other_error _ _ _ _ Hfile e Hp He). eexists. cbn.
            rewrite <- app_assoc. split; [reflexivity | auto]. }
        destruct (load_base_model env) as [e2|] eqn:Hl.
        { rewrite (fallback_load_failure _ _ _ _ Hfile e e2 Hp He Hl). eexists. cbn.
          rewrite <- app_assoc. split; [reflexivity | auto]. }
        destruct (base_model env (audio_path_of v)) as [segs|e2] eqn:Hb.
        -- rewrite (fallback_success _ _ _ _ Hfile e segs Hp He Hl Hb). eexists. cbn.
           rewrite <- app_assoc. split; [reflexivity | auto 6].
        -- rewrite (fallback_failure _ _ _ _ Hfile e e2 Hp He Hl Hb). eexists. cbn.
           rewrite <- app_assoc. split; [reflexivity | auto 6].
    + rewrite (transcribe_extract_none _ _ _ _ Hf Hfile). exists []. auto.
  - rewrite (transcribe_extract_error _ _ _ _ _ Hf).
    destruct (fs (after_extract out v w) !! audio_path_of v) as [c|] eqn:Hfile.
    + erewrite bind_ok by (eapply remove_if_exists_some; eassumption).
      eexists. cbn. rewrite <- app_assoc. split; [reflexivity | auto].
    + erewrite bind_ok by (eapply remove_if_exists_none; eassumption).
      exists []. auto.
Qed.

(** ** The filtering loop *)

Lemma filter_loop_run (env : Env) (subject : string) (files acc : list DriveFile)
    (w : World) :
  (forall f, In f files -> find_error env subject (file_name f) = None) ->
  foldM (filter_step env subject) files acc w
  = (Ok (acc ++ List.filter (fun f => negb (has_record (store w) subject (file_name f)))
                            files),
     mkWorld (fs w) (store w)
             (trace w ++ map (fun f => EvSkipping (file_name f))
                             (List.filter
                                (fun f => has_record (store w) subject (file_name f))
                                files))).
Proof.
  revert acc w. induction files as [|file files IH]; intros acc w Hno.
  - cbn. rewrite !app_nil_r. now destruct w.
  - cbn [foldM List.filter].
    pose proof (Hno file (or_introl eq_refl)) as Hfind.
    assert (Hrest : forall f, In f files -> find_error env subject (file_name f) = None)
      by (intros f Hf; apply Hno; now right).
    destruct (has_record (store w) subject (file_name file)) eqn:Hrec; cbn [negb map].
    + erewrite bind_ok by (apply filter_step_done; assumption).
      rewrite (IH acc _ Hrest). cbn [fs store trace].
      now rewrite <- app_assoc.
    + erewrite bind_ok by (apply filter_step_pending; assumption).
      rewrite (IH (acc ++ [file]) w Hrest). now rewrite <- app_assoc.
Qed.

(** X21.  When the store answers every membership check, the filtering loop
    is a partition of the listing: it hands on the videos without a record, in
    the order of the listing, logs the others as skipped, in that order too,
    and changes neither files nor store. *)
Theorem filter_is_partition (env : Env) (subject : string) (files : list DriveFile)
    (w : World) :
  (forall f, In f files -> find_error env subject (file_name f) = None) ->
  foldM (filter_step env subject) files [] w
  = (Ok (List.filter (fun f => negb (has_record (store w) subject (file_name f))) files),
     mkWorld (fs w) (store w)
             (trace w ++ map (fun f => EvSkipping (file_name f))
                             (List.filter
                                (fun f => has_record (store w) subject (file_name f))
                                files))).
Proof. intros Hno. now rewrite filter_loop_run. Qed.

Lemma filter_is_partition_witness :
  fst (foldM (filter_step sample_env "math") [lec1; lec2] []
             (mkWorld ∅ [("math", "lec1.mp4")] []))
  = Ok [lec2].
Proof.
  rewrite (filter_is_partition sample_env "math" [lec1; lec2]); [reflexivity|].
  intros f Hf. reflexivity.
Defined.

Lemma filter_raises (env : Env) (subject : string) (files acc : list DriveFile)
    (w : World) :
  (exists f, In f files /\ find_error env subject (file_name f) <> None) ->
  exists e w1, foldM (filter_step env subject) files acc w = (Raise e, w1).
Proof.
  revert acc w. induction files as [|file files IH]; intros acc w (f & Hin & Herr).
  - destruct Hin.
  - cbn [foldM]. destruct (find_error env subject (file_name file)) as [e|] eqn:Hfind.
    + erewrite bind_raise by (apply filter_step_error; eassumption). eauto.
    + assert (Hrest : exists f, In f files /\ find_error env subject (file_name f) <> None).
      { destruct Hin as [<-|Hin]; [congruence | eauto]. }
      destruct (has_record (store w) subject (file_name file)) eqn:Hrec.
      * erewrite bind_ok by (apply filter_step_done; assumption). now apply IH.
      * erewrite bind_ok by (apply filter_step_pending; assumption). now apply IH.
Qed.

(** X22.  When the membership check fails for one of the listed videos, the
    subject is aborted during filtering: nothing is downloaded or
    transcribed, not even for the videos checked before, and files and store
    stay as they were. *)
Theorem failed_check_aborts_subject (env : Env) (subject folder : string)
    (files : list DriveFile) (w : World) :
  recording_folder env subject = Some folder ->
  drive_list env folder = Ok files ->
  (exists f, In f files /\ find_error env subject (file_name f) <> None) ->
  exists e added,
    process_subject env subject w
    = (Ok tt, mkWorld (fs w) (store w)
                      (trace w ++ added ++ [EvLog (ErrorProcessingSubject subject e)]))
    /\ all_quiet added.
Proof.
  intros Hfolder Hlist Herr.
  set (w1 := mkWorld (fs w) (store w) (trace w ++ [EvListing folder])).
  destruct (filter_raises env subject files [] w1 Herr) as (e & w2 & Hrun).
  destruct (filter_result _ _ _ _ _ _ _ Hrun) as (Hfs & Hst & (skips & Htr & Hsk) & _).
  exists e, (EvListing folder :: skips). split.
  - unfold process_subject.
    erewrite try_raise.
    2:{ unfold process_subject_body, config_folder. rewrite Hfolder.
        erewrite bind_ok by reflexivity.
        erewrite bind_ok
          by (unfold list_files; unfold_monad; cbn; rewrite Hlist; reflexivity).
        fold w1. destruct files as [|file files].
        { destruct Herr as (f & [] & _). }
        cbn [is_nil]. erewrite bind_raise by exact Hrun. reflexivity. }
    unfold emit, set_trace. destruct w2 as [f2 s2 t2]. cbn in Hfs, Hst, Htr.
    subst f2 s2 t2. cbn. now rewrite <- !app_assoc.
  - constructor; [reflexivity|].
    eapply Forall_impl; [exact Hsk|]. intros ev (f & _ & -> & _). reflexivity.
Qed.

Lemma failed_check_aborts_subject_witness :
  exists e added,
    process_subject store_down_env "math" empty_world
    = (Ok tt, mkWorld ∅ [] (added ++ [EvLog (ErrorProcessingSubject "math" e)]))
    /\ all_quiet added.
Proof.
  destruct (failed_check_aborts_subject store_down_env "math" "folder_math" [lec1; lec2]
              empty_world eq_refl eq_refl) as (e & added & Hrun & Hq).
  { exists lec1. split; [now left | discriminate]. }
  exists e, added. split; [exact Hrun | exact Hq].
Defined.
